(** * Verification of the transaction server actions

    The development embeds the three server actions of
    [actions/transaction.js] ([createTransaction], [scanReceipt],
    [createTransactionFromPrompt]) and the helper
    [calculateNextRecurringDate], together with the parts of the host
    platform they call: IEEE-754 binary64 numbers, the ECMAScript date
    algorithms, [JSON.parse], the value coercions, and a relational store
    with an all-or-nothing unit of work.

    Layout: host models first (numbers, strings, JSON values, dates),
    then the store and the effect monad, then the actions, the handlers
    of the prompt input component that calls them, then the theorems.

    What the model takes from outside the source file:
    - the identity provider, the admission control, the generative
      model, the cache and [Date.parse] answer as an environment [env]
      says; every theorem holds for all environments;
    - a thrown value is an [Error] and carries a message;
    - the store is a table of users, a table of accounts keyed by id and
      a list of transaction rows; [db.$transaction] runs its callback as
      one atomic step and keeps all of its writes or none; a write may
      fail for a reason of the store's own; a [Decimal] column holds the
      decimal it is given, whatever its length;
    - local time is UTC plus the offset that the host's time zone rules
      give for the time in question;
    - a string is the sequence of bytes of its UTF-8 encoding; the upper
      case of a text that is not plain ASCII is the host's. *)

From Stdlib Require Import ZArith QArith Lia List String Ascii SpecFloat DecimalString.
From stdpp Require Import base option strings gmap list.

Set Default Proof Using "Type".
Set Warnings "-register-all".

(* ===================================================================== *)
(** ** JS numbers: IEEE-754 binary64                                      *)
(* ===================================================================== *)

(** A JS Number is a binary64 value.  It is represented by the standard
    library's [spec_float] at precision 53 and maximal exponent 1024, whose
    operations round to nearest, ties to even, as ECMAScript prescribes. *)
Module JSNumber.
Local Open Scope Z_scope.

Definition number := spec_float.

Definition prec : Z := 53.
Definition emax : Z := 1024.

Definition NaN : number := S754_nan.
Definition zero : number := S754_zero false.

(** [x + y] on Numbers. *)
Definition add : number -> number -> number := SFadd prec emax.

(** Unary minus [-x]. *)
Definition neg : number -> number := SFopp.

(** The Number nearest to the integer [z]. *)
Definition ofZ (z : Z) : number := binary_normalize prec emax z 0 false.

(** The Number nearest to [± m · 10^e10], for [m >= 0]: the value of a
    decimal literal with digits [m] and decimal exponent [e10]. *)
Definition ofDecimal (sign : bool) (m : Z) (e10 : Z) : number :=
  match m with
  | Zpos p =>
      match e10 with
      | Zneg k => SFdiv prec emax (S754_finite sign p 0)
                    (S754_finite false (10 ^ k)%positive 0)
      | _ => binary_normalize prec emax
               ((if sign then Zneg p else Zpos p) * 10 ^ e10) 0 sign
      end
  | _ => S754_zero sign
  end.

Definition isFinite (x : number) : bool :=
  match x with S754_zero _ | S754_finite _ _ _ => true | _ => false end.

(** ToBoolean on a Number: [+0], [-0] and [NaN] are falsy. *)
Definition truthy (x : number) : bool :=
  match x with S754_zero _ | S754_nan => false | _ => true end.

(** The exact rational value of a finite Number (0 for the others). *)
Definition toQ (x : number) : Q :=
  match x with
  | S754_finite s m e =>
      let q := (inject_Z (Zpos m) * Qpower 2 e)%Q in
      if s then Qopp q else q
  | _ => 0%Q
  end.

(** The integral part of a finite Number, truncated towards zero
    (ToIntegerOrInfinity on finite values). *)
Definition truncate (x : number) : Z :=
  match x with
  | S754_finite s m e =>
      let a := match e with
               | Zneg k => Zpos m / 2 ^ Zpos k
               | _ => Zpos m * 2 ^ e
               end in
      if s then - a else a
  | _ => 0
  end.

(** *** Shortest round-trip digits (Number::toString, step 5)

    For a finite positive [x], integers [n], [k], [s] with [k >= 1],
    [10^(k-1) <= s < 10^k], such that [s · 10^(n-k)] converts back to
    [x], with [k] as small as possible and, among the candidates, [s]
    closest to [x]. *)

(** [magnitude p q] is the [n] with [10^(n-1) <= p/q < 10^n]. *)
Fixpoint magnitude_up (fuel : nat) (p q n : Z) : Z :=
  match fuel with
  | O => n
  | S fuel' => if p <? q * 10 ^ n then n else magnitude_up fuel' p q (n + 1)
  end.

Fixpoint magnitude_down (fuel : nat) (p q j : Z) : Z :=
  match fuel with
  | O => - j
  | S fuel' =>
      if p * 10 ^ (j + 1) <? q then magnitude_down fuel' p q (j + 1) else - j
  end.

Definition magnitude (p q : Z) : Z :=
  let fuel := Z.to_nat (Z.log2 p + Z.log2 q + 2) in
  if q <=? p then magnitude_up fuel p q 1 else magnitude_down fuel p q 0.

(** [p/q · 10^(k-n)] as a fraction: the value scaled to [k] digits
    before the point. *)
Definition scaled (p q n k : Z) : Z * Z :=
  if n <=? k then (p * 10 ^ (k - n), q) else (p, q * 10 ^ (n - k)).

(** The candidate with [k] digits, if one converts back to [x]. *)
Definition candidate (x : number) (p q n k : Z) : option Z :=
  let '(num, den) := scaled p q n k in
  let lo := num / den in
  let r := num mod den in
  let lo_ok := SFeqb (ofDecimal false lo (n - k)) x in
  let hi_ok := SFeqb (ofDecimal false (lo + 1) (n - k)) x in
  match lo_ok, hi_ok with
  | true, true =>
      if 2 * r <? den then Some lo
      else if den <? 2 * r then Some (lo + 1)
      else if Z.even lo then Some lo else Some (lo + 1)
  | true, false => Some lo
  | false, true => Some (lo + 1)
  | false, false => None
  end.

Fixpoint shortest (fuel : nat) (x : number) (p q n k : Z) : Z * Z * Z :=
  match candidate x p q n k with
  | Some s => if s =? 10 ^ k then (10 ^ (k - 1), n + 1, k) else (s, n, k)
  | None =>
      match fuel with
      | O => let '(num, den) := scaled p q n k in (num / den, n, k)
      | S fuel' => shortest fuel' x p q n (k + 1)
      end
  end.

(** [(s, n, k)] for the finite positive Number [m · 2^e]. *)
Definition digits (m : positive) (e : Z) : Z * Z * Z :=
  let p := match e with Zneg _ => Zpos m | _ => Zpos m * 2 ^ e end in
  let q := match e with Zneg k => 2 ^ Zpos k | _ => 1 end in
  shortest 16 (binary_normalize prec emax (Zpos m) e false) p q (magnitude p q) 1.
End JSNumber.

(* ===================================================================== *)
(** ** JS dates: time values and the ECMAScript calendar                  *)
(* ===================================================================== *)

(** A Date object holds a time value: an integral number of milliseconds
    since 1970-01-01T00:00:00Z, or NaN ("Invalid Date"), here [None].  The
    abstract operations below are those of ECMA-262, section "Date
    Objects", under the same names. *)
Module JSDate.
Local Open Scope Z_scope.

Definition Date := option Z.

Definition msPerDay : Z := 86400000.
Definition maxTime : Z := 8640000000000000.

Definition Day (t : Z) : Z := t / msPerDay.
Definition TimeWithinDay (t : Z) : Z := t mod msPerDay.

Definition DaysInYear (y : Z) : Z :=
  if negb (y mod 4 =? 0) then 365
  else if negb (y mod 100 =? 0) then 366
  else if negb (y mod 400 =? 0) then 365
  else 366.

Definition DayFromYear (y : Z) : Z :=
  365 * (y - 1970) + (y - 1969) / 4 - (y - 1901) / 100 + (y - 1601) / 400.

Definition TimeFromYear (y : Z) : Z := msPerDay * DayFromYear y.

(** The year of a day number: the largest [y] with
    [DayFromYear y <= d], found through the 400-, 100-, 4- and 1-year
    periods counted from 1601-01-01. *)
Definition YearFromDay (d : Z) : Z :=
  let d' := d - DayFromYear 1601 in
  let n400 := d' / 146097 in
  let r400 := d' mod 146097 in
  let n100 := Z.min (r400 / 36524) 3 in
  let r100 := r400 - n100 * 36524 in
  let n4 := r100 / 1461 in
  let r4 := r100 mod 1461 in
  let n1 := Z.min (r4 / 365) 3 in
  1601 + 400 * n400 + 100 * n100 + 4 * n4 + n1.

Definition YearFromTime (t : Z) : Z := YearFromDay (Day t).

Definition InLeapYear (t : Z) : Z :=
  if DaysInYear (YearFromTime t) =? 366 then 1 else 0.

Definition DayWithinYear (t : Z) : Z :=
  Day t - DayFromYear (YearFromTime t).

Definition MonthFromTime (t : Z) : Z :=
  let d := DayWithinYear t in
  let l := InLeapYear t in
  if d <? 31 then 0
  else if d <? 59 + l then 1
  else if d <? 90 + l then 2
  else if d <? 120 + l then 3
  else if d <? 151 + l then 4
  else if d <? 181 + l then 5
  else if d <? 212 + l then 6
  else if d <? 243 + l then 7
  else if d <? 273 + l then 8
  else if d <? 304 + l then 9
  else if d <? 334 + l then 10
  else 11.

Definition DateFromTime (t : Z) : Z :=
  let d := DayWithinYear t in
  let l := InLeapYear t in
  match MonthFromTime t with
  | 0 => d + 1
  | 1 => d - 30
  | 2 => d - 58 - l
  | 3 => d - 89 - l
  | 4 => d - 119 - l
  | 5 => d - 150 - l
  | 6 => d - 180 - l
  | 7 => d - 211 - l
  | 8 => d - 242 - l
  | 9 => d - 272 - l
  | 10 => d - 303 - l
  | _ => d - 333 - l
  end.

(** Days from the start of a year to the start of month [mn]
    (0 = January), [l] being 1 in a leap year. *)
Definition monthStart (mn l : Z) : Z :=
  match mn with
  | 0 => 0
  | 1 => 31
  | 2 => 59 + l
  | 3 => 90 + l
  | 4 => 120 + l
  | 5 => 151 + l
  | 6 => 181 + l
  | 7 => 212 + l
  | 8 => 243 + l
  | 9 => 273 + l
  | 10 => 304 + l
  | _ => 334 + l
  end.

Definition leapDays (y : Z) : Z := DaysInYear y - 365.

Definition DaysInMonth (y mn : Z) : Z :=
  if mn =? 11 then 31
  else monthStart (mn + 1) (leapDays y) - monthStart mn (leapDays y).

(** MakeDay: the day number of day [dt] of month [month] of [year];
    months outside 0..11 carry into the year, days outside the month
    carry into the neighbouring months. *)
Definition MakeDay (year month dt : Z) : Z :=
  let ym := year + month / 12 in
  let mn := month mod 12 in
  DayFromYear ym + monthStart mn (leapDays ym) + dt - 1.

Definition MakeDate (day time : Z) : Z := day * msPerDay + time.

Definition TimeClip (time : Z) : Date :=
  if maxTime <? Z.abs time then None else Some time.

Section Host.
(** The host's local time zone adjustment in milliseconds:
    [LocalTZA t true] is the offset of local time at the UTC time [t],
    [LocalTZA t false] the offset with which the host reads the local
    time [t].  On a host with daylight saving the offset depends on
    [t], and a local time that a transition skips or repeats is read
    with the offset the host chooses. *)
Variable LocalTZA : Z -> bool -> Z.

Definition LocalTime (t : Z) : Z := t + LocalTZA t true.
Definition UTC (t : Z) : Z := t - LocalTZA t false.

Definition getDate (d : Date) : option Z :=
  t ← d; Some (DateFromTime (LocalTime t)).
Definition getMonth (d : Date) : option Z :=
  t ← d; Some (MonthFromTime (LocalTime t)).
Definition getFullYear (d : Date) : option Z :=
  t ← d; Some (YearFromTime (LocalTime t)).

(** The setters take the argument as computed by the caller: [None]
    is NaN. *)
Definition setDate (d : Date) (date : option Z) : Date :=
  tv ← d; dt ← date;
  let t := LocalTime tv in
  let newDate :=
    MakeDate (MakeDay (YearFromTime t) (MonthFromTime t) dt)
             (TimeWithinDay t) in
  TimeClip (UTC newDate).

Definition setMonth (d : Date) (month : option Z) : Date :=
  tv ← d; m ← month;
  let t := LocalTime tv in
  let newDate :=
    MakeDate (MakeDay (YearFromTime t) m (DateFromTime t))
             (TimeWithinDay t) in
  TimeClip (UTC newDate).

Definition setFullYear (d : Date) (year : option Z) : Date :=
  y ← year;
  let t := match d with Some tv => LocalTime tv | None => 0 end in
  let newDate :=
    MakeDate (MakeDay y (MonthFromTime t) (DateFromTime t))
             (TimeWithinDay t) in
  TimeClip (UTC newDate).
End Host.
End JSDate.

(* ===================================================================== *)
(** ** JS strings                                                         *)
(* ===================================================================== *)

(** Strings are sequences of bytes holding the UTF-8 encoding of the JS
    string.  The operations below are the String methods the actions
    call. *)
Module JSString.

Definition chr (n : nat) : ascii := ascii_of_nat n.
Definition bytes (l : list nat) : string :=
  string_of_list_ascii (map chr l).

Definition dquote : string := bytes [34].
Definition newline : string := bytes [10].

Fixpoint drop (n : nat) (s : string) : string :=
  match n, s with
  | S n', String _ s' => drop n' s'
  | _, _ => s
  end.

Definition rev (s : string) : string :=
  string_of_list_ascii (List.rev (list_ascii_of_string s)).

(** WhiteSpace and LineTerminator code points, UTF-8 encoded: TAB, LF,
    VT, FF, CR, SP, U+00A0, U+1680, U+2000..U+200A, U+2028, U+2029,
    U+202F, U+205F, U+3000, U+FEFF. *)
Definition whitespace : list string :=
  map bytes
    [ [9]; [10]; [11]; [12]; [13]; [32]; [194; 160]; [225; 154; 128];
      [226; 128; 128]; [226; 128; 129]; [226; 128; 130]; [226; 128; 131];
      [226; 128; 132]; [226; 128; 133]; [226; 128; 134]; [226; 128; 135];
      [226; 128; 136]; [226; 128; 137]; [226; 128; 138]; [226; 128; 168];
      [226; 128; 169]; [226; 128; 175]; [226; 129; 159]; [227; 128; 128];
      [239; 187; 191] ].

(** The length of the white space that starts [s], among [ws]. *)
Fixpoint leading (ws : list string) (s : string) : option nat :=
  match ws with
  | [] => None
  | w :: ws' =>
      if String.prefix w s then Some (String.length w) else leading ws' s
  end.

Fixpoint strip (fuel : nat) (ws : list string) (s : string) : string :=
  match fuel with
  | O => s
  | S fuel' =>
      match leading ws s with
      | Some n => strip fuel' ws (drop n s)
      | None => s
      end
  end.

Definition trimStart (s : string) : string :=
  strip (String.length s) whitespace s.

Definition trimEnd (s : string) : string :=
  rev (strip (String.length s) (map rev whitespace) (rev s)).

Definition trim (s : string) : string := trimEnd (trimStart s).

(** [toUpperCase].  In a text of ASCII characters the letters a-z are
    the only cased ones, and are replaced by A-Z.  The upper case of any
    other text follows the case mappings of the Unicode tables of the
    host, which may change other letters and the length of the text:
    [host] gives it. *)
Definition upper (c : ascii) : ascii :=
  let n := nat_of_ascii c in
  if (97 <=? n)%nat && (n <=? 122)%nat then ascii_of_nat (n - 32) else c.

Fixpoint upperAscii (s : string) : string :=
  match s with
  | EmptyString => EmptyString
  | String c s' => String (upper c) (upperAscii s')
  end.

Fixpoint asciiOnly (s : string) : bool :=
  match s with
  | EmptyString => true
  | String c s' => (nat_of_ascii c <? 128)%nat && asciiOnly s'
  end.

Definition toUpperCase (host : string -> string) (s : string) : string :=
  if asciiOnly s then upperAscii s else host s.

(** The length of a match of [/```(?:json)?\n?/] at the start of [s]:
    three backticks, then [json] if it follows, then a line feed if it
    follows. *)
Definition fence : string := bytes [96; 96; 96].

Definition fenceMatch (s : string) : option nat :=
  if String.prefix fence s then
    let s1 := drop 3 s in
    let n1 := if String.prefix "json" s1 then 4 else 0 in
    let s2 := drop n1 s1 in
    let n2 := if String.prefix newline s2 then 1 else 0 in
    Some (3 + n1 + n2)
  else None.

(** [s.replace(/```(?:json)?\n?/g, empty)]: every match, scanning from
    the left, is removed.  [skip] counts the characters of the current match
    still to drop. *)
Fixpoint removeFencesFrom (skip : nat) (s : string) : string :=
  match s with
  | EmptyString => EmptyString
  | String c s' =>
      match skip with
      | S k => removeFencesFrom k s'
      | O =>
          match fenceMatch s with
          | Some (S k) => removeFencesFrom k s'
          | _ => String c (removeFencesFrom 0 s')
          end
      end
  end.

Definition removeFences (s : string) : string := removeFencesFrom 0 s.

(** Decimal digits of a non-negative integer. *)
Definition decimalOfZ (z : Z) : string :=
  match z with
  | Zpos p => DecimalString.NilEmpty.string_of_uint (Pos.to_uint p)
  | _ => "0"
  end.

Fixpoint zeros (n : nat) : string :=
  match n with O => EmptyString | S n' => String "0" (zeros n') end.

Fixpoint join (sep : string) (l : list string) : string :=
  match l with
  | [] => EmptyString
  | [s] => s
  | s :: l' => s ++ sep ++ join sep l'
  end.
End JSString.

(* ===================================================================== *)
(** ** JS values and JSON                                                 *)
(* ===================================================================== *)

(** The values [JSON.parse] produces, and [undefined], which reading an
    absent property yields. *)
Module JSValue.
Import JSNumber JSString.
Local Open Scope Z_scope.

Inductive value :=
| VUndefined
| VNull
| VBool (b : bool)
| VNum (x : number)
| VStr (s : string)
| VArr (elements : list value)
| VObj (members : list (string * value)).

(** *** Numeric literals *)

Definition digitOf (c : ascii) : option Z :=
  let n := nat_of_ascii c in
  if (48 <=? n)%nat && (n <=? 57)%nat then Some (Z.of_nat n - 48) else None.

Definition hexDigitOf (c : ascii) : option Z :=
  let n := nat_of_ascii c in
  if (48 <=? n)%nat && (n <=? 57)%nat then Some (Z.of_nat n - 48)
  else if (65 <=? n)%nat && (n <=? 70)%nat then Some (Z.of_nat n - 55)
  else if (97 <=? n)%nat && (n <=? 102)%nat then Some (Z.of_nat n - 87)
  else None.

(** The longest run of decimal digits at the start of [l]: its value
    after the digits already read ([acc]), how many there are, and what
    follows. *)
Fixpoint takeDigits (acc count : Z) (l : list ascii) : Z * Z * list ascii :=
  match l with
  | c :: l' =>
      match digitOf c with
      | Some d => takeDigits (acc * 10 + d) (count + 1) l'
      | None => (acc, count, l)
      end
  | [] => (acc, count, [])
  end.

(** An ExponentPart at the start of [l], if there is one. *)
Definition takeExponent (l : list ascii) : Z * list ascii :=
  match l with
  | c :: l1 =>
      if (nat_of_ascii c =? 101)%nat || (nat_of_ascii c =? 69)%nat then
        let '(sign, l2) :=
          match l1 with
          | "+"%char :: r => (false, r)
          | "-"%char :: r => (true, r)
          | _ => (false, l1)
          end in
        let '(e, n, rest) := takeDigits 0 0 l2 in
        if n =? 0 then (0, l) else (if sign then - e else e, rest)
      else (0, l)
  | [] => (0, l)
  end.

(** The longest StrDecimalLiteral at the start of [l], as used by
    [parseFloat] and [Number]: sign, then [Infinity] or digits with an
    optional fraction and exponent. *)
Definition takeDecimalLiteral (l : list ascii) : option (number * list ascii) :=
  let '(sign, l1) :=
    match l with
    | "+"%char :: r => (false, r)
    | "-"%char :: r => (true, r)
    | _ => (false, l)
    end in
  if String.prefix "Infinity" (string_of_list_ascii l1) then
    Some (S754_infinity sign, skipn 8 l1)
  else
    let '(int, nint, l2) := takeDigits 0 0 l1 in
    let '(m, nfrac, l3) :=
      match l2 with
      | "."%char :: r =>
          let '(m, nfrac, r') := takeDigits int 0 r in
          if (nint =? 0) && (nfrac =? 0) then (int, 0, l2) else (m, nfrac, r')
      | _ => (int, 0, l2)
      end in
    if (nint =? 0) && (nfrac =? 0) then None
    else
      let '(e, l4) := takeExponent l3 in
      Some (ofDecimal sign m (e - nfrac), l4).

Fixpoint takeRadix (radix : Z) (acc count : Z) (l : list ascii) : option Z :=
  match l with
  | c :: l' =>
      match hexDigitOf c with
      | Some d => if d <? radix then takeRadix radix (acc * radix + d) (count + 1) l'
                  else None
      | None => None
      end
  | [] => if count =? 0 then None else Some acc
  end.

(** StringToNumber: the whole string, white space trimmed, must be a
    numeric literal; the empty string is 0. *)
Definition StringToNumber (s : string) : number :=
  match list_ascii_of_string (trim s) with
  | [] => zero
  | "0"%char :: c :: r =>
      let n := nat_of_ascii c in
      let radix :=
        if (n =? 120)%nat || (n =? 88)%nat then Some 16
        else if (n =? 111)%nat || (n =? 79)%nat then Some 8
        else if (n =? 98)%nat || (n =? 66)%nat then Some 2
        else None in
      match radix with
      | Some b =>
          match takeRadix b 0 0 r with
          | Some z => ofZ z
          | None => NaN
          end
      | None =>
          match takeDecimalLiteral ("0"%char :: c :: r) with
          | Some (x, []) => x
          | _ => NaN
          end
      end
  | l =>
      match takeDecimalLiteral l with
      | Some (x, []) => x
      | _ => NaN
      end
  end.

(** [parseFloat] on a string: leading white space is skipped, the
    longest prefix that is a decimal literal is converted, and NaN is
    returned when there is none. *)
Definition parseFloatString (s : string) : number :=
  match takeDecimalLiteral (list_ascii_of_string (trimStart s)) with
  | Some (x, _) => x
  | None => NaN
  end.

(** *** Number::toString *)

Definition NumberToString (x : number) : string :=
  match x with
  | S754_nan => "NaN"
  | S754_zero _ => "0"
  | S754_infinity s => (if s then "-" else EmptyString) +:+ "Infinity"
  | S754_finite sg m e =>
      let '(s, n, k) := digits m e in
      let d := decimalOfZ s in
      let body :=
        if (k <=? n) && (n <=? 21) then d +:+ zeros (Z.to_nat (n - k))
        else if (0 <? n) && (n <=? 21) then
          substring 0 (Z.to_nat n) d +:+ "." +:+ JSString.drop (Z.to_nat n) d
        else if (-6 <? n) && (n <=? 0) then
          "0." +:+ zeros (Z.to_nat (- n)) +:+ d
        else
          let ex := (if n - 1 <? 0 then "-" else "+") +:+ decimalOfZ (Z.abs (n - 1)) in
          if k =? 1 then d +:+ "e" +:+ ex
          else substring 0 1 d +:+ "." +:+ JSString.drop 1 d +:+ "e" +:+ ex in
      (if sg then "-" else EmptyString) +:+ body
  end.

(** *** Property access *)

(** The value of the last member named [key]. *)
Fixpoint lookupMember (key : string) (l : list (string * value)) : option value :=
  match l with
  | [] => None
  | (k, v) :: l' =>
      match lookupMember key l' with
      | Some v' => Some v'
      | None => if String.eqb k key then Some v else None
      end
  end.

(** [v.key] for a key that is neither an index nor a property of the
    built-in prototypes: [None] is the TypeError thrown when [v] is
    null or undefined. *)
Definition getProperty (v : value) (key : string) : option value :=
  match v with
  | VUndefined | VNull => None
  | VObj l => Some (default VUndefined (lookupMember key l))
  | _ => Some VUndefined
  end.

(** *** Coercions *)

Definition ToBoolean (v : value) : bool :=
  match v with
  | VUndefined | VNull => false
  | VBool b => b
  | VNum x => truthy x
  | VStr s => negb (String.eqb s EmptyString)
  | VArr _ | VObj _ => true
  end.

(** ToString, through ToPrimitive for an array or an object; [None] is
    the TypeError of a value that cannot be converted to a primitive.
    The members of an object that [JSON.parse] built are data
    properties, none of which can be called.  A member named [toString]
    therefore hides [Object.prototype.toString], and [valueOf], own or
    inherited, yields no primitive either: the conversion throws.
    Without such a member the object converts to [[object Object]].  An
    array converts to its elements' strings joined by commas, the empty
    string standing for null and undefined. *)
Fixpoint ToString (v : value) : option string :=
  match v with
  | VUndefined => Some "undefined"
  | VNull => Some "null"
  | VBool b => Some (if b then "true" else "false")
  | VNum x => Some (NumberToString x)
  | VStr s => Some s
  | VArr l =>
      join "," <$>
        (fix elements (l : list value) : option (list string) :=
           match l with
           | [] => Some []
           | e :: l' =>
               s ← match e with
                   | VUndefined | VNull => Some EmptyString
                   | _ => ToString e
                   end;
               r ← elements l';
               Some (s :: r)
           end) l
  | VObj members =>
      match lookupMember "toString" members with
      | Some _ => None
      | None => Some "[object Object]"
      end
  end.

(** ToNumber; [None] as for [ToString]. *)
Definition ToNumber (v : value) : option number :=
  match v with
  | VUndefined => Some NaN
  | VNull => Some zero
  | VBool b => Some (if b then ofZ 1 else zero)
  | VNum x => Some x
  | VStr s => Some (StringToNumber s)
  | VArr _ | VObj _ => StringToNumber <$> ToString v
  end.

(** [Number(v)]. *)
Definition NumberOf (v : value) : option number := ToNumber v.

(** [parseFloat(v)]. *)
Definition parseFloat (v : value) : option number :=
  parseFloatString <$> ToString v.

(** Whether ToPrimitive succeeds on [v]. *)
Fixpoint convertible (v : value) : bool :=
  match v with
  | VArr l => forallb convertible l
  | VObj members =>
      match lookupMember "toString" members with
      | Some _ => false
      | None => true
      end
  | _ => true
  end.
End JSValue.

(** [JSON.parse], after ECMA-404: a recursive-descent reader of the JSON
    grammar.  The fuel bounds the number of nested and successive calls;
    [parse] supplies more than any text can use. *)
Module JSON.
Import JSNumber JSString JSValue.
Local Open Scope Z_scope.

Definition isWhitespace (c : ascii) : bool :=
  let n := nat_of_ascii c in
  (n =? 32)%nat || (n =? 9)%nat || (n =? 10)%nat || (n =? 13)%nat.

Fixpoint skipWhitespace (l : list ascii) : list ascii :=
  match l with
  | c :: l' => if isWhitespace c then skipWhitespace l' else l
  | [] => []
  end.

(** A number: an optional minus sign; the integer part, which is 0 or
    starts with a digit 1-9; an optional fraction, a point and at least
    one digit; an optional exponent, e or E, an optional sign and at
    least one digit. *)
Definition readNumber (l : list ascii) : option (value * list ascii) :=
  let '(sign, l1) :=
    match l with
    | "-"%char :: r => (true, r)
    | _ => (false, l)
    end in
  let int :=
    match l1 with
    | "0"%char :: r => Some (0, 1, r)
    | _ => let '(m, n, r) := takeDigits 0 0 l1 in
           if n =? 0 then None else Some (m, n, r)
    end in
  match int with
  | None => None
  | Some (m, _, l2) =>
      let frac :=
        match l2 with
        | "."%char :: r =>
            let '(m', n, r') := takeDigits m 0 r in
            if n =? 0 then None else Some (m', n, r')
        | _ => Some (m, 0, l2)
        end in
      match frac with
      | None => None
      | Some (m', nfrac, l3) =>
          let ex :=
            match l3 with
            | c :: _ =>
                if (nat_of_ascii c =? 101)%nat || (nat_of_ascii c =? 69)%nat then
                  let '(e, r) := takeExponent l3 in
                  if (length r =? length l3)%nat then None else Some (e, r)
                else Some (0, l3)
            | [] => Some (0, l3)
            end in
          match ex with
          | None => None
          | Some (e, l4) => Some (VNum (ofDecimal sign m' (e - nfrac)), l4)
          end
      end
  end.

(** The UTF-8 encoding of a code point. *)
Definition utf8 (cp : Z) : list ascii :=
  let b (z : Z) := ascii_of_nat (Z.to_nat z) in
  if cp <? 128 then [b cp]
  else if cp <? 2048 then [b (192 + cp / 64); b (128 + cp mod 64)]
  else if cp <? 65536 then
    [b (224 + cp / 4096); b (128 + cp / 64 mod 64); b (128 + cp mod 64)]
  else
    [b (240 + cp / 262144); b (128 + cp / 4096 mod 64);
     b (128 + cp / 64 mod 64); b (128 + cp mod 64)].

Definition hex4 (a b c d : ascii) : option Z :=
  x ← hexDigitOf a; y ← hexDigitOf b; z ← hexDigitOf c; w ← hexDigitOf d;
  Some (((x * 16 + y) * 16 + z) * 16 + w).

(** The characters of a string after its opening quote, up to the
    closing quote.  A high surrogate escape directly followed by a low
    surrogate escape denotes one code point. *)
Fixpoint readChars (l : list ascii) (acc : list ascii) : option (string * list ascii) :=
  match l with
  | [] => None
  | c :: l1 =>
      if (nat_of_ascii c =? 34)%nat then
        Some (string_of_list_ascii (List.rev acc), l1)
      else if (nat_of_ascii c =? 92)%nat then
        match l1 with
        | e :: l2 =>
            let n := nat_of_ascii e in
            let simple (code : nat) := readChars l2 (ascii_of_nat code :: acc) in
            if (n =? 34)%nat then simple 34%nat
            else if (n =? 92)%nat then simple 92%nat
            else if (n =? 47)%nat then simple 47%nat
            else if (n =? 98)%nat then simple 8%nat
            else if (n =? 102)%nat then simple 12%nat
            else if (n =? 110)%nat then simple 10%nat
            else if (n =? 114)%nat then simple 13%nat
            else if (n =? 116)%nat then simple 9%nat
            else if (n =? 117)%nat then
              match l2 with
              | h1 :: h2 :: h3 :: h4 :: l3 =>
                  match hex4 h1 h2 h3 h4 with
                  | None => None
                  | Some hi =>
                      let single := readChars l3 (List.rev (utf8 hi) ++ acc) in
                      if (55296 <=? hi) && (hi <=? 56319) then
                        match l3 with
                        | b :: u :: g1 :: g2 :: g3 :: g4 :: l4 =>
                            if (nat_of_ascii b =? 92)%nat && (nat_of_ascii u =? 117)%nat then
                              match hex4 g1 g2 g3 g4 with
                              | Some lo =>
                                  if (56320 <=? lo) && (lo <=? 57343) then
                                    readChars l4
                                      (List.rev (utf8 (65536 + (hi - 55296) * 1024 + (lo - 56320)))
                                       ++ acc)
                                  else single
                              | None => single
                              end
                            else single
                        | _ => single
                        end
                      else single
                  end
              | _ => None
              end
            else None
        | [] => None
        end
      else if (nat_of_ascii c <? 32)%nat then None
      else readChars l1 (c :: acc)
  end.

Definition readLiteral (word : string) (v : value) (l : list ascii)
  : option (value * list ascii) :=
  if String.prefix word (string_of_list_ascii l)
  then Some (v, skipn (String.length word) l) else None.

Fixpoint readValue (fuel : nat) (l : list ascii) : option (value * list ascii) :=
  match fuel with
  | O => None
  | S fuel' =>
      match skipWhitespace l with
      | [] => None
      | c :: r =>
          let n := nat_of_ascii c in
          if (n =? 123)%nat then
            match skipWhitespace r with
            | c' :: r' =>
                if (nat_of_ascii c' =? 125)%nat then Some (VObj [], r')
                else
                  '(ms, rest) ← readMembers fuel' (skipWhitespace r);
                  Some (VObj ms, rest)
            | [] => None
            end
          else if (n =? 91)%nat then
            match skipWhitespace r with
            | c' :: r' =>
                if (nat_of_ascii c' =? 93)%nat then Some (VArr [], r')
                else
                  '(es, rest) ← readElements fuel' r;
                  Some (VArr es, rest)
            | [] => None
            end
          else if (n =? 34)%nat then
            '(s, rest) ← readChars r [];
            Some (VStr s, rest)
          else if (n =? 116)%nat then readLiteral "true" (VBool true) (c :: r)
          else if (n =? 102)%nat then readLiteral "false" (VBool false) (c :: r)
          else if (n =? 110)%nat then readLiteral "null" VNull (c :: r)
          else readNumber (c :: r)
      end
  end
with readElements (fuel : nat) (l : list ascii) : option (list value * list ascii) :=
  match fuel with
  | O => None
  | S fuel' =>
      '(v, r) ← readValue fuel' l;
      match skipWhitespace r with
      | c :: r' =>
          if (nat_of_ascii c =? 44)%nat then
            '(vs, rest) ← readElements fuel' r';
            Some (v :: vs, rest)
          else if (nat_of_ascii c =? 93)%nat then Some ([v], r')
          else None
      | [] => None
      end
  end
with readMembers (fuel : nat) (l : list ascii)
  : option (list (string * value) * list ascii) :=
  match fuel with
  | O => None
  | S fuel' =>
      match skipWhitespace l with
      | q :: r0 =>
          if (nat_of_ascii q =? 34)%nat then
            '(k, r1) ← readChars r0 [];
            match skipWhitespace r1 with
            | colon :: r2 =>
                if (nat_of_ascii colon =? 58)%nat then
                  '(v, r3) ← readValue fuel' r2;
                  match skipWhitespace r3 with
                  | c :: r4 =>
                      if (nat_of_ascii c =? 44)%nat then
                        '(ms, rest) ← readMembers fuel' r4;
                        Some ((k, v) :: ms, rest)
                      else if (nat_of_ascii c =? 125)%nat then Some ([(k, v)], r4)
                      else None
                  | [] => None
                  end
                else None
            | [] => None
            end
          else None
      | [] => None
      end
  end.

(** [JSON.parse(text)]: [None] is the SyntaxError. *)
Definition parse (text : string) : option value :=
  let l := list_ascii_of_string text in
  '(v, rest) ← readValue (2 * length l + 2) l;
  match skipWhitespace rest with
  | [] => Some v
  | _ => None
  end.
End JSON.

(** [new Date(v)] for a JSON value: a string is handed to [Date.parse],
    which the host supplies ([dateParse]); an array or an object is first
    converted to a primitive, which is a string; any other value is
    converted to a Number, truncated and clipped.  [None] is the
    TypeError of a value that cannot be converted to a primitive. *)
Definition newDate (dateParse : string -> JSDate.Date) (v : JSValue.value)
  : option JSDate.Date :=
  match v with
  | JSValue.VStr s => Some (dateParse s)
  | JSValue.VArr _ | JSValue.VObj _ => dateParse <$> JSValue.ToString v
  | _ =>
      x ← JSValue.ToNumber v;
      Some (if JSNumber.isFinite x then JSDate.TimeClip (JSNumber.truncate x)
            else None)
  end.

(** [Buffer.from(bytes).toString("base64")]. *)
Module Base64.
Definition alphabet : string :=
  "ABCDEFGHIJKLMNOPQRSTUVWXYZabcdefghijklmnopqrstuvwxyz0123456789+/".

Definition sextet (n : nat) : ascii :=
  default "="%char (String.get n alphabet).

Fixpoint encodeBytes (l : list nat) : list ascii :=
  match l with
  | [] => []
  | [a] =>
      [sextet (a / 4); sextet (a mod 4 * 16); "="%char; "="%char]
  | [a; b] =>
      [sextet (a / 4); sextet (a mod 4 * 16 + b / 16);
       sextet (b mod 16 * 4); "="%char]
  | a :: b :: c :: l' =>
      sextet (a / 4) :: sextet (a mod 4 * 16 + b / 16)
      :: sextet (b mod 16 * 4 + c / 64) :: sextet (c mod 64)
      :: encodeBytes l'
  end.

Definition encode (s : string) : string :=
  string_of_list_ascii (encodeBytes (map nat_of_ascii (list_ascii_of_string s))).
End Base64.

(* ===================================================================== *)
(** ** The persistent store                                               *)
(* ===================================================================== *)

(** A [Decimal] column value: [coefficient · 10^exponent]. *)
Module PrismaDecimal.
Import JSNumber.
Local Open Scope Z_scope.

Record decimal := { coefficient : Z; exponent : Z }.

Definition toQ (d : decimal) : Q :=
  (inject_Z (coefficient d) * Qpower 10 (exponent d))%Q.

(** [d.toNumber()]: the Number nearest to the decimal value. *)
Definition toNumber (d : decimal) : number :=
  ofDecimal (coefficient d <? 0) (Z.abs (coefficient d)) (exponent d).

(** The decimal the client stores when handed a JS Number: the value
    of the Number's shortest decimal representation.  NaN and the
    infinities are rejected.  The precision of the column is not
    modelled. *)
Definition ofNumber (x : number) : option decimal :=
  match x with
  | S754_zero _ => Some {| coefficient := 0; exponent := 0 |}
  | S754_finite sg m e =>
      let '(s, n, k) := digits m e in
      Some {| coefficient := if sg then - s else s; exponent := n - k |}
  | _ => None
  end.
End PrismaDecimal.

(** The tables hold the columns that the actions read and write. *)
Module Store.
Import JSNumber JSValue JSDate PrismaDecimal.

Record User := { user_id : string; clerkUserId : string }.

(** An account row; its [id] is the key under which the table holds it. *)
Record Account := {
  account_userId : string;
  balance : decimal;
  isDefault : bool
}.

(** The argument of [createTransaction]. *)
Record TransactionData := {
  accountId : string;
  type : string;
  amount : number;
  category : value;
  description : value;
  date : Date;
  isRecurring : bool;
  recurringInterval : option string
}.

(** A transaction row: the fields of the data, the owner and the
    derived date ([None] is null). *)
Record Transaction := {
  tx_accountId : string;
  tx_userId : string;
  tx_type : string;
  tx_amount : decimal;
  tx_category : value;
  tx_description : value;
  tx_date : Date;
  tx_isRecurring : bool;
  tx_recurringInterval : option string;
  tx_nextRecurringDate : option Date
}.

Record db := {
  users : list User;
  accounts : gmap string Account;
  transactions : list Transaction
}.

Definition setBalance (a : Account) (b : decimal) : Account :=
  {| account_userId := account_userId a; balance := b; isDefault := isDefault a |}.

Definition withAccounts (s : db) (m : gmap string Account) : db :=
  {| users := users s; accounts := m; transactions := transactions s |}.

Definition withTransactions (s : db) (l : list Transaction) : db :=
  {| users := users s; accounts := accounts s; transactions := l |}.

(** [db.user.findUnique({ where: { clerkUserId } })]. *)
Definition findUser (s : db) (clerk : string) : option User :=
  find (fun u => String.eqb (clerkUserId u) clerk) (users s).

(** [db.account.findUnique({ where: { id, userId } })]. *)
Definition findAccount (s : db) (id uid : string) : option Account :=
  match accounts s !! id with
  | Some a => if String.eqb (account_userId a) uid then Some a else None
  | None => None
  end.

(** [db.account.findFirst({ where: { userId, isDefault: true } })]: the
    first match in the table's enumeration order. *)
Definition findDefaultAccount (s : db) (uid : string) : option (string * Account) :=
  find (fun '(_, a) => String.eqb (account_userId a) uid && isDefault a)
       (map_to_list (accounts s)).
End Store.

(* ===================================================================== *)
(** ** Effects: external collaborators, the world, and processes          *)
(* ===================================================================== *)

Module Effects.
Import JSNumber JSValue JSDate PrismaDecimal Store.

(** How a JS call ends: with a value, or by throwing an [Error] with
    the given message. *)
Inductive completion (A : Type) : Type :=
| Normal (a : A)
| Throw (message : string).
Arguments Normal {A} a.
Arguments Throw {A} message.

(** The admission-control decision. *)
Inductive Reason :=
| RateLimit (remaining reset : Z)
| OtherReason.

Record Decision := { isDenied : bool; reason : Reason }.

(** The request sent to the generative model. *)
Record GenerateRequest := {
  model : string;
  inlineData : option (string * string);
  promptText : string
}.

Inductive dbOp :=
| OpFindUser | OpFindAccount | OpFindFirstAccount
| OpBegin | OpCreate | OpUpdate | OpCommit.

(** What the outside of the actions answers.  [dbFault] and
    [revalidateFault] say which calls to the store and to the cache
    fail for a reason of their own (connection lost, constraint
    violated), and with which message.  [LocalTZA], [dateParse] and
    [upperCase] are the host's time zone rules, its [Date.parse] and its
    Unicode upper-casing of texts that are not plain ASCII. *)
Record env := {
  auth : completion (option string);
  request : completion unit;
  protect : string -> completion Decision;
  dbFault : dbOp -> option string;
  revalidateFault : string -> option string;
  generateContent : GenerateRequest -> completion (option string);
  now : Z;
  LocalTZA : Z -> bool -> Z;
  dateParse : string -> Date;
  upperCase : string -> string
}.

Inductive event :=
| EvAuth
| EvRequest
| EvProtect (userId : string)
| EvLogRateLimit (code : string) (remaining resetInSeconds : Z)
| EvLogError (label message : string)
| EvFindUser (clerk : string)
| EvFindAccount (id uid : string)
| EvFindFirstAccount (uid : string)
| EvBegin
| EvCreate (row : Transaction)
| EvUpdate (id : string) (newBalance : number)
| EvCommit
| EvRollback
| EvRevalidate (path : string)
| EvArrayBuffer
| EvGenerate (req : GenerateRequest).

(** The events that reach the persistence layer. *)
Definition isDataAccess (ev : event) : bool :=
  match ev with
  | EvFindUser _ | EvFindAccount _ _ | EvFindFirstAccount _
  | EvBegin | EvCreate _ | EvUpdate _ _ | EvCommit | EvRollback => true
  | _ => false
  end.

Record world := { store : db; trace : list event }.

Definition log (ev : event) (w : world) : world :=
  {| store := store w; trace := trace w ++ [ev] |}.

Definition setStore (s : db) (w : world) : world :=
  {| store := s; trace := trace w |}.

(** A process: a sequence of atomic steps on the world, one for each
    awaited call, ending in a result. *)
Inductive proc (A : Type) : Type :=
| Ret (a : A)
| Await {X : Type} (step : world -> X * world) (k : X -> proc A).
Arguments Ret {A} a.
Arguments Await {A X} step k.

Fixpoint bind {A B} (p : proc A) (f : A -> proc B) : proc B :=
  match p with
  | Ret a => f a
  | Await step k => Await step (fun x => bind (k x) f)
  end.

(** Running a process alone, to its end. *)
Fixpoint run {A} (p : proc A) (w : world) : A * world :=
  match p with
  | Ret a => (a, w)
  | Await step k => let '(x, w') := step w in run (k x) w'
  end.

(** An action: a process that returns or throws. *)
Definition act (A : Type) : Type := proc (completion A).

Definition ret {A} (a : A) : act A := Ret (Normal a).
Definition throw {A} (message : string) : act A := Ret (Throw message).

Definition bindE {A B} (p : act A) (f : A -> act B) : act B :=
  bind p (fun c => match c with
                   | Normal a => f a
                   | Throw m => Ret (Throw m)
                   end).

#[global] Instance act_bind : MBind act := fun A B f p => bindE p f.
#[global] Instance act_ret : MRet act := fun A a => ret a.

(** [try { p } catch (error) { h(error.message) }]. *)
Definition tryCatch {A} (p : act A) (h : string -> act A) : act A :=
  bind p (fun c => match c with
                   | Normal a => Ret (Normal a)
                   | Throw m => h m
                   end).

(** An awaited call to a collaborator whose answer the environment
    fixes. *)
Definition external {A} (ev : event) (answer : completion A) : act A :=
  Await (fun w => (answer, log ev w)) Ret.

Definition effect (ev : event) : act unit :=
  Await (fun w => (Normal tt, log ev w)) Ret.

(** *** The store's operations *)

Definition guarded {A} (e : env) (op : dbOp) (ev : event)
    (f : world -> completion A * world) : act A :=
  Await (fun w =>
           match dbFault e op with
           | Some m => (Throw m, log ev w)
           | None => f (log ev w)
           end) Ret.

Definition dbFindUser (e : env) (clerk : string) : act (option User) :=
  guarded e OpFindUser (EvFindUser clerk)
    (fun w => (Normal (findUser (store w) clerk), w)).

Definition dbFindAccount (e : env) (id uid : string) : act (option Account) :=
  guarded e OpFindAccount (EvFindAccount id uid)
    (fun w => (Normal (findAccount (store w) id uid), w)).

Definition dbFindFirstDefault (e : env) (uid : string)
  : act (option (string * Account)) :=
  guarded e OpFindFirstAccount (EvFindFirstAccount uid)
    (fun w => (Normal (findDefaultAccount (store w) uid), w)).

(** The message of the client's validation error; its text is the
    client library's. *)
Definition validationError : string := "Invalid value provided".
Definition recordNotFound : string := "Record to update not found.".

(** [tx.transaction.create({ data })]: the amount must be storable. *)
Definition txCreate (e : env) (uid : string) (data : TransactionData)
    (next : option Date) : act Transaction :=
  match ofNumber (amount data) with
  | None => throw validationError
  | Some amt =>
      let row := {|
        tx_accountId := accountId data;
        tx_userId := uid;
        tx_type := type data;
        tx_amount := amt;
        tx_category := category data;
        tx_description := description data;
        tx_date := date data;
        tx_isRecurring := isRecurring data;
        tx_recurringInterval := recurringInterval data;
        tx_nextRecurringDate := next |} in
      guarded e OpCreate (EvCreate row)
        (fun w => (Normal row,
                   setStore (withTransactions (store w)
                               (transactions (store w) ++ [row])) w))
  end.

(** [tx.account.update({ where: { id }, data: { balance } })]. *)
Definition txUpdate (e : env) (id : string) (newBalance : number) : act unit :=
  match ofNumber newBalance with
  | None => throw validationError
  | Some b =>
      guarded e OpUpdate (EvUpdate id newBalance)
        (fun w =>
           match accounts (store w) !! id with
           | None => (Throw recordNotFound, w)
           | Some a =>
               (Normal tt,
                setStore (withAccounts (store w)
                            (<[id := setBalance a b]> (accounts (store w)))) w)
           end)
  end.

(** [db.$transaction(callback)]: one atomic unit of work.  The
    callback's writes are kept when it returns and the commit succeeds,
    and undone when it throws or the commit fails; the error is thrown
    on to the caller. *)
Definition dbTransaction {A} (e : env) (callback : act A) : act A :=
  Await (fun w =>
           match dbFault e OpBegin with
           | Some m => (Throw m, log EvBegin w)
           | None =>
               let '(c, w') := run callback (log EvBegin w) in
               match c with
               | Normal a =>
                   match dbFault e OpCommit with
                   | Some m => (Throw m, log EvRollback (setStore (store w) w'))
                   | None => (Normal a, log EvCommit w')
                   end
               | Throw m => (Throw m, log EvRollback (setStore (store w) w'))
               end
           end) Ret.

Definition revalidatePath (e : env) (path : string) : act unit :=
  Await (fun w =>
           match revalidateFault e path with
           | Some m => (Throw m, log (EvRevalidate path) w)
           | None => (Normal tt, log (EvRevalidate path) w)
           end) Ret.
End Effects.

(* ===================================================================== *)
(** ** The server actions                                                 *)
(* ===================================================================== *)

Module Actions.
Import JSNumber JSString JSValue JSDate PrismaDecimal Store Effects.

(** [{ ...obj, amount: obj.amount.toNumber() }]. *)
Record Serialized := { row : Transaction; amountNumber : number }.

Definition serializeAmount (obj : Transaction) : Serialized :=
  {| row := obj; amountNumber := toNumber (tx_amount obj) |}.

(** The result object of an action: [{ success: true, data }] or
    [{ success: false, error }]. *)
Inductive ActionResult :=
| Success (data : Serialized)
| Failure (error : string).

(** ToBoolean on an optional string: null, undefined and the empty
    string are falsy. *)
Definition truthyString (o : option string) : option string :=
  match o with
  | Some s => if String.eqb s EmptyString then None else Some s
  | None => None
  end.

(** [calculateNextRecurringDate(startDate, interval)]. *)
Definition calculateNextRecurringDate (tza : Z -> bool -> Z) (startDate : Date)
    (interval : string) : Date :=
  let date := startDate in
  if String.eqb interval "DAILY" then
    setDate tza date (Z.add 1 <$> getDate tza date)
  else if String.eqb interval "WEEKLY" then
    setDate tza date (Z.add 7 <$> getDate tza date)
  else if String.eqb interval "MONTHLY" then
    setMonth tza date (Z.add 1 <$> getMonth tza date)
  else if String.eqb interval "YEARLY" then
    setFullYear tza date (Z.add 1 <$> getFullYear tza date)
  else date.

Definition rateLimitMessage : string :=
  "Too many requests. Please try again later.".

(** The [try] block of [createTransaction]. *)
Definition createTransactionBody (e : env) (data : TransactionData)
  : act ActionResult :=
  userId ← external EvAuth (auth e);
  match truthyString userId with
  | None => throw "Unauthorized"
  | Some userId =>
      _ ← external EvRequest (request e);
      decision ← external (EvProtect userId) (protect e userId);
      _ ← (if isDenied decision then
             match reason decision with
             | RateLimit remaining reset =>
                 _ ← effect (EvLogRateLimit "RATE_LIMIT_EXCEEDED" remaining reset);
                 throw rateLimitMessage
             | OtherReason => throw "Request blocked"
             end
           else ret tt);
      user ← dbFindUser e userId;
      match user with
      | None => throw "User not found"
      | Some user =>
          account ← dbFindAccount e (accountId data) (user_id user);
          match account with
          | None => throw "Account not found"
          | Some account =>
              let balanceChange :=
                if String.eqb (type data) "EXPENSE"
                then neg (amount data) else amount data in
              let newBalance := add (toNumber (balance account)) balanceChange in
              transaction ←
                dbTransaction e
                  (newTransaction ←
                     txCreate e (user_id user) data
                       (if isRecurring data
                        then match truthyString (recurringInterval data) with
                             | Some interval =>
                                 Some (calculateNextRecurringDate (LocalTZA e)
                                         (date data) interval)
                             | None => None
                             end
                        else None);
                   _ ← txUpdate e (accountId data) newBalance;
                   ret newTransaction);
              _ ← revalidatePath e "/dashboard";
              _ ← revalidatePath e ("/account/" +:+ tx_accountId transaction);
              ret (Success (serializeAmount transaction))
          end
      end
  end.

Definition createTransaction (e : env) (data : TransactionData)
  : act ActionResult :=
  tryCatch (createTransactionBody e data) (fun message => ret (Failure message)).

(** *** Receipt extraction *)

(** The uploaded file: what reading it yields, and its media type. *)
Record File := { arrayBuffer : completion string; fileType : string }.

Record Receipt := {
  receipt_amount : number;
  receipt_date : Date;
  receipt_description : value;
  receipt_category : value;
  receipt_merchantName : value
}.

Definition quoted (s : string) : string := dquote +:+ s +:+ dquote.

Definition receiptPrompt : string :=
  "
      Analyze this receipt image and extract the following information in JSON format:
      - Total amount (just the number)
      - Date (in ISO format)
      - Description or items purchased (brief summary)
      - Merchant/store name
      - Suggested category (one of: housing, transportation, groceries, utilities, entertainment, food, shopping, healthcare, education, personal, travel, insurance, gifts, bills, other-expense)

      Only respond with valid JSON in this exact format:
      {
        " +:+
  quoted "amount" +:+ ": number,
        " +:+
  quoted "date" +:+ ": " +:+ quoted "ISO date string" +:+ ",
        " +:+
  quoted "description" +:+ ": " +:+ quoted "string" +:+ ",
        " +:+
  quoted "merchantName" +:+ ": " +:+ quoted "string" +:+ ",
        " +:+
  quoted "category" +:+ ": " +:+ quoted "string" +:+ "
      }

      If it's not a receipt, return an empty object.
    ".

(** The messages of the engine's TypeError and SyntaxError. *)
Definition cannotRead (what key : string) : string :=
  "Cannot read properties of " +:+ what +:+ " (reading '" +:+ key +:+ "')".
Definition notAFunction (what : string) : string :=
  what +:+ " is not a function".
Definition syntaxError : string := "Unexpected token in JSON".

Definition lift {A} (c : completion A) : act A := Ret c.

(** [text.replace(/```(?:json)?\n?/g, empty).trim()]; [text] may be
    undefined. *)
Definition cleanText (text : option string) : completion string :=
  match text with
  | Some t => Normal (trim (removeFences t))
  | None => Throw (cannotRead "undefined" "replace")
  end.

Definition parseJSON (text : string) : completion value :=
  match JSON.parse text with
  | Some v => Normal v
  | None => Throw syntaxError
  end.

(** [data.key], which throws on null and undefined. *)
Definition read (data : value) (key : string) : completion value :=
  match getProperty data key with
  | Some v => Normal v
  | None =>
      Throw (cannotRead (match data with VNull => "null" | _ => "undefined" end)
               key)
  end.

(** The message of the TypeError of a conversion to a primitive. *)
Definition cannotConvert : string := "Cannot convert object to primitive value".

(** Lines 124-130, in the order of evaluation: each field is read and
    converted before the next one is read. *)
Definition receiptOf (e : env) (data : value) : completion Receipt :=
  match read data "amount" with
  | Throw m => Throw m
  | Normal amount =>
      match parseFloat amount with
      | None => Throw cannotConvert
      | Some amount' =>
          match read data "date" with
          | Throw m => Throw m
          | Normal date =>
              match newDate (dateParse e) date with
              | None => Throw cannotConvert
              | Some date' =>
                  match read data "description", read data "category",
                        read data "merchantName" with
                  | Normal description, Normal category, Normal merchantName =>
                      Normal {| receipt_amount := amount';
                                receipt_date := date';
                                receipt_description := description;
                                receipt_category := category;
                                receipt_merchantName := merchantName |}
                  | Throw m, _, _ => Throw m
                  | _, Throw m, _ => Throw m
                  | _, _, Throw m => Throw m
                  end
              end
          end
      end
  end.

Definition geminiModel : string := "gemini-2.0-flash".

(** The [try] block of [scanReceipt]. *)
Definition scanReceiptBody (e : env) (file : File) : act Receipt :=
  buffer ← external EvArrayBuffer (arrayBuffer file);
  let base64String := Base64.encode buffer in
  let contents := {| model := geminiModel;
                     inlineData := Some (base64String, fileType file);
                     promptText := receiptPrompt |} in
  text ← external (EvGenerate contents) (generateContent e contents);
  cleanedText ← lift (cleanText text);
  data ← lift (parseJSON cleanedText);
  lift (receiptOf e data).

Definition scanReceipt (e : env) (file : File) : act Receipt :=
  tryCatch (scanReceiptBody e file)
    (fun message =>
       _ ← effect (EvLogError "Error scanning receipt:" message);
       throw "Failed to scan receipt").

(** *** Prompt extraction *)

Definition aiPrompt (prompt : string) : string :=
  "
      Analyze the following user input and extract the transaction details in JSON format:
      - Type: INCOME or EXPENSE
      - Amount (number only)
      - Date (ISO format, use today if not specified)
      - Description (short summary)
      - Category (one of: housing, transportation, groceries, utilities, entertainment, food, shopping, healthcare, education, personal, travel, insurance, gifts, bills, other-expense, salary, other-income)

      Only respond with valid JSON in this exact format:
      {
        " +:+
  quoted "type" +:+ ": " +:+ quoted "INCOME" +:+ " | " +:+ quoted "EXPENSE" +:+ ",
        " +:+
  quoted "amount" +:+ ": number,
        " +:+
  quoted "date" +:+ ": " +:+ quoted "ISO date string" +:+ ",
        " +:+
  quoted "description" +:+ ": " +:+ quoted "string" +:+ ",
        " +:+
  quoted "category" +:+ ": " +:+ quoted "string" +:+ "
      }

      User input: " +:+ quoted prompt +:+
  "
    ".

(** Lines 185-197: the validation of the extracted fields and the
    transaction data built from them, for the default account
    [defaultAccountId].  The fields of the data are evaluated in the
    order in which they are written: type, amount, date. *)
Definition transactionDataOf (e : env) (defaultAccountId : string)
    (data : value) : completion TransactionData :=
  match read data "amount" with
  | Throw m => Throw m
  | Normal amount' =>
      let type' := default VUndefined (getProperty data "type") in
      let category' := default VUndefined (getProperty data "category") in
      let description' := default VUndefined (getProperty data "description") in
      let date' := default VUndefined (getProperty data "date") in
      if negb (ToBoolean amount') || negb (ToBoolean type')
         || negb (ToBoolean category')
      then Throw "Incomplete transaction details extracted"
      else
        match type' with
        | VStr t =>
            match NumberOf amount' with
            | None => Throw cannotConvert
            | Some amount'' =>
                match (if ToBoolean date' then newDate (dateParse e) date'
                       else Some (TimeClip (now e))) with
                | None => Throw cannotConvert
                | Some date'' =>
                    Normal {|
                      accountId := defaultAccountId;
                      type := toUpperCase (upperCase e) t;
                      amount := amount'';
                      category := category';
                      description :=
                        if ToBoolean description' then description'
                        else category';
                      date := date'';
                      isRecurring := false;
                      recurringInterval := None |}
                end
            end
        | _ => Throw (notAFunction "data.type.toUpperCase")
        end
  end.

Definition parsePromptJSON (text : string) : completion value :=
  match parseJSON text with
  | Normal v => Normal v
  | Throw _ => Throw "Could not parse transaction details from prompt"
  end.

(** The [try] block of [createTransactionFromPrompt]. *)
Definition createTransactionFromPromptBody (e : env) (prompt : string)
  : act ActionResult :=
  userId ← external EvAuth (auth e);
  match truthyString userId with
  | None => throw "Unauthorized"
  | Some userId =>
      user ← dbFindUser e userId;
      match user with
      | None => throw "User not found"
      | Some user =>
          defaultAccount ← dbFindFirstDefault e (user_id user);
          match defaultAccount with
          | None => throw "No default account found"
          | Some (defaultAccountId, _) =>
              let contents := {| model := geminiModel;
                                 inlineData := None;
                                 promptText := aiPrompt prompt |} in
              text ← external (EvGenerate contents) (generateContent e contents);
              cleanedText ← lift (cleanText text);
              data ← lift (parsePromptJSON cleanedText);
              transactionData ← lift (transactionDataOf e defaultAccountId data);
              createTransaction e transactionData
          end
      end
  end.

Definition createTransactionFromPrompt (e : env) (prompt : string)
  : act ActionResult :=
  tryCatch (createTransactionFromPromptBody e prompt)
    (fun message => ret (Failure message)).
End Actions.

(* ===================================================================== *)
(** ** Concurrent calls                                                   *)
(* ===================================================================== *)

(** Several calls in flight share the world.  Each runs its own process;
    the runtime resumes one of them at a time, for one awaited step. *)
Module Concurrent.
Import Effects.

Definition pool (A : Type) : Type := list (proc A).

Inductive step {A} : pool A * world -> pool A * world -> Prop :=
| step_call (ts : pool A) (w : world) (i : nat) (X : Type)
    (st : world -> X * world) (k : X -> proc A) (x : X) (w' : world) :
    ts !! i = Some (Await st k) ->
    st w = (x, w') ->
    step (ts, w) (<[i := k x]> ts, w').

Inductive steps {A} : pool A * world -> pool A * world -> Prop :=
| steps_refl c : steps c c
| steps_cons c1 c2 c3 : step c1 c2 -> steps c2 c3 -> steps c1 c3.

(** Resuming call [i] for one step. *)
Definition resume {A} (i : nat) (c : pool A * world) : option (pool A * world) :=
  match c.1 !! i with
  | Some (Await st k) =>
      let '(x, w') := st c.2 in Some (<[i := k x]> c.1, w')
  | _ => None
  end.

(** Resuming the calls in the order of [schedule]. *)
Fixpoint runSchedule {A} (schedule : list nat) (c : pool A * world)
  : option (pool A * world) :=
  match schedule with
  | [] => Some c
  | i :: rest =>
      match resume i c with
      | Some c' => runSchedule rest c'
      | None => None
      end
  end.

End Concurrent.

(* ===================================================================== *)
(** ** Specification devices                                              *)
(* ===================================================================== *)

Module Logic.
Import Effects.

(** [wp p Q w]: running [p] alone from [w] ends in a result and a world
    that satisfy [Q]. *)
Definition wp {A} (p : proc A) (Q : A -> world -> Prop) (w : world) : Prop :=
  Q (run p w).1 (run p w).2.

(** The result and the final world of running [p] alone from [w]. *)
Definition result {A} (p : proc A) (w : world) : A := (run p w).1.
Definition final {A} (p : proc A) (w : world) : world := (run p w).2.

(** The events of [w'] that [w] does not have yet. *)
Definition newEvents (w w' : world) : list event :=
  drop (length (trace w)) (trace w').

(** The claim of exact balances, in the words of the specification: a
    successful call leaves the balance at the old balance plus the amount
    (minus it for an expense), as decimals, and creates one row. *)
Definition signedAmount (data : Store.TransactionData) : Q :=
  if String.eqb (Store.type data) "EXPENSE"
  then Qopp (JSNumber.toQ (Store.amount data))
  else JSNumber.toQ (Store.amount data).

Definition exactBalanceClaim (e : env) (data : Store.TransactionData)
    (w : world) : Prop :=
  let p := Actions.createTransaction e data in
  forall s, result p w = Normal (Actions.Success s) ->
  exists before after,
    Store.accounts (store w) !! Store.accountId data = Some before /\
    Store.accounts (store (final p w)) !! Store.accountId data = Some after /\
    (PrismaDecimal.toQ (Store.balance after) ==
     PrismaDecimal.toQ (Store.balance before) + signedAmount data)%Q /\
    Store.transactions (store (final p w)) =
    Store.transactions (store w) ++ [Actions.row s].

(** The calendar date of a local time: year, month (0 = January) and
    day of the month. *)
Definition civil (t : Z) : Z * Z * Z :=
  (JSDate.YearFromTime t, JSDate.MonthFromTime t, JSDate.DateFromTime t).

(** The month after month [m] of year [y]. *)
Definition monthAfter (y m : Z) : Z * Z :=
  if (m =? 11)%Z then ((y + 1)%Z, 0%Z) else (y, (m + 1)%Z).

(** The month-overflow rule: day [d] of a month that has fewer days is
    the day that many days after the month's last, in the month after. *)
Definition overflow (y m d : Z) : Z * Z * Z :=
  if (d <=? JSDate.DaysInMonth y m)%Z then (y, m, d)
  else let '(y', m') := monthAfter y m in
       (y', m', (d - JSDate.DaysInMonth y m)%Z).

(** A field is absent from the parsed object when reading it yields
    [undefined]. *)
Definition absent (data : JSValue.value) (key : string) : Prop :=
  JSValue.getProperty data key = Some JSValue.VUndefined.

Definition incompleteMessage : string :=
  "Incomplete transaction details extracted".

(** The claim on incomplete extractions, in the words of the
    specification: the validation fails exactly when one of the three
    fields is absent. *)
Definition presenceClaim (e : env) (id : string) (data : JSValue.value) : Prop :=
  Actions.transactionDataOf e id data = Throw incompleteMessage <->
  absent data "amount" \/ absent data "type" \/ absent data "category".

(** The field [key] of [data], [undefined] when there is none. *)
Definition field (data : JSValue.value) (key : string) : JSValue.value :=
  default JSValue.VUndefined (JSValue.getProperty data key).

(** The receipt read from a parsed value, field by field; there is none
    when the amount or the date cannot be converted to a primitive. *)
Definition receiptFields (e : env) (data : JSValue.value)
  : option Actions.Receipt :=
  amount ← JSValue.parseFloat (field data "amount");
  date ← newDate (dateParse e) (field data "date");
  Some {| Actions.receipt_amount := amount;
          Actions.receipt_date := date;
          Actions.receipt_description := field data "description";
          Actions.receipt_category := field data "category";
          Actions.receipt_merchantName := field data "merchantName" |}.

(** The transaction data built from a parsed value whose type is the
    text [t]; there is none when the amount or the date cannot be
    converted to a primitive. *)
Definition promptFields (e : env) (id : string) (data : JSValue.value)
    (t : string) : option Store.TransactionData :=
  amount ← JSValue.NumberOf (field data "amount");
  date ← (if JSValue.ToBoolean (field data "date")
          then newDate (dateParse e) (field data "date")
          else Some (JSDate.TimeClip (now e)));
  Some {| Store.accountId := id;
          Store.type := JSString.toUpperCase (upperCase e) t;
          Store.amount := amount;
          Store.category := field data "category";
          Store.description :=
            if JSValue.ToBoolean (field data "description")
            then field data "description" else field data "category";
          Store.date := date;
          Store.isRecurring := false;
          Store.recurringInterval := None |}.

(** The request [scanReceipt] sends for a file with the given bytes. *)
Definition receiptRequest (file : Actions.File) (buffer : string) : GenerateRequest :=
  {| model := Actions.geminiModel;
     inlineData := Some (Base64.encode buffer, Actions.fileType file);
     promptText := Actions.receiptPrompt |}.

Definition scanFailed : string := "Failed to scan receipt".

(** Reading with fuel [f] is stable: what it reads, it reads with any
    fuel that is at least twice the number of characters consumed. *)
Definition stableValue (f : nat) : Prop :=
  forall l v r, JSON.readValue f l = Some (v, r) ->
    (length r < length l)%nat /\
    forall f', (2 * (length l - length r) - 1 <= f')%nat -> JSON.readValue f' l = Some (v, r).

Definition stableElements (f : nat) : Prop :=
  forall l vs r, JSON.readElements f l = Some (vs, r) ->
    (length r < length l)%nat /\
    forall f', (2 * (length l - length r) <= f')%nat -> JSON.readElements f' l = Some (vs, r).

Definition stableMembers (f : nat) : Prop :=
  forall l ms r, JSON.readMembers f l = Some (ms, r) ->
    (length r < length l)%nat /\
    forall f', (2 * (length l - length r) <= f')%nat -> JSON.readMembers f' l = Some (ms, r).

(** No data access before the first admission check. *)
Fixpoint admissionFirst (checked : bool) (evs : list event) : bool :=
  match evs with
  | [] => true
  | EvProtect _ :: rest => admissionFirst true rest
  | ev :: rest => (checked || negb (isDataAccess ev)) && admissionFirst checked rest
  end.
End Logic.

(* ===================================================================== *)
(** ** Concrete worlds                                                    *)
(* ===================================================================== *)

(** A store with one user and one account, and an environment in which
    every collaborator answers normally: the caller is that user and is
    admitted. *)
Module Examples.
Import JSNumber JSValue JSDate PrismaDecimal Store Effects Actions.
Local Open Scope Z_scope.

Definition alice : User := {| user_id := "user-1"; clerkUserId := "clerk-alice" |}.

Definition accountWith (b : decimal) : Account :=
  {| account_userId := "user-1"; balance := b; isDefault := true |}.

Definition storeWith (b : decimal) : db :=
  {| users := [alice];
     accounts := {[ "acc-1" := accountWith b ]};
     transactions := [] |}.

Definition worldWith (b : decimal) : world :=
  {| store := storeWith b; trace := [] |}.

Definition allowed : Decision := {| isDenied := false; reason := OtherReason |}.
Definition rateLimited : Decision :=
  {| isDenied := true; reason := RateLimit 0 42 |}.

(** The environment in which the model answers [answer] and the
    admission control decides [decision]. *)
Definition envWith (decision : Decision) (answer : completion (option string)) : env :=
  {| auth := Normal (Some "clerk-alice");
     request := Normal tt;
     protect := fun _ => Normal decision;
     dbFault := fun _ => None;
     revalidateFault := fun _ => None;
     generateContent := fun _ => answer;
     now := 1700000000000;
     LocalTZA := fun _ _ => 0;
     dateParse := fun _ => None;
     upperCase := fun s => s |}.

Definition quiet : env := envWith allowed (Throw "unavailable").

Definition dataWith (ty : string) (amt : number) : TransactionData :=
  {| accountId := "acc-1";
     type := ty;
     amount := amt;
     category := VStr "food";
     description := VStr "lunch";
     date := Some 1706659200000;
     isRecurring := false;
     recurringInterval := None |}.

Definition dec (coef ex : Z) : decimal := {| coefficient := coef; exponent := ex |}.

(** The text of a JSON object whose members have the given names and
    value texts. *)
Definition jsonObject (members : list (string * string)) : string :=
  "{" +:+ JSString.join ", "
            (map (fun '(k, v) => quoted k +:+ ": " +:+ v) members) +:+ "}".

(** The environment in which the model answers with [text]. *)
Definition answering (text : string) : env :=
  envWith allowed (Normal (Some text)).

(** The balance of account [acc-1]. *)
Definition balanceOf (w : world) : option decimal :=
  balance <$> accounts (store w) !! "acc-1".

(** Environments that differ from [e] in one answer. *)
Definition withAuth (a : completion (option string)) (e : env) : env :=
  {| auth := a; request := request e; protect := protect e;
     dbFault := dbFault e; revalidateFault := revalidateFault e;
     generateContent := generateContent e; now := now e;
     LocalTZA := LocalTZA e; dateParse := dateParse e;
     upperCase := upperCase e |}.

Definition withProtect (p : completion Decision) (e : env) : env :=
  {| auth := auth e; request := request e; protect := fun _ => p;
     dbFault := dbFault e; revalidateFault := revalidateFault e;
     generateContent := generateContent e; now := now e;
     LocalTZA := LocalTZA e; dateParse := dateParse e;
     upperCase := upperCase e |}.

Definition withRevalidateFault (f : string -> option string) (e : env) : env :=
  {| auth := auth e; request := request e; protect := protect e;
     dbFault := dbFault e; revalidateFault := f;
     generateContent := generateContent e; now := now e;
     LocalTZA := LocalTZA e; dateParse := dateParse e;
     upperCase := upperCase e |}.

(** An answer of the model to the prompt [Spent 500 on lunch], the
    value it parses to and the transaction data built from it. *)
Definition lunchText : string :=
  jsonObject [("type", quoted "expense"); ("amount", "500");
              ("category", quoted "food")].

Definition lunchData : value :=
  VObj [("type", VStr "expense"); ("amount", VNum (ofZ 500));
        ("category", VStr "food")].

Definition lunch : TransactionData :=
  {| accountId := "acc-1"; type := "EXPENSE"; amount := ofZ 500;
     category := VStr "food"; description := VStr "food";
     date := Some 1700000000000; isRecurring := false;
     recurringInterval := None |}.

(** A host on the time of New York in March 2024: five hours behind
    UTC until 2024-03-10T07:00Z and four hours from then on; the local
    hour from 02:00 to 03:00 of that day, which the clocks skip, is read
    with the earlier offset. *)
Definition newYork (t : Z) (isUTC : bool) : Z :=
  if isUTC
  then (if t <? 1710054000000 then -18000000 else -14400000)
  else (if t <? 1710039600000 then -18000000 else -14400000).

(** A store in which the account [acc-1] is not a default account. *)
Definition storeWithoutDefault (b : decimal) : db :=
  {| users := [alice];
     accounts := {[ "acc-1" := {| account_userId := "user-1"; balance := b;
                                  isDefault := false |} ]};
     transactions := [] |}.
End Examples.

(* ===================================================================== *)
(** ** Stores, rows and sequences of calls                                *)
(* ===================================================================== *)

Module Invariants.
Import JSNumber JSString JSValue JSDate PrismaDecimal Store Effects Actions Logic.

(** Line 47: the signed amount added to the balance. *)
Definition balanceChange (data : TransactionData) : number :=
  if String.eqb (type data) "EXPENSE" then neg (amount data) else amount data.

(** Lines 55-58: the next recurring date stored with the row. *)
Definition nextRecurringDateOf (e : env) (data : TransactionData)
  : option Date :=
  if isRecurring data
  then match truthyString (recurringInterval data) with
       | Some interval =>
           Some (calculateNextRecurringDate (LocalTZA e) (date data) interval)
       | None => None
       end
  else None.

(** Lines 52-59: the row created for [data] on behalf of user [uid],
    the amount stored as [amt]. *)
Definition rowOf (e : env) (uid : string) (data : TransactionData)
    (amt : decimal) : Transaction :=
  {| tx_accountId := accountId data;
     tx_userId := uid;
     tx_type := type data;
     tx_amount := amt;
     tx_category := category data;
     tx_description := description data;
     tx_date := date data;
     tx_isRecurring := isRecurring data;
     tx_recurringInterval := recurringInterval data;
     tx_nextRecurringDate := nextRecurringDateOf e data |}.

(** The store after both writes of the unit of work. *)
Definition committed (s : db) (id : string) (acc : Account) (b : decimal)
    (row : Transaction) : db :=
  {| users := users s;
     accounts := <[id := setBalance acc b]> (accounts s);
     transactions := transactions s ++ [row] |}.

(** The events of a committed call, up to the commit. *)
Definition commitEvents (uid : string) (user : User) (data : TransactionData)
    (acc : Account) (row : Transaction) : list event :=
  [EvAuth; EvRequest; EvProtect uid; EvFindUser uid;
   EvFindAccount (accountId data) (user_id user); EvBegin; EvCreate row;
   EvUpdate (accountId data) (add (toNumber (balance acc)) (balanceChange data));
   EvCommit].

(** The events of the prompt extraction before it hands over to
    [createTransaction]. *)
Definition promptRequest (prompt : string) : GenerateRequest :=
  {| model := geminiModel; inlineData := None; promptText := aiPrompt prompt |}.

Definition promptEvents (uid : string) (user : User) (prompt : string)
  : list event :=
  [EvAuth; EvFindUser uid; EvFindFirstAccount (user_id user);
   EvGenerate (promptRequest prompt)].

(** Who owns an account and whether it is the default one. *)
Definition identity (a : Account) : string * bool :=
  (account_userId a, isDefault a).

(** [s'] extends [s]: the same users, the same accounts with the same
    owners and default flags, and the rows of [s] followed by new ones. *)
Definition extends (s s' : db) : Prop :=
  users s' = users s /\
  (forall id, identity <$> accounts s' !! id = identity <$> accounts s !! id) /\
  exists rows, transactions s' = transactions s ++ rows.

(** Every row is on an account that exists and belongs to the row's
    user. *)
Definition rowOwned (s : db) (r : Transaction) : bool :=
  match accounts s !! tx_accountId r with
  | Some acc => String.eqb (account_userId acc) (tx_userId r)
  | None => false
  end.

Definition rowsOwned (s : db) : bool := forallb (rowOwned s) (transactions s).

(** The caller is identified as [uid] and passes the admission check. *)
Definition passesAdmission (e : env) (uid : string) : Prop :=
  (exists o, auth e = Normal o /\ truthyString o = Some uid) /\
  request e = Normal tt /\
  exists d, protect e uid = Normal d /\ isDenied d = false.

(** The store answers every call without a fault of its own. *)
Definition storeAnswers (e : env) : Prop := forall op, dbFault e op = None.

(** The caller [uid] has the user record [user], which owns the target
    account [acc]; the amount is stored as [amt] and the new balance as
    [b]. *)
Definition accepted (data : TransactionData) (w : world) (uid : string)
    (user : User) (acc : Account) (amt b : decimal) : Prop :=
  findUser (store w) uid = Some user /\
  findAccount (store w) (accountId data) (user_id user) = Some acc /\
  ofNumber (amount data) = Some amt /\
  ofNumber (add (toNumber (balance acc)) (balanceChange data)) = Some b.

(** The prompt extraction got as far as the data [td]: the caller [uid]
    has the user record [user], the look-up of line 146 returned the
    account [acc] under [id], and the model's answer, cleaned and
    parsed, passed the validation. *)
Definition extracted (e : env) (prompt : string) (w : world) (uid : string)
    (user : User) (id : string) (acc : Account) (td : TransactionData) : Prop :=
  (exists o, auth e = Normal o /\ truthyString o = Some uid) /\
  findUser (store w) uid = Some user /\
  findDefaultAccount (store w) (user_id user) = Some (id, acc) /\
  exists text data,
    generateContent e (promptRequest prompt) = Normal (Some text) /\
    JSON.parse (trim (removeFences text)) = Some data /\
    transactionDataOf e id data = Normal td.

(** What a denied call logs and answers. *)
Definition denialLog (r : Reason) : list event :=
  match r with
  | RateLimit remaining reset =>
      [EvLogRateLimit "RATE_LIMIT_EXCEEDED" remaining reset]
  | OtherReason => []
  end.

Definition denialMessage (r : Reason) : string :=
  match r with
  | RateLimit _ _ => rateLimitMessage
  | OtherReason => "Request blocked"
  end.

(** A call of one of the three actions, with the environment it runs
    in. *)
Inductive call :=
| CallCreate (e : env) (data : TransactionData)
| CallPrompt (e : env) (prompt : string)
| CallScan (e : env) (file : File).

(** The world after a call, and after a sequence of calls made one
    after the other. *)
Definition after (c : call) (w : world) : world :=
  match c with
  | CallCreate e data => final (createTransaction e data) w
  | CallPrompt e prompt => final (createTransactionFromPrompt e prompt) w
  | CallScan e file => final (scanReceipt e file) w
  end.

Definition afterAll (calls : list call) (w : world) : world :=
  foldl (fun w c => after c w) w calls.

(** The events of the prompt extraction itself: identification, the
    two look-ups and the request to the model. *)
Definition isPromptEvent (ev : event) : bool :=
  match ev with
  | EvAuth | EvFindUser _ | EvFindFirstAccount _ | EvGenerate _ => true
  | _ => false
  end.

(** The events [scanReceipt] may emit. *)
Definition isScanEvent (ev : event) : bool :=
  match ev with
  | EvArrayBuffer | EvGenerate _ | EvLogError _ _ => true
  | _ => false
  end.

Definition isRevalidate (ev : event) : bool :=
  match ev with EvRevalidate _ => true | _ => false end.

(** A text without backticks. *)
Definition backtick : ascii := chr 96.

Fixpoint backtickFree (s : string) : bool :=
  match s with
  | EmptyString => true
  | String c s' => negb (Ascii.eqb c backtick) && backtickFree s'
  end.

Definition twoBackticks : string :=
  String backtick (String backtick EmptyString).

(** Three backticks in a row occur somewhere in the text. *)
Fixpoint hasFence (s : string) : bool :=
  match s with
  | EmptyString => false
  | String _ s' => String.prefix fence s || hasFence s'
  end.

(** A text made of ASCII white space only: TAB, LF, VT, FF, CR, SP. *)
Definition isSpace (c : ascii) : bool :=
  let n := nat_of_ascii c in
  ((9 <=? n)%nat && (n <=? 13)%nat) || (n =? 32)%nat.

Fixpoint blank (s : string) : bool :=
  match s with
  | EmptyString => true
  | String c s' => isSpace c && blank s'
  end.

(** The time value of a Date object is within the range of [TimeClip],
    or NaN. *)
Definition validDate (d : Date) : bool :=
  match d with
  | Some t => (Z.abs t <=? maxTime)%Z
  | None => true
  end.

(** A host whose local time is UTC plus [c] at all times: a zone without
    daylight saving, or a server that runs in UTC. *)
Definition constantOffset (tza : Z -> bool -> Z) (c : Z) : Prop :=
  forall t isUTC, tza t isUTC = c.

(** [n] applications of [calculateNextRecurringDate] with the same
    interval. *)
Definition nextAfter (tza : Z -> bool -> Z) (interval : string) (n : nat)
    (d : Date) : Date :=
  Nat.iter n (fun d => calculateNextRecurringDate tza d interval) d.
End Invariants.

(* ===================================================================== *)
(** ** The prompt input component                                         *)
(* ===================================================================== *)

(** [TransactionPromptInput.jsx]: the state of the component that the
    handlers read and write, and the notifications it raises. *)
Module PromptInput.
Import JSString Effects Actions.

Inductive toast :=
| ToastSuccess (message : string)
| ToastError (message : string).

Record component := {
  value : string;
  toasts : list toast;
  onSuccessCalls : nat
}.

(** Lines 21-27: what the callback does with the answer [res] of
    [createTransactionFromPrompt]; [onSuccess] says whether the parent
    passed the [onSuccess] property. *)
Definition onResponse (onSuccess : bool) (res : ActionResult) (c : component)
  : component :=
  match res with
  | Success _ =>
      {| value := EmptyString;
         toasts := toasts c ++ [ToastSuccess "Transaction added!"];
         onSuccessCalls :=
           if onSuccess then S (onSuccessCalls c) else onSuccessCalls c |}
  | Failure error =>
      {| value := value c;
         toasts := toasts c ++
           [ToastError (if String.eqb error EmptyString
                        then "Failed to add transaction" else error)];
         onSuccessCalls := onSuccessCalls c |}
  end.

(** Line 30: [handleExample]. *)
Definition handleExample (ex : string) (c : component) : component :=
  {| value := ex; toasts := toasts c; onSuccessCalls := onSuccessCalls c |}.

(** Lines 31-35: [handleSubmit]; the result is the argument with which
    [submitPrompt] is called, if it is called. *)
Definition handleSubmit (c : component) : option string :=
  if String.eqb (trim (value c)) EmptyString then None else Some (value c).

Definition EXAMPLES : list string :=
  [ "Spent " +:+ bytes [226; 130; 185] +:+ "500 on lunch";
    "Received " +:+ bytes [226; 130; 185] +:+ "45,000 salary";
    bytes [226; 130; 185] +:+ "2,500 for electricity" ].
End PromptInput.

(* ===================================================================== *)
(** * Theorems                                                            *)
(* ===================================================================== *)

Import JSNumber JSString JSValue JSDate PrismaDecimal Store Effects Actions Logic.
Import Invariants.

(** ** Running processes *)

Lemma run_bind {A B} (p : proc A) (f : A -> proc B) w :
  run (bind p f) w = run (f (run p w).1) (run p w).2.
Proof.
  revert w. induction p as [a | X st k IH]; intros w; simpl; [reflexivity|].
  destruct (st w) as [x w']. apply IH.
Qed.

Lemma run_tryCatch {A} (p : act A) h w :
  run (tryCatch p h) w =
  match (run p w).1 with
  | Normal a => (Normal a, (run p w).2)
  | Throw m => run (h m) (run p w).2
  end.
Proof.
  unfold tryCatch. rewrite run_bind. destruct (run p w) as [[a|m] w']; reflexivity.
Qed.

Lemma wp_bind {A B} (p : proc A) (f : A -> proc B) Q w :
  wp p (fun a w' => wp (f a) Q w') w -> wp (bind p f) Q w.
Proof. unfold wp. rewrite run_bind. auto. Qed.

Lemma wp_mbind {A B} (p : act A) (f : A -> act B) Q w :
  wp p (fun c w' => match c with
                    | Normal a => wp (f a) Q w'
                    | Throw m => Q (Throw m) w'
                    end) w ->
  wp (p ≫= f) Q w.
Proof.
  intros H. unfold mbind, act_bind, bindE. apply wp_bind.
  unfold wp in *. destruct (run p w).1; exact H.
Qed.

Lemma wp_tryCatch {A} (p : act A) h Q w :
  wp p (fun c w' => match c with
                    | Normal a => Q (Normal a) w'
                    | Throw m => wp (h m) Q w'
                    end) w ->
  wp (tryCatch p h) Q w.
Proof.
  intros H. unfold tryCatch. apply wp_bind.
  unfold wp in *. destruct (run p w).1; exact H.
Qed.

Lemma wp_Ret {A} (a : A) (Q : A -> world -> Prop) w : Q a w -> wp (Ret a) Q w.
Proof. auto. Qed.

Lemma wp_ret {A} (a : A) (Q : completion A -> world -> Prop) w :
  Q (Normal a) w -> wp (ret a) Q w.
Proof. auto. Qed.

Lemma wp_throw {A} m (Q : completion A -> world -> Prop) w :
  Q (Throw m) w -> wp (throw m) Q w.
Proof. auto. Qed.

Lemma wp_lift {A} c (Q : completion A -> world -> Prop) w :
  Q c w -> wp (lift c) Q w.
Proof. auto. Qed.

Lemma wp_external {A} ev (c : completion A) Q w :
  Q c (log ev w) -> wp (external ev c) Q w.
Proof. auto. Qed.

Lemma wp_effect ev Q w : Q (Normal tt) (log ev w) -> wp (effect ev) Q w.
Proof. auto. Qed.

Lemma wp_guarded {A} e op ev (f : world -> completion A * world) Q w :
  match dbFault e op with
  | Some m => Q (Throw m) (log ev w)
  | None => Q (f (log ev w)).1 (f (log ev w)).2
  end ->
  wp (guarded e op ev f) Q w.
Proof.
  unfold wp, guarded. simpl. destruct (dbFault e op); [auto|].
  destruct (f _); auto.
Qed.

Lemma wp_revalidatePath e path Q w :
  match revalidateFault e path with
  | Some m => Q (Throw m) (log (EvRevalidate path) w)
  | None => Q (Normal tt) (log (EvRevalidate path) w)
  end ->
  wp (revalidatePath e path) Q w.
Proof.
  unfold wp, revalidatePath. simpl. destruct (revalidateFault e path); auto.
Qed.

Lemma wp_dbTransaction {A} e (cb : act A) Q w :
  match dbFault e OpBegin with
  | Some m => Q (Throw m) (log EvBegin w)
  | None =>
      wp cb (fun c w' =>
               match c with
               | Normal a =>
                   match dbFault e OpCommit with
                   | Some m => Q (Throw m) (log EvRollback (setStore (store w) w'))
                   | None => Q (Normal a) (log EvCommit w')
                   end
               | Throw m => Q (Throw m) (log EvRollback (setStore (store w) w'))
               end) (log EvBegin w)
  end ->
  wp (dbTransaction e cb) Q w.
Proof.
  unfold wp, dbTransaction. simpl. destruct (dbFault e OpBegin); [auto|].
  destruct (run cb _) as [[a|m] w']; simpl; [destruct (dbFault e OpCommit)|]; auto.
Qed.

(** Symbolic execution: one rule per construct, then a case split on the
    answer of the environment or of the store that the run waits for. *)
Ltac exec_step :=
  lazymatch goal with
  | |- wp (mbind _ _) _ _ => apply wp_mbind
  | |- wp (tryCatch _ _) _ _ => apply wp_tryCatch
  | |- wp (external _ _) _ _ => apply wp_external
  | |- wp (effect _) _ _ => apply wp_effect
  | |- wp (ret _) _ _ => apply wp_ret
  | |- wp (throw _) _ _ => apply wp_throw
  | |- wp (lift _) _ _ => apply wp_lift
  | |- wp (revalidatePath _ _) _ _ => apply wp_revalidatePath
  | |- wp (dbTransaction _ _) _ _ => apply wp_dbTransaction
  | |- wp (guarded _ _ _ _) _ _ => apply wp_guarded
  | |- wp (Ret _) _ _ => apply wp_Ret
  | |- wp (dbFindUser _ _) _ _ => unfold dbFindUser
  | |- wp (dbFindAccount _ _ _) _ _ => unfold dbFindAccount
  | |- wp (dbFindFirstDefault _ _) _ _ => unfold dbFindFirstDefault
  | |- wp (txCreate _ _ _ _) _ _ => unfold txCreate
  | |- wp (txUpdate _ _ _) _ _ => unfold txUpdate
  | |- wp (createTransaction _ _) _ _ => fail
  | |- wp (lift (match ?x with _ => _ end)) _ _ =>
      match goal with
      | H : x = _ |- _ => rewrite H
      | _ => let E := fresh "E" in destruct x eqn:E
      end
  | |- _ =>
      first
        [ progress cbn [fst snd store trace log setStore accounts users
                          transactions withAccounts withTransactions
                          cleanText parseJSON parsePromptJSON]
        | match goal with
          | |- context [match ?x with _ => _ end] =>
              lazymatch x with
              | context [match _ with _ => _ end] => fail
              | _ =>
                  match goal with
                  | H : x = _ |- _ => rewrite H
                  | _ => let E := fresh "E" in destruct x eqn:E
                  end
              end
          end ]
  end.

Ltac exec := repeat exec_step.

Lemma wp_result_final {A} (p : proc A) (Q : A -> world -> Prop) w :
  wp p Q w -> Q (result p w) (final p w).
Proof. auto. Qed.

(** Turns a goal about [result p w] and [final p w] into [wp p _ w]. *)
Ltac to_wp :=
  match goal with
  | |- context [final ?p ?w] =>
      pattern (result p w), (final p w);
      match goal with |- ?Q _ _ => change (wp p Q w) end
  | |- context [result ?p ?w] =>
      pattern (result p w), (final p w);
      match goal with |- ?Q _ _ => change (wp p Q w) end
  end.


Lemma newEvents_app w s evs :
  newEvents w {| store := s; trace := trace w ++ evs |} = evs.
Proof. unfold newEvents. simpl. by rewrite drop_app_length. Qed.

Lemma truthyString_Some o s :
  truthyString o = Some s -> o = Some s /\ s <> EmptyString.
Proof.
  destruct o as [s'|]; simpl; [|discriminate].
  destruct (String.eqb_spec s' EmptyString); [discriminate|].
  intros [= ->]. auto.
Qed.

Lemma findAccount_None s id uid :
  findAccount s id uid = None <->
  accounts s !! id = None \/
  exists acc, accounts s !! id = Some acc /\ account_userId acc <> uid.
Proof.
  unfold findAccount. destruct (accounts s !! id) as [acc|].
  - destruct (String.eqb_spec (account_userId acc) uid) as [Heq|Hne]; split.
    + discriminate.
    + intros [[=] | (acc' & [= <-] & Hne)]. contradiction.
    + intros _. right. exists acc. auto.
    + reflexivity.
  - split; [intros _; left|]; reflexivity.
Qed.

Lemma findAccount_Some s id uid acc :
  findAccount s id uid = Some acc ->
  accounts s !! id = Some acc /\ account_userId acc = uid.
Proof.
  unfold findAccount. destruct (accounts s !! id) as [acc'|]; [|discriminate].
  destruct (String.eqb_spec (account_userId acc') uid); [|discriminate].
  intros [= ->]. auto.
Qed.

(** Brings a world reached by logging into the form
    [{| store := _; trace := trace w ++ evs |}]. *)
Ltac normalize_world :=
  unfold log, setStore; cbn [store trace]; rewrite <- ?app_assoc; cbn [app].

(** ** Transaction creation *)

(** Every run of [createTransaction], in two cases: a failure that leaves
    the store as it was and revalidates nothing, or a run that got through
    every check and committed both writes, followed by the revalidations,
    the first of which to fail turns the result into a failure. *)
Lemma createTransaction_cases e data w :
  let p := createTransaction e data in
  (exists m, result p w = Normal (Failure m) /\ store (final p w) = store w /\
     forallb (fun ev => negb (isRevalidate ev)) (newEvents w (final p w)) = true) \/
  exists o uid user acc amt b,
    auth e = Normal o /\ truthyString o = Some uid /\
    findUser (store w) uid = Some user /\
    findAccount (store w) (accountId data) (user_id user) = Some acc /\
    ofNumber (amount data) = Some amt /\
    ofNumber (add (toNumber (balance acc)) (balanceChange data)) = Some b /\
    let row := rowOf e (user_id user) data amt in
    store (final p w) = committed (store w) (accountId data) acc b row /\
    exists evs,
      newEvents w (final p w) = commitEvents uid user data acc row ++ evs /\
      ((result p w = Normal (Success (serializeAmount row)) /\
        evs = [EvRevalidate "/dashboard";
               EvRevalidate ("/account/" +:+ accountId data)]) \/
       (exists m, result p w = Normal (Failure m) /\
          (revalidateFault e "/dashboard" = Some m /\
           evs = [EvRevalidate "/dashboard"] \/
           revalidateFault e "/dashboard" = None /\
           revalidateFault e ("/account/" +:+ accountId data) = Some m /\
           evs = [EvRevalidate "/dashboard";
                  EvRevalidate ("/account/" +:+ accountId data)]))).
Proof.
  cbv zeta. to_wp. unfold createTransaction, createTransactionBody. exec.
  all: normalize_world; rewrite newEvents_app.
  all: try (left; eexists; split; [reflexivity|]; split; reflexivity).
  all: right.
  all: match goal with
       | Hf : findAccount _ _ _ = Some ?acc, Ha : accounts _ !! _ = Some ?acc' |- _ =>
           let H := fresh in
           destruct (findAccount_Some _ _ _ _ Hf) as [H _];
           rewrite H in Ha; injection Ha as <-
       end.
  all: match goal with
       | Ha : auth _ = Normal ?o, Ht : truthyString ?o = Some ?uid,
         Hu : findUser _ ?uid = Some ?user, Hf : findAccount _ _ _ = Some ?acc,
         Hamt : ofNumber (amount _) = Some ?amt,
         Hb : ofNumber (add _ _) = Some ?b |- _ =>
           exists o, uid, user, acc, amt, b
       end.
  all: unfold committed, commitEvents, rowOf, nextRecurringDateOf, balanceChange,
         withAccounts, withTransactions; cbn [users accounts transactions].
  all: repeat match goal with
         | H : String.eqb (type _) _ = _ |- _ => rewrite H; clear H
         | H : isRecurring _ = _ |- _ => rewrite H; clear H
         | H : truthyString (recurringInterval _) = _ |- _ => rewrite H; clear H
         end.
  all: repeat (split; [first [reflexivity | assumption]|]).
  all: eexists; split; [cbn [app]; reflexivity|].
  all: first [ left; split; reflexivity
             | right; eexists; split; [reflexivity|];
               first [ left; split; reflexivity
                     | right; repeat (split; [first [reflexivity | assumption]|]); reflexivity ] ].
Qed.

(** C2. In every run of [createTransaction] the store ends either as it
    was, or with both writes: the row of the call appended and the
    balance of the target account replaced by the balance that lines
    47-48 compute from the old one.  No run ends with one write and not
    the other. *)
Theorem createTransaction_atomic e data w :
  let s := store w in
  let s' := store (final (createTransaction e data) w) in
  s' = s \/
  exists uid user acc amt b,
    accepted data w uid user acc amt b /\
    s' = committed s (accountId data) acc b (rowOf e (user_id user) data amt).
Proof.
  cbv zeta.
  destruct (createTransaction_cases e data w)
    as [(m & _ & Hstore & _) |
        (o & uid & user & acc & amt & b & _ & _ & Huser & Hacc & Hamt & Hb
         & Hstore & _)].
  - left. exact Hstore.
  - right. exists uid, user, acc, amt, b. split; [|exact Hstore].
    split; [exact Huser|]. split; [exact Hacc|]. split; assumption.
Qed.

(** The unit of work does undo a row already inserted: here the new
    balance overflows to Infinity, which the store rejects after the row
    was created. *)
Example rollback_after_insert :
  let w := Examples.worldWith (Examples.dec 17 307) in
  let p := createTransaction Examples.quiet
             (Examples.dataWith "INCOME" (ofDecimal false 1 308)) in
  result p w = Normal (Failure validationError) /\
  store (final p w) = store w /\
  exists row, newEvents w (final p w) =
    [EvAuth; EvRequest; EvProtect "clerk-alice"; EvFindUser "clerk-alice";
     EvFindAccount "acc-1" "user-1"; EvBegin; EvCreate row; EvRollback].
Proof. vm_compute. eauto. Qed.

(** C3. The admission check comes before any access to the store, and a
    denied call goes no further: it returns the rate-limit or the
    request-blocked failure, looks up neither user nor account, inserts
    no row and changes no balance. *)
Theorem admission_denial_blocks e data w :
  let p := createTransaction e data in
  admissionFirst false (newEvents w (final p w)) = true /\
  forall o uid d,
    auth e = Normal o -> truthyString o = Some uid ->
    request e = Normal tt -> protect e uid = Normal d -> isDenied d = true ->
    (result p w = Normal (Failure rateLimitMessage) \/
     result p w = Normal (Failure "Request blocked")) /\
    store (final p w) = store w /\
    forallb (fun ev => negb (isDataAccess ev)) (newEvents w (final p w)) = true.
Proof.
  cbv zeta. split.
  - to_wp. unfold createTransaction, createTransactionBody. exec.
    all: normalize_world; rewrite newEvents_app; reflexivity.
  - intros o uid d Hauth Huid Hreq Hprot Hden.
    to_wp. unfold createTransaction, createTransactionBody. exec.
    all: normalize_world; rewrite newEvents_app; auto.
Qed.

Lemma admission_denial_blocks_witness :
  let w := Examples.worldWith (Examples.dec 100 0) in
  let p := createTransaction (Examples.envWith Examples.rateLimited (Throw "unavailable"))
             (Examples.dataWith "EXPENSE" (ofZ 5)) in
  (result p w = Normal (Failure rateLimitMessage) \/
   result p w = Normal (Failure "Request blocked")) /\
  store (final p w) = store w /\
  forallb (fun ev => negb (isDataAccess ev)) (newEvents w (final p w)) = true.
Proof.
  intros w p.
  apply (proj2 (admission_denial_blocks
                  (Examples.envWith Examples.rateLimited (Throw "unavailable"))
                  (Examples.dataWith "EXPENSE" (ofZ 5)) w)
           (Some "clerk-alice") "clerk-alice" Examples.rateLimited);
    reflexivity.
Defined.

(** C4. When the caller has no user record, or the target account does
    not exist, or it belongs to another user, [createTransaction] fails
    and leaves the store as it was; a call that got as far as the
    look-ups (caller identified and admitted, store answering) fails with
    the not-found error of the missing record. *)
Theorem not_found_no_side_effects e data w uid :
  auth e = Normal (Some uid) ->
  (findUser (store w) uid = None \/
   exists user, findUser (store w) uid = Some user /\
     (accounts (store w) !! accountId data = None \/
      exists acc, accounts (store w) !! accountId data = Some acc /\
                  account_userId acc <> user_id user)) ->
  let p := createTransaction e data in
  (exists m, result p w = Normal (Failure m)) /\
  store (final p w) = store w /\
  (uid <> EmptyString -> request e = Normal tt ->
   (exists d, protect e uid = Normal d /\ isDenied d = false) ->
   dbFault e OpFindUser = None -> dbFault e OpFindAccount = None ->
   result p w =
   Normal (Failure (match findUser (store w) uid with
                    | Some _ => "Account not found"
                    | None => "User not found"
                    end))).
Proof.
  intros Hauth Hmissing. cbv zeta.
  assert (Htruthy : uid <> EmptyString -> truthyString (Some uid) = Some uid).
  { intros Hne. simpl. destruct (String.eqb_spec uid EmptyString); congruence. }
  assert (Hfind : findUser (store w) uid = None \/
                  exists user, findUser (store w) uid = Some user /\
                    findAccount (store w) (accountId data) (user_id user) = None).
  { destruct Hmissing as [Hu | (user & Hu & Ha)]; [left; exact Hu|].
    right. exists user. split; [exact Hu|]. apply findAccount_None. exact Ha. }
  clear Hmissing.
  split; [|split].
  - to_wp. unfold createTransaction, createTransactionBody. exec.
    all: try (eexists; reflexivity).
    all: apply truthyString_Some in E as [[= ->] _];
      destruct Hfind as [Hu | (user & Hu & Ha)]; congruence.
  - to_wp. unfold createTransaction, createTransactionBody. exec.
    all: try reflexivity.
    all: apply truthyString_Some in E as [[= ->] _];
      destruct Hfind as [Hu | (user & Hu & Ha)]; congruence.
  - intros Hne Hreq (d & Hprot & Hallow) HfaultU HfaultA.
    specialize (Htruthy Hne).
    destruct Hfind as [Hu | (user & Hu & Ha)].
    + rewrite Hu. to_wp. unfold createTransaction, createTransactionBody. exec.
      reflexivity.
    + rewrite Hu. to_wp. unfold createTransaction, createTransactionBody. exec.
      reflexivity.
Qed.

Lemma not_found_no_side_effects_witness :
  let w := Examples.worldWith (Examples.dec 100 0) in
  let data := {| accountId := "acc-of-bob"; type := "EXPENSE"; amount := ofZ 5;
                 category := VStr "food"; description := VUndefined;
                 date := Some 0%Z; isRecurring := false;
                 recurringInterval := None |} in
  let p := createTransaction Examples.quiet data in
  (exists m, result p w = Normal (Failure m)) /\
  store (final p w) = store w /\
  result p w = Normal (Failure "Account not found").
Proof.
  intros w data p.
  destruct (not_found_no_side_effects Examples.quiet data w "clerk-alice")
    as (Hfail & Hstore & Hmsg).
  - reflexivity.
  - right. exists Examples.alice. split; [reflexivity|]. left. reflexivity.
  - split; [exact Hfail|]. split; [exact Hstore|].
    apply Hmsg; [discriminate | reflexivity | | reflexivity | reflexivity].
    exists Examples.allowed. split; reflexivity.
Defined.

(** C1, as stated, fails: the sum is computed on binary64 Numbers.  With
    a balance of 2^53 an income of 1 succeeds and leaves the balance at
    2^53; with a balance of 0.1 an income of 0.2 leaves a balance that is
    not their sum. *)
Lemma exact_balance_counterexample :
  ~ exactBalanceClaim Examples.quiet
      (Examples.dataWith "INCOME" (ofZ 1))
      (Examples.worldWith (Examples.dec 9007199254740992 0)) /\
  ~ exactBalanceClaim Examples.quiet
      (Examples.dataWith "INCOME" (ofDecimal false 2 (-1)))
      (Examples.worldWith (Examples.dec 1 (-1))).
Proof.
  split.
  all: intros H; edestruct H as (before & after & Hb & Ha & Hq & _);
    [vm_compute; reflexivity|].
  all: vm_compute in Hb, Ha; injection Hb as <-; injection Ha as <-.
  all: vm_compute in Hq; discriminate Hq.
Qed.

(** The same drift on decimal fractions: 0.1 plus 0.2 is stored as
    0.30000000000000004. *)
Example decimal_drift :
  let w := Examples.worldWith (Examples.dec 1 (-1)) in
  let p := createTransaction Examples.quiet
             (Examples.dataWith "INCOME" (ofDecimal false 2 (-1))) in
  Examples.balanceOf (final p w) = Some (Examples.dec 30000000000000004 (-17)).
Proof. vm_compute. reflexivity. Qed.

(** C1, amended. A successful call replaces the balance by the decimal
    form of the binary64 sum of the old balance, converted to a Number,
    and the signed amount, and appends exactly one row, the one it
    returns. *)
Theorem createTransaction_balance e data w s :
  let p := createTransaction e data in
  result p w = Normal (Success s) ->
  exists acc b,
    accounts (store w) !! accountId data = Some acc /\
    ofNumber (add (toNumber (balance acc))
                (if String.eqb (type data) "EXPENSE"
                 then neg (amount data) else amount data)) = Some b /\
    store (final p w) =
      {| users := users (store w);
         accounts := <[accountId data := setBalance acc b]> (accounts (store w));
         transactions := transactions (store w) ++ [row s] |}.
Proof.
  cbv zeta. revert s. to_wp.
  unfold createTransaction, createTransactionBody. exec.
  all: intros s' Hs; try discriminate Hs.
  all: injection Hs as <-.
  all: repeat match goal with
         | H : findAccount _ _ _ = Some _ |- _ =>
             apply findAccount_Some in H as [Hacc _]
         | H : String.eqb (type ?d) _ = _, H' : context [String.eqb (type ?d)] |- _ =>
             rewrite H in H'
         | H : ?x = Some ?a, H' : ?x = Some ?b |- _ =>
             rewrite H in H'; injection H' as <-
         end.
  all: eexists _, _; split; [first [eassumption | reflexivity]|];
    split; [eassumption|]; reflexivity.
Qed.

Lemma createTransaction_balance_witness :
  let w := Examples.worldWith (Examples.dec 100 0) in
  let data := Examples.dataWith "EXPENSE" (ofDecimal false 255 (-1)) in
  Examples.balanceOf (final (createTransaction Examples.quiet data) w)
  = Some (Examples.dec 745 (-1)).
Proof.
  intros w data.
  destruct (createTransaction_balance Examples.quiet data w
              (serializeAmount
                 {| tx_accountId := "acc-1"; tx_userId := "user-1";
                    tx_type := "EXPENSE"; tx_amount := Examples.dec 255 (-1);
                    tx_category := VStr "food"; tx_description := VStr "lunch";
                    tx_date := Some 1706659200000%Z; tx_isRecurring := false;
                    tx_recurringInterval := None;
                    tx_nextRecurringDate := None |}))
    as (acc & b & Hacc & Hb & Hstore).
  - vm_compute. reflexivity.
  - unfold Examples.balanceOf. rewrite Hstore. cbn [accounts].
    vm_compute in Hacc. injection Hacc as <-.
    vm_compute in Hb. injection Hb as <-.
    vm_compute. reflexivity.
Defined.

(** ** The service boundary *)

Lemma result_tryCatch {A} (p : act A) h w :
  result (tryCatch p h) w =
  match result p w with
  | Normal a => Normal a
  | Throw m => result (h m) (final p w)
  end.
Proof.
  unfold result, final. rewrite run_tryCatch.
  destruct (run p w) as [[a|m] w']; reflexivity.
Qed.

(** C9. [createTransaction] and [createTransactionFromPrompt] never
    throw: whatever their body throws comes back as the result
    [{ success: false, error: message }].  [scanReceipt] throws, with its
    own message, whenever its body throws. *)
Theorem failures_at_the_boundary :
  (forall e data w,
      exists r, result (createTransaction e data) w = Normal r /\
        forall m, result (createTransactionBody e data) w = Throw m ->
                  r = Failure m) /\
  (forall e prompt w,
      exists r, result (createTransactionFromPrompt e prompt) w = Normal r /\
        forall m, result (createTransactionFromPromptBody e prompt) w = Throw m ->
                  r = Failure m) /\
  (forall e file w m,
      result (scanReceiptBody e file) w = Throw m ->
      result (scanReceipt e file) w = Throw "Failed to scan receipt").
Proof.
  split; [|split].
  - intros e data w. unfold createTransaction. rewrite result_tryCatch.
    destruct (result (createTransactionBody e data) w) as [r|m].
    + exists r. split; [reflexivity|]. discriminate.
    + exists (Failure m). split; [reflexivity|]. intros m' [= <-]. reflexivity.
  - intros e prompt w. unfold createTransactionFromPrompt. rewrite result_tryCatch.
    destruct (result (createTransactionFromPromptBody e prompt) w) as [r|m].
    + exists r. split; [reflexivity|]. discriminate.
    + exists (Failure m). split; [reflexivity|]. intros m' [= <-]. reflexivity.
  - intros e file w m H. unfold scanReceipt. rewrite result_tryCatch, H.
    reflexivity.
Qed.

(** A run of each kind: a rejected call returns a failure, a failed scan
    throws. *)
Lemma failures_at_the_boundary_witness :
  result (createTransaction Examples.quiet (Examples.dataWith "EXPENSE" NaN))
    (Examples.worldWith (Examples.dec 100 0)) = Normal (Failure validationError) /\
  result (scanReceipt Examples.quiet
            {| arrayBuffer := Normal "image"; fileType := "image/png" |})
    (Examples.worldWith (Examples.dec 100 0)) = Throw "Failed to scan receipt".
Proof.
  destruct failures_at_the_boundary as (Hcreate & _ & Hscan).
  split.
  - destruct (Hcreate Examples.quiet (Examples.dataWith "EXPENSE" NaN)
                (Examples.worldWith (Examples.dec 100 0))) as (r & Hr & Hm).
    rewrite Hr. f_equal. apply Hm. vm_compute. reflexivity.
  - apply (Hscan _ _ _ "unavailable"). vm_compute. reflexivity.
Defined.

(** ** The calendar *)

Section Calendar.
Local Open Scope Z_scope.

Ltac split_tests :=
  repeat match goal with
    | |- context [?a =? ?b] => destruct (Z.eqb_spec a b)
    | |- context [?a <? ?b] => destruct (Z.ltb_spec a b)
    | |- context [?a <=? ?b] => destruct (Z.leb_spec a b)
    | H : context [?a =? ?b] |- _ => destruct (Z.eqb_spec a b)
    | H : context [?a <? ?b] |- _ => destruct (Z.ltb_spec a b)
    | H : context [?a <=? ?b] |- _ => destruct (Z.leb_spec a b)
    end.

Lemma DaysInYear_cases y : DaysInYear y = 365 \/ DaysInYear y = 366.
Proof. unfold DaysInYear. split_tests; simpl; auto. Qed.

Lemma DayFromYear_succ y : DayFromYear (y + 1) = DayFromYear y + DaysInYear y.
Proof.
  unfold DayFromYear, DaysInYear. split_tests; simpl negb; cbv iota;
    Z.div_mod_to_equations; lia.
Qed.

Lemma DayFromYear_mono y1 y2 : y1 <= y2 -> DayFromYear y1 <= DayFromYear y2.
Proof. unfold DayFromYear. intros H. Z.div_mod_to_equations. lia. Qed.

(** [YearFromDay] meets the definition of [YearFromTime] in ECMA-262: the
    year whose first day is the last one not after [d]. *)
Lemma YearFromDay_spec d :
  DayFromYear (YearFromDay d) <= d < DayFromYear (YearFromDay d + 1).
Proof. unfold YearFromDay, DayFromYear. Z.div_mod_to_equations. lia. Qed.

Lemma YearFromDay_unique y d :
  DayFromYear y <= d < DayFromYear (y + 1) -> YearFromDay d = y.
Proof.
  intros [Hlo Hhi]. pose proof (YearFromDay_spec d) as [Hlo' Hhi'].
  destruct (Z.lt_trichotomy (YearFromDay d) y) as [Hlt | [Heq | Hgt]]; [|exact Heq|].
  - pose proof (DayFromYear_mono (YearFromDay d + 1) y). lia.
  - pose proof (DayFromYear_mono (y + 1) (YearFromDay d)). lia.
Qed.

Lemma Day_MakeDate day time :
  0 <= time < msPerDay ->
  Day (MakeDate day time) = day /\ TimeWithinDay (MakeDate day time) = time.
Proof.
  unfold Day, TimeWithinDay, MakeDate, msPerDay. intros H.
  Z.div_mod_to_equations. lia.
Qed.

Lemma MakeDate_Day t : MakeDate (Day t) (TimeWithinDay t) = t.
Proof.
  unfold Day, TimeWithinDay, MakeDate, msPerDay. Z.div_mod_to_equations. lia.
Qed.

Lemma TimeWithinDay_range t : 0 <= TimeWithinDay t < msPerDay.
Proof. unfold TimeWithinDay, msPerDay. Z.div_mod_to_equations. lia. Qed.

Lemma leapDays_cases y : leapDays y = 0 \/ leapDays y = 1.
Proof. unfold leapDays. destruct (DaysInYear_cases y); lia. Qed.

Lemma InLeapYear_leapDays t : InLeapYear t = leapDays (YearFromTime t).
Proof.
  unfold InLeapYear, leapDays.
  destruct (DaysInYear_cases (YearFromTime t)) as [H|H]; rewrite H; reflexivity.
Qed.

Lemma DayWithinYear_range t :
  0 <= DayWithinYear t < 365 + leapDays (YearFromTime t).
Proof.
  unfold DayWithinYear, YearFromTime, leapDays.
  pose proof (YearFromDay_spec (Day t)) as H.
  rewrite DayFromYear_succ in H. lia.
Qed.

Lemma MonthFromTime_range t : 0 <= MonthFromTime t <= 11.
Proof. unfold MonthFromTime. split_tests; lia. Qed.

Lemma MakeDay_month y mn dt :
  0 <= mn <= 11 ->
  MakeDay y mn dt = DayFromYear y + monthStart mn (leapDays y) + dt - 1.
Proof.
  intros H. unfold MakeDay.
  replace (mn / 12) with 0 by (Z.div_mod_to_equations; lia).
  replace (mn mod 12) with mn by (Z.div_mod_to_equations; lia).
  rewrite Z.add_0_r. reflexivity.
Qed.

Lemma MakeDay_carry y dt : MakeDay y 12 dt = MakeDay (y + 1) 0 dt.
Proof.
  unfold MakeDay.
  replace (12 / 12) with 1 by reflexivity.
  replace (12 mod 12) with 0 by reflexivity.
  replace (0 / 12) with 0 by reflexivity.
  replace (0 mod 12) with 0 by reflexivity.
  rewrite (Z.add_0_r (y + 1)). reflexivity.
Qed.

Lemma MakeDay_shift y mn dt k : MakeDay y mn (dt + k) = MakeDay y mn dt + k.
Proof. unfold MakeDay. lia. Qed.

Ltac month_cases mn H :=
  assert (mn = 0 \/ mn = 1 \/ mn = 2 \/ mn = 3 \/ mn = 4 \/ mn = 5 \/ mn = 6
          \/ mn = 7 \/ mn = 8 \/ mn = 9 \/ mn = 10 \/ mn = 11) as H by lia;
  repeat destruct H as [H | H]; subst mn.

(** The day of the month [DateFromTime] reads is the offset from the
    start of the month [MonthFromTime] reads. *)
Lemma DateFromTime_monthStart t :
  monthStart (MonthFromTime t) (InLeapYear t) + DateFromTime t - 1
  = DayWithinYear t.
Proof.
  unfold DateFromTime, MonthFromTime.
  split_tests; cbn [monthStart]; lia.
Qed.

Lemma DaysInMonth_range y mn :
  0 <= mn <= 11 -> 28 <= DaysInMonth y mn <= 31.
Proof.
  intros H. destruct (leapDays_cases y) as [Hl|Hl].
  all: month_cases mn Hm; unfold DaysInMonth; rewrite Hl; simpl; lia.
Qed.

Lemma DateFromTime_range t :
  1 <= DateFromTime t <= DaysInMonth (YearFromTime t) (MonthFromTime t).
Proof.
  pose proof (DayWithinYear_range t) as Hd.
  pose proof (InLeapYear_leapDays t) as Hl.
  destruct (leapDays_cases (YearFromTime t)) as [Hy|Hy]; rewrite Hy in *.
  all: unfold DateFromTime, MonthFromTime, DaysInMonth; rewrite Hl, Hy.
  all: split_tests; simpl; lia.
Qed.

(** A time read back: the date of the local time is the one MakeDay
    would produce. *)
Lemma MakeDay_civil t :
  MakeDay (YearFromTime t) (MonthFromTime t) (DateFromTime t) = Day t.
Proof.
  rewrite MakeDay_month by apply MonthFromTime_range.
  rewrite <- InLeapYear_leapDays.
  pose proof (DateFromTime_monthStart t). unfold DayWithinYear in *. lia.
Qed.

(** MakeDay, read back: a day of a month that has it. *)
Lemma civil_MakeDay y mn dt time :
  0 <= mn <= 11 -> 1 <= dt <= DaysInMonth y mn -> 0 <= time < msPerDay ->
  civil (MakeDate (MakeDay y mn dt) time) = (y, mn, dt).
Proof.
  intros Hmn Hdt Htime.
  set (t := MakeDate (MakeDay y mn dt) time).
  destruct (Day_MakeDate (MakeDay y mn dt) time Htime) as [Hday _].
  fold t in Hday. rewrite MakeDay_month in Hday by exact Hmn.
  assert (Hy : YearFromTime t = y).
  { unfold YearFromTime. apply YearFromDay_unique. rewrite DayFromYear_succ, Hday.
    destruct (leapDays_cases y) as [Hl|Hl]; unfold leapDays in Hl.
    all: revert Hdt; unfold DaysInMonth, leapDays.
    all: month_cases mn Hm; simpl; lia. }
  assert (Hl : InLeapYear t = leapDays y) by (rewrite InLeapYear_leapDays, Hy; reflexivity).
  assert (Hw : DayWithinYear t = monthStart mn (leapDays y) + dt - 1).
  { unfold DayWithinYear. rewrite Hy, Hday. lia. }
  unfold civil. rewrite Hy. f_equal; [f_equal|].
  - unfold MonthFromTime. rewrite Hw, Hl. revert Hdt. unfold DaysInMonth.
    destruct (leapDays_cases y) as [Hl'|Hl']; rewrite Hl'.
    all: month_cases mn Hm; simpl; intros Hdt; split_tests; lia.
  - unfold DateFromTime, MonthFromTime. rewrite Hw, Hl. revert Hdt. unfold DaysInMonth.
    destruct (leapDays_cases y) as [Hl'|Hl']; rewrite Hl'.
    all: month_cases mn Hm; simpl; intros Hdt; split_tests; lia.
Qed.

(** [MakeDay] meets its definition in ECMA-262: its day for the first
    of a month is the day whose year, month and date are those asked
    for. *)
Lemma MakeDay_first_of_month y mn :
  0 <= mn <= 11 -> civil (MakeDate (MakeDay y mn 1) 0) = (y, mn, 1).
Proof.
  intros H. apply civil_MakeDay; [exact H | | unfold msPerDay; lia].
  pose proof (DaysInMonth_range y mn H). lia.
Qed.

(** MakeDay carries a day beyond the end of the month into the month
    after. *)
Lemma MakeDay_overflow y mn dt time :
  0 <= mn <= 11 -> 1 <= dt <= 31 -> 0 <= time < msPerDay ->
  civil (MakeDate (MakeDay y mn dt) time) = overflow y mn dt.
Proof.
  intros Hmn Hdt Htime. unfold overflow.
  destruct (Z.leb_spec dt (DaysInMonth y mn)) as [Hle|Hgt].
  - apply civil_MakeDay; lia.
  - pose proof (DaysInMonth_range y mn Hmn) as Hr.
    assert (Hne : mn <> 11).
    { intros ->. unfold DaysInMonth in Hgt. simpl in Hgt. lia. }
    unfold monthAfter. destruct (Z.eqb_spec mn 11) as [|_]; [contradiction|].
    replace (MakeDay y mn dt)
      with (MakeDay y (mn + 1) (dt - DaysInMonth y mn)).
    + apply civil_MakeDay; [lia | | exact Htime].
      pose proof (DaysInMonth_range y (mn + 1)). lia.
    + rewrite !MakeDay_month by lia. unfold DaysInMonth.
      destruct (Z.eqb_spec mn 11); [contradiction|]. lia.
Qed.
End Calendar.

(** ** The next recurring date *)

Section NextDate.
Local Open Scope Z_scope.

Lemma setDate_shift tza t k :
  setDate tza (Some t) (Some (k + DateFromTime (LocalTime tza t)))
  = TimeClip (UTC tza (LocalTime tza t + k * msPerDay)).
Proof.
  unfold setDate. cbn [mbind option_bind]. do 2 f_equal.
  rewrite Z.add_comm, MakeDay_shift, MakeDay_civil.
  pose proof (MakeDate_Day (LocalTime tza t)) as H.
  unfold MakeDate in *. lia.
Qed.

(** C6, as stated, fails: one day after the last Date value there is no
    Date, and the helper returns Invalid Date. *)
Lemma next_date_counterexample :
  calculateNextRecurringDate (fun _ _ => 0) (Some maxTime) "DAILY" = None /\
  calculateNextRecurringDate (fun _ _ => 0) (Some maxTime) "DAILY"
  <> Some (maxTime + msPerDay).
Proof. split; [vm_compute; reflexivity | vm_compute; discriminate]. Qed.

(** A day of 23 hours: in New York, from noon of 9 March 2024 to noon of
    10 March 2024, the day on which the clocks are put forward. *)
Example daylight_saving_day :
  calculateNextRecurringDate Examples.newYork (Some 1710003600000) "DAILY"
  = Some (1710003600000 + 23 * 3600000).
Proof. vm_compute. reflexivity. Qed.

(** C6, amended. The helper advances the date in the local time of the
    host and hands the result back to the host.  From a valid start date,
    whose local time is [lt], it returns the time that the host reads
    from the local time [lt'], clipped to the range of Date values, where
    [lt'] is one day or seven days of 86400000 ms after [lt] for DAILY
    and WEEKLY, and for MONTHLY and YEARLY the same time of day on the
    same day of the next month or year, carried into the following month
    when that month is shorter.  On a host whose offset from UTC is
    constant, DAILY and WEEKLY add exactly one day and seven days to the
    time value.  An unrecognized interval returns the start date, and an
    invalid start date stays invalid. *)
Theorem calculateNextRecurringDate_advances tza t interval :
  let next := calculateNextRecurringDate tza (Some t) interval in
  let lt := LocalTime tza t in
  (interval = "DAILY" -> next = TimeClip (UTC tza (lt + msPerDay))) /\
  (interval = "WEEKLY" -> next = TimeClip (UTC tza (lt + 7 * msPerDay))) /\
  (interval = "MONTHLY" ->
   exists lt', next = TimeClip (UTC tza lt') /\
     TimeWithinDay lt' = TimeWithinDay lt /\
     civil lt' = (let '(y, m, d) := civil lt in
                  let '(y', m') := monthAfter y m in overflow y' m' d)) /\
  (interval = "YEARLY" ->
   exists lt', next = TimeClip (UTC tza lt') /\
     TimeWithinDay lt' = TimeWithinDay lt /\
     civil lt' = (let '(y, m, d) := civil lt in overflow (y + 1) m d)) /\
  (forall c, constantOffset tza c ->
     (interval = "DAILY" -> next = TimeClip (t + msPerDay)) /\
     (interval = "WEEKLY" -> next = TimeClip (t + 7 * msPerDay))) /\
  (interval <> "DAILY" -> interval <> "WEEKLY" -> interval <> "MONTHLY" ->
   interval <> "YEARLY" -> next = Some t) /\
  calculateNextRecurringDate tza None interval = None.
Proof.
  cbv zeta.
  pose proof (TimeWithinDay_range (LocalTime tza t)) as Htime.
  pose proof (MonthFromTime_range (LocalTime tza t)) as Hmonth.
  pose proof (DateFromTime_range (LocalTime tza t)) as Hdate.
  pose proof (DaysInMonth_range (YearFromTime (LocalTime tza t))
                (MonthFromTime (LocalTime tza t)) Hmonth) as Hdim.
  assert (Hdaily : calculateNextRecurringDate tza (Some t) "DAILY"
                   = TimeClip (UTC tza (LocalTime tza t + msPerDay))).
  { unfold calculateNextRecurringDate. cbn [String.eqb Ascii.eqb Bool.eqb].
    cbn [getDate mbind option_bind fmap option_fmap option_map].
    rewrite setDate_shift. rewrite Z.mul_1_l. reflexivity. }
  assert (Hweekly : calculateNextRecurringDate tza (Some t) "WEEKLY"
                    = TimeClip (UTC tza (LocalTime tza t + 7 * msPerDay))).
  { unfold calculateNextRecurringDate. cbn [String.eqb Ascii.eqb Bool.eqb].
    cbn [getDate mbind option_bind fmap option_fmap option_map].
    rewrite setDate_shift. reflexivity. }
  split; [intros ->; exact Hdaily|]. split; [intros ->; exact Hweekly|].
  split; [|split; [|split; [|split]]].
  - intros ->. unfold calculateNextRecurringDate. cbn [String.eqb Ascii.eqb Bool.eqb].
    cbn [getMonth setMonth mbind option_bind fmap option_fmap option_map].
    eexists. split; [reflexivity|]. split.
    + exact (proj2 (Day_MakeDate _ _ Htime)).
    + unfold civil at 2. unfold monthAfter.
      destruct (Z.eqb_spec (MonthFromTime (LocalTime tza t)) 11) as [Heq|Hne].
      * rewrite Heq. change (1 + 11) with 12. rewrite MakeDay_carry.
        apply MakeDay_overflow; lia.
      * rewrite (Z.add_comm 1). apply MakeDay_overflow; lia.
  - intros ->. unfold calculateNextRecurringDate. cbn [String.eqb Ascii.eqb Bool.eqb].
    cbn [getFullYear setFullYear mbind option_bind fmap option_fmap option_map].
    eexists. split; [reflexivity|]. split.
    + exact (proj2 (Day_MakeDate _ _ Htime)).
    + unfold civil at 2. rewrite (Z.add_comm 1). apply MakeDay_overflow; lia.
  - intros c Hc. split; intros ->.
    + rewrite Hdaily. f_equal. unfold UTC, LocalTime. rewrite !Hc. lia.
    + rewrite Hweekly. f_equal. unfold UTC, LocalTime. rewrite !Hc. lia.
  - intros H1 H2 H3 H4. unfold calculateNextRecurringDate.
    apply String.eqb_neq in H1, H2, H3, H4. rewrite H1, H2, H3, H4. reflexivity.
  - unfold calculateNextRecurringDate.
    repeat match goal with |- context [String.eqb ?a ?b] => destruct (String.eqb a b) end;
      reflexivity.
Qed.

(** On a host in UTC: 31 January 2024 plus one month is 2 March 2024, 29
    February 2024 plus one year is 1 March 2025, and one day after 31
    January 2024 is 86400000 ms later. *)
Lemma calculateNextRecurringDate_advances_witness :
  let utc : Z -> bool -> Z := fun _ _ => 0 in
  (exists lt', calculateNextRecurringDate utc (Some 1706659200000) "MONTHLY"
               = TimeClip (UTC utc lt') /\ civil lt' = (2024, 2, 2)) /\
  (exists lt', calculateNextRecurringDate utc (Some 1709164800000) "YEARLY"
               = TimeClip (UTC utc lt') /\ civil lt' = (2025, 2, 1)) /\
  calculateNextRecurringDate utc (Some 1706659200000) "DAILY"
  = Some 1706745600000.
Proof.
  intros utc. split; [|split].
  - destruct (calculateNextRecurringDate_advances utc 1706659200000 "MONTHLY")
      as (_ & _ & Hm & _).
    destruct (Hm eq_refl) as (lt' & Hnext & _ & Hcivil).
    exists lt'. split; [exact Hnext|]. rewrite Hcivil. vm_compute. reflexivity.
  - destruct (calculateNextRecurringDate_advances utc 1709164800000 "YEARLY")
      as (_ & _ & _ & Hy & _).
    destruct (Hy eq_refl) as (lt' & Hnext & _ & Hcivil).
    exists lt'. split; [exact Hnext|]. rewrite Hcivil. vm_compute. reflexivity.
  - destruct (calculateNextRecurringDate_advances utc 1706659200000 "DAILY")
      as (_ & _ & _ & _ & Hconst & _).
    destruct (Hconst 0 (fun _ _ => eq_refl)) as [Hd _].
    rewrite (Hd eq_refl). vm_compute. reflexivity.
Defined.
End NextDate.

(** ** Prompt extraction *)

Lemma wp_run_eq {A} (p : proc A) w x :
  wp p (fun r w' => (r, w') = x) w -> run p w = x.
Proof. unfold wp. destruct (run p w). auto. Qed.

Lemma createTransaction_returns e data w :
  exists r, result (createTransaction e data) w = Normal r.
Proof.
  unfold createTransaction. rewrite result_tryCatch.
  destruct (result (createTransactionBody e data) w); eauto.
Qed.

(** Up to the validation, a run of [createTransactionFromPrompt] that
    finds the caller, a default account and a JSON answer does nothing
    but look these up; it then fails with the validation's error or goes
    on as [createTransaction] on the data built. *)
Lemma prompt_run e prompt w o uid user id acc text data :
  auth e = Normal o -> truthyString o = Some uid ->
  dbFault e OpFindUser = None -> findUser (store w) uid = Some user ->
  dbFault e OpFindFirstAccount = None ->
  findDefaultAccount (store w) (user_id user) = Some (id, acc) ->
  generateContent e {| model := geminiModel; inlineData := None;
                       promptText := aiPrompt prompt |} = Normal (Some text) ->
  JSON.parse (trim (removeFences text)) = Some data ->
  let w1 := {| store := store w;
               trace := trace w ++
                 [EvAuth; EvFindUser uid; EvFindFirstAccount (user_id user);
                  EvGenerate {| model := geminiModel; inlineData := None;
                                promptText := aiPrompt prompt |}] |} in
  run (createTransactionFromPrompt e prompt) w =
  match transactionDataOf e id data with
  | Normal td => run (createTransaction e td) w1
  | Throw m => (Normal (Failure m), w1)
  end.
Proof.
  intros Hauth Huid HfaultU Huser HfaultA Hacc Hgen Hparse w1.
  assert (Hjson : parsePromptJSON (trim (removeFences text)) = Normal data).
  { unfold parsePromptJSON, parseJSON. rewrite Hparse. reflexivity. }
  apply wp_run_eq.
  unfold createTransactionFromPrompt, createTransactionFromPromptBody. exec.
  - assert (Hw : log (EvGenerate {| model := geminiModel; inlineData := None;
                                   promptText := aiPrompt prompt |})
                   (log (EvFindFirstAccount (user_id user))
                      (log (EvFindUser uid) (log EvAuth w))) = w1).
    { subst w1. normalize_world. reflexivity. }
    rewrite Hw. unfold wp.
    destruct (createTransaction_returns e a w1) as [r Hr].
    unfold result in Hr.
    destruct (run (createTransaction e a) w1) as [c w'].
    simpl in Hr. subst c. reflexivity.
  - subst w1. normalize_world. reflexivity.
Qed.

(** ** JSON.parse and its fuel *)

Section JSONFuel.
Import JSON.
Local Open Scope nat_scope.

Ltac head_cases H :=
  repeat match type of H with
         | match ?x with _ => _ end = _ => destruct x eqn:?; try discriminate H
         | mbind _ ?x = _ => destruct x as [[? ?]|] eqn:?; simpl in H; try discriminate H
         end.

Lemma skipWhitespace_length l : length (skipWhitespace l) <= length l.
Proof.
  induction l as [|c l IH]; simpl; [lia|]. destruct (isWhitespace c); simpl; lia.
Qed.

Lemma takeDigits_length l : forall acc c m n r,
  takeDigits acc c l = (m, n, r) ->
  (c <= n)%Z /\ length l = length r + Z.to_nat (n - c).
Proof.
  induction l as [|a l IH]; intros acc c m n r H; simpl in H.
  - injection H as <- <- <-. simpl. split; lia.
  - destruct (digitOf a).
    + apply IH in H as [H1 H2]. simpl. split; lia.
    + injection H as <- <- <-. simpl. split; lia.
Qed.

Lemma takeExponent_length l e r :
  takeExponent l = (e, r) -> length r <= length l.
Proof.
  unfold takeExponent. intros H.
  destruct l as [|c l1]; [injection H as <- <-; lia|].
  destruct (_ || _); [|injection H as <- <-; lia].
  destruct (match l1 with
            | "+"%char :: r0 => (false, r0)
            | "-"%char :: r0 => (true, r0)
            | _ => (false, l1)
            end) as [sign l2] eqn:Hs.
  assert (length l2 <= length l1).
  { destruct l1 as [|a l1']; [injection Hs as <- <-; lia|].
    head_cases Hs; injection Hs as <- <-; simpl; lia. }
  destruct (takeDigits 0 0 l2) as [[e' n] rest] eqn:Hd.
  apply takeDigits_length in Hd as [_ Hd].
  destruct (n =? 0)%Z; injection H as <- <-; simpl; lia.
Qed.

Lemma readNumber_length l v r :
  readNumber l = Some (v, r) -> length r < length l.
Proof.
  unfold readNumber. intros H.
  destruct (match l with
            | "-"%char :: r0 => (true, r0)
            | _ => (false, l)
            end) as [sign l1] eqn:Hs.
  assert (Hl1 : length l1 <= length l).
  { destruct l as [|a l']; [injection Hs as <- <-; lia|].
    head_cases Hs; injection Hs as <- <-; simpl; lia. }
  destruct (match l1 with
            | "0"%char :: r0 => Some (0%Z, 1%Z, r0)
            | _ => let '(m, n, r0) := takeDigits 0 0 l1 in
                   if (n =? 0)%Z then None else Some (m, n, r0)
            end) as [[[m n] l2]|] eqn:Hint; [|discriminate H].
  assert (Hl2 : length l2 < length l1).
  { destruct l1 as [|a l1'].
    - simpl in Hint. discriminate Hint.
    - destruct (takeDigits 0 0 (a :: l1')) as [[m' n'] r'] eqn:Hd.
      apply takeDigits_length in Hd as [Hd1 Hd2].
      destruct (Z.eqb_spec n' 0).
      + head_cases Hint; injection Hint as <- <- <-; simpl; lia.
      + head_cases Hint; injection Hint as <- <- <-; simpl in *; lia. }
  destruct (match l2 with
            | "."%char :: r0 =>
                let '(m', n0, r') := takeDigits m 0 r0 in
                if (n0 =? 0)%Z then None else Some (m', n0, r')
            | _ => Some (m, 0%Z, l2)
            end) as [[[m' nfrac] l3]|] eqn:Hfrac; [|discriminate H].
  assert (Hl3 : length l3 <= length l2).
  { destruct l2 as [|a l2']; [injection Hfrac as <- <- <-; lia|].
    destruct (takeDigits m 0 l2') as [[m'' n''] r''] eqn:Hd.
    apply takeDigits_length in Hd as [Hd1 Hd2].
    head_cases Hfrac; injection Hfrac as <- <- <-; simpl in *; lia. }
  destruct (match l3 with
            | c :: _ =>
                if (nat_of_ascii c =? 101) || (nat_of_ascii c =? 69)
                then let '(e, r0) := takeExponent l3 in
                     if length r0 =? length l3 then None else Some (e, r0)
                else Some (0%Z, l3)
            | [] => Some (0%Z, l3)
            end) as [[e l4]|] eqn:Hex; [|discriminate H].
  injection H as <- <-.
  assert (Hl4 : length l4 <= length l3).
  { destruct l3 as [|a l3']; [injection Hex as <- <-; lia|].
    destruct (takeExponent (a :: l3')) as [e' r'] eqn:He.
    apply takeExponent_length in He.
    head_cases Hex; injection Hex as <- <-; simpl in *; lia. }
  lia.
Qed.

Lemma readChars_length n : forall l acc s r,
  length l <= n -> readChars l acc = Some (s, r) -> length r < length l.
Proof.
  induction n as [|n IH]; intros l acc s r Hn H.
  - destruct l; [discriminate H | simpl in Hn; lia].
  - destruct l as [|c l1]; [discriminate H|]. simpl in Hn.
    cbn [readChars] in H.
    destruct (nat_of_ascii c =? 34); [injection H as <- <-; simpl; lia|].
    destruct (nat_of_ascii c =? 92).
    + destruct l1 as [|e l2]; [discriminate H|]. simpl in Hn.
      repeat match type of H with
             | (if ?b then _ else _) = _ =>
                 destruct b;
                 [first [ apply IH in H; [simpl; lia | lia] | idtac ] |]
             end.
      2: discriminate H.
      destruct l2 as [|h1 [|h2 [|h3 [|h4 l3]]]]; try discriminate H.
      simpl in Hn.
      destruct (hex4 h1 h2 h3 h4) as [hi|]; [|discriminate H].
      assert (Hsingle : forall acc', readChars l3 acc' = Some (s, r) ->
                                     length r < S (S (S (S (S (S (length l3))))))).
      { intros acc' H'. apply IH in H'; lia. }
      destruct (_ && _); [|eapply Hsingle; exact H].
      destruct l3 as [|b [|u [|g1 [|g2 [|g3 [|g4 l4]]]]]]; try (eapply Hsingle; exact H).
      destruct (_ && _); [|eapply Hsingle; exact H].
      destruct (hex4 g1 g2 g3 g4) as [lo|]; [|eapply Hsingle; exact H].
      destruct (_ && _); [|eapply Hsingle; exact H].
      apply IH in H; simpl in *; lia.
    + destruct (nat_of_ascii c <? 32); [discriminate H|].
      apply IH in H; [simpl; lia | lia].
Qed.

Lemma readLiteral_length word v c l v' r :
  readLiteral word v (c :: l) = Some (v', r) -> word <> EmptyString ->
  length r < length (c :: l).
Proof.
  unfold readLiteral. intros H Hw. destruct (String.prefix _ _); [|discriminate H].
  injection H as <- <-. destruct word as [|a word']; [contradiction|].
  simpl. pose proof (length_skipn (String.length word') l). lia.
Qed.

Lemma stable_all f : stableValue f /\ stableElements f /\ stableMembers f.
Proof.
  induction f as [|f (IHv & IHe & IHm)].
  { split; [|split]; intros l x r Hx; discriminate Hx. }
  split; [|split].
  - intros l v r H. cbn [readValue] in H.
    pose proof (skipWhitespace_length l) as Hws.
    destruct (skipWhitespace l) as [|c r0] eqn:Hskip; [discriminate H|].
    simpl in Hws.
    destruct (nat_of_ascii c =? 123) eqn:Hobj.
    { pose proof (skipWhitespace_length r0) as Hws0.
      destruct (skipWhitespace r0) as [|c' r'] eqn:Hskip0; [discriminate H|].
      simpl in Hws0.
      destruct (nat_of_ascii c' =? 125) eqn:Hclose.
      - injection H as <- <-. split; [lia|].
        intros [|f'] Hf'; [lia|]. cbn [readValue].
        rewrite Hskip, Hobj, Hskip0, Hclose. reflexivity.
      - destruct (readMembers f (c' :: r')) as [[ms rest]|] eqn:Hm; [|discriminate H].
        simpl in H. injection H as <- <-.
        apply IHm in Hm as [Hlen Hstab]. simpl in Hlen. split; [lia|].
        intros [|f'] Hf'; [lia|]. cbn [readValue].
        rewrite Hskip, Hobj, Hskip0, Hclose, Hstab by (simpl; lia). reflexivity. }
    destruct (nat_of_ascii c =? 91) eqn:Harr.
    { pose proof (skipWhitespace_length r0) as Hws0.
      destruct (skipWhitespace r0) as [|c' r'] eqn:Hskip0; [discriminate H|].
      simpl in Hws0.
      destruct (nat_of_ascii c' =? 93) eqn:Hclose.
      - injection H as <- <-. split; [lia|].
        intros [|f'] Hf'; [lia|]. cbn [readValue].
        rewrite Hskip, Hobj, Harr, Hskip0, Hclose. reflexivity.
      - destruct (readElements f r0) as [[es rest]|] eqn:He; [|discriminate H].
        simpl in H. injection H as <- <-.
        apply IHe in He as [Hlen Hstab]. split; [lia|].
        intros [|f'] Hf'; [lia|]. cbn [readValue].
        rewrite Hskip, Hobj, Harr, Hskip0, Hclose, Hstab by lia. reflexivity. }
    destruct (nat_of_ascii c =? 34) eqn:Hstr.
    { destruct (readChars r0 []) as [[s rest]|] eqn:Hc; [|discriminate H].
      simpl in H. injection H as <- <-.
      pose proof (readChars_length _ _ _ _ _ (le_n _) Hc) as Hlen.
      split; [lia|].
      intros [|f'] Hf'; [lia|]. cbn [readValue].
      rewrite Hskip, Hobj, Harr, Hstr, Hc. reflexivity. }
    assert (Hrest : length r < length (c :: r0)).
    { destruct (nat_of_ascii c =? 116); [eapply readLiteral_length; [exact H|discriminate]|].
      destruct (nat_of_ascii c =? 102); [eapply readLiteral_length; [exact H|discriminate]|].
      destruct (nat_of_ascii c =? 110); [eapply readLiteral_length; [exact H|discriminate]|].
      eapply readNumber_length; exact H. }
    simpl in Hrest. split; [lia|].
    intros [|f'] Hf'; [lia|]. cbn [readValue].
    rewrite Hskip, Hobj, Harr, Hstr. exact H.
  - intros l vs r H. cbn [readElements] in H.
    destruct (readValue f l) as [[v r1]|] eqn:Hv; [|discriminate H].
    simpl in H. apply IHv in Hv as [Hlen1 Hstab1].
    pose proof (skipWhitespace_length r1) as Hws.
    destruct (skipWhitespace r1) as [|c r2] eqn:Hskip; [discriminate H|].
    simpl in Hws.
    destruct (nat_of_ascii c =? 44) eqn:Hcomma.
    + destruct (readElements f r2) as [[vs' rest]|] eqn:He; [|discriminate H].
      simpl in H. injection H as <- <-.
      apply IHe in He as [Hlen2 Hstab2]. split; [lia|].
      intros [|f'] Hf'; [lia|]. cbn [readElements].
      rewrite Hstab1 by lia. simpl. rewrite Hskip, Hcomma, Hstab2 by lia. reflexivity.
    + destruct (nat_of_ascii c =? 93) eqn:Hclose; [|discriminate H].
      injection H as <- <-. split; [lia|].
      intros [|f'] Hf'; [lia|]. cbn [readElements].
      rewrite Hstab1 by lia. simpl. rewrite Hskip, Hcomma, Hclose. reflexivity.
  - intros l ms r H. cbn [readMembers] in H.
    pose proof (skipWhitespace_length l) as Hws.
    destruct (skipWhitespace l) as [|q r0] eqn:Hskip; [discriminate H|].
    simpl in Hws.
    destruct (nat_of_ascii q =? 34) eqn:Hq; [|discriminate H].
    destruct (readChars r0 []) as [[k r1]|] eqn:Hk; [|discriminate H].
    simpl in H.
    pose proof (readChars_length _ _ _ _ _ (le_n _) Hk) as Hlenk.
    pose proof (skipWhitespace_length r1) as Hws1.
    destruct (skipWhitespace r1) as [|colon r2] eqn:Hskip1; [discriminate H|].
    simpl in Hws1.
    destruct (nat_of_ascii colon =? 58) eqn:Hcolon; [|discriminate H].
    destruct (readValue f r2) as [[v r3]|] eqn:Hv; [|discriminate H].
    simpl in H. apply IHv in Hv as [Hlen3 Hstab3].
    pose proof (skipWhitespace_length r3) as Hws3.
    destruct (skipWhitespace r3) as [|c r4] eqn:Hskip3; [discriminate H|].
    simpl in Hws3.
    destruct (nat_of_ascii c =? 44) eqn:Hcomma.
    + destruct (readMembers f r4) as [[ms' rest]|] eqn:Hm; [|discriminate H].
      simpl in H. injection H as <- <-.
      apply IHm in Hm as [Hlen4 Hstab4]. split; [lia|].
      intros [|f'] Hf'; [lia|]. cbn [readMembers].
      rewrite Hskip, Hq, Hk. simpl. rewrite Hskip1, Hcolon, Hstab3 by lia. simpl.
      rewrite Hskip3, Hcomma, Hstab4 by lia. reflexivity.
    + destruct (nat_of_ascii c =? 125) eqn:Hclose; [|discriminate H].
      injection H as <- <-. split; [lia|].
      intros [|f'] Hf'; [lia|]. cbn [readMembers].
      rewrite Hskip, Hq, Hk. simpl. rewrite Hskip1, Hcolon, Hstab3 by lia. simpl.
      rewrite Hskip3, Hcomma, Hclose. reflexivity.
Qed.

(** The answer of [parse] does not depend on the fuel: a reading of the
    whole text that succeeds with any fuel is the one [parse] returns. *)
Lemma parse_any_fuel text fuel v rest :
  readValue fuel (list_ascii_of_string text) = Some (v, rest) ->
  skipWhitespace rest = [] ->
  parse text = Some v.
Proof.
  intros H Hrest. destruct (stable_all fuel) as [Hv _].
  apply Hv in H as [_ Hstab]. unfold parse.
  rewrite Hstab by lia. simpl. rewrite Hrest. reflexivity.
Qed.
End JSONFuel.

Lemma readNumber_number l v r :
  JSON.readNumber l = Some (v, r) -> exists x, v = VNum x.
Proof.
  unfold JSON.readNumber. intros H.
  repeat match type of H with
         | match ?x with _ => _ end = _ => destruct x eqn:?; try discriminate H
         end.
  injection H as <- _. eauto.
Qed.

Lemma readValue_defined fuel l v r :
  JSON.readValue fuel l = Some (v, r) -> v <> VUndefined.
Proof.
  destruct fuel as [|fuel]; [discriminate|]. simpl. intros H.
  repeat (case_match; simplify_option_eq); try discriminate.
  all: try (unfold JSON.readLiteral in *; case_match; simplify_eq; discriminate).
  all: match goal with
       | H : JSON.readNumber _ = _ |- _ =>
           apply readNumber_number in H as [x ->]; discriminate
       end.
Qed.

(** [JSON.parse] never yields [undefined]. *)
Lemma parse_defined text v : JSON.parse text = Some v -> v <> VUndefined.
Proof.
  unfold JSON.parse. intros H.
  destruct (JSON.readValue _ _) as [[v' r]|] eqn:E; simpl in H; [|discriminate].
  case_match; simplify_eq. eapply readValue_defined; eauto.
Qed.

Lemma getProperty_field data :
  data <> VNull -> data <> VUndefined ->
  forall key, getProperty data key = Some (field data key).
Proof.
  intros Hn Hu key. unfold field. destruct data; try contradiction; reflexivity.
Qed.

Lemma upperAscii_idem s : upperAscii (upperAscii s) = upperAscii s.
Proof.
  induction s as [|c s IH]; [reflexivity|]. simpl. rewrite IH. f_equal.
  destruct c as [[] [] [] [] [] [] [] []]; reflexivity.
Qed.

Lemma upperAscii_ascii s : asciiOnly s = true -> asciiOnly (upperAscii s) = true.
Proof.
  induction s as [|c s IH]; [reflexivity|]. cbn [asciiOnly upperAscii].
  intros H. apply andb_prop in H as [Hc Hs]. rewrite (IH Hs), andb_true_r.
  revert Hc. destruct c as [[] [] [] [] [] [] [] []]; vm_compute; auto.
Qed.

(** On a text of ASCII characters [toUpperCase] is the upper-casing of
    the letters a-z, whatever the host, and a second application changes
    nothing. *)
Lemma toUpperCase_ascii host s :
  asciiOnly s = true ->
  toUpperCase host s = upperAscii s /\
  toUpperCase host (toUpperCase host s) = toUpperCase host s.
Proof.
  intros H. unfold toUpperCase. rewrite H, (upperAscii_ascii s H).
  split; [reflexivity | apply upperAscii_idem].
Qed.

(** *** Conversion to a primitive *)

Lemma value_elements_ind (P : value -> Prop) :
  (forall v, (forall l, v <> VArr l) -> P v) ->
  (forall l, Forall P l -> P (VArr l)) ->
  forall v, P v.
Proof.
  intros Hother Harray. fix IH 1. intros [ | | b | x | s | l | m].
  1-5, 7: apply Hother; discriminate.
  apply Harray. induction l as [|e l IHl]; constructor; [apply IH | exact IHl].
Qed.

Lemma ToString_cons e l :
  ToString (VArr (e :: l)) = None <->
  match e with
  | VUndefined | VNull => Some EmptyString
  | _ => ToString e
  end = None \/ ToString (VArr l) = None.
Proof.
  cbn [ToString].
  destruct (match e with
            | VUndefined | VNull => Some EmptyString
            | _ => ToString e
            end) as [s|]; cbn.
  - match goal with |- context [fmap _ (?f l)] => destruct (f l) as [r|] end;
      cbn; split; try discriminate; auto.
    intros [H | H]; discriminate H.
  - split; auto.
Qed.

(** The conversion of a value to a string throws exactly when the value
    is, or holds in nested arrays, an object with a member named
    [toString]. *)
Lemma ToString_convertible v : ToString v = None <-> convertible v = false.
Proof.
  induction v as [v Hv | l IH] using value_elements_ind.
  - destruct v as [ | | b | x | s | l | m]; cbn; try (split; discriminate).
    + elim (Hv l). reflexivity.
    + destruct (lookupMember "toString" m); split; auto; discriminate.
  - induction IH as [|e l He _ IHl].
    + cbn. split; discriminate.
    + rewrite ToString_cons. cbn [convertible forallb].
      change (forallb convertible l) with (convertible (VArr l)).
      rewrite andb_false_iff, <- IHl, <- He.
      destruct e; cbn; try tauto.
      all: split; [intros [H | H]; [discriminate H | auto] | intros [H | H]; [discriminate H | auto]].
Qed.

Lemma ToNumber_convertible v : ToNumber v = None <-> convertible v = false.
Proof.
  rewrite <- ToString_convertible.
  destruct v; cbn [ToNumber]; try (cbn; split; discriminate).
  all: destruct (ToString _); cbn; split; auto; discriminate.
Qed.

Lemma parseFloat_convertible v : parseFloat v = None <-> convertible v = false.
Proof.
  rewrite <- ToString_convertible. unfold parseFloat.
  destruct (ToString v); cbn; split; auto; discriminate.
Qed.

Lemma newDate_convertible parse v : newDate parse v = None <-> convertible v = false.
Proof.
  rewrite <- ToString_convertible.
  destruct v; cbn [newDate]; try (cbn; split; discriminate).
  all: destruct (ToString _); cbn; split; auto; discriminate.
Qed.

Lemma falsy_convertible v : ToBoolean v = false -> convertible v = true.
Proof. destruct v; cbn; auto; discriminate. Qed.

Lemma findDefaultAccount_Some s uid id acc :
  findDefaultAccount s uid = Some (id, acc) ->
  accounts s !! id = Some acc /\ account_userId acc = uid /\ isDefault acc = true.
Proof.
  unfold findDefaultAccount. intros H. apply find_some in H as [Hin Hp].
  apply andb_true_iff in Hp as [Hu Hd]. apply String.eqb_eq in Hu.
  split; [|auto]. apply elem_of_map_to_list. apply list_elem_of_In. exact Hin.
Qed.

(** The data is built exactly when both conversions succeed. *)
Lemma promptFields_None e id data t :
  promptFields e id data t = None <->
  convertible (field data "amount") && convertible (field data "date") = false.
Proof.
  unfold promptFields, NumberOf. rewrite andb_false_iff.
  rewrite <- ToNumber_convertible, <- (newDate_convertible (dateParse e)).
  destruct (ToNumber (field data "amount")) as [x|]; cbn; [|split; auto].
  destruct (ToBoolean (field data "date")) eqn:Hdate.
  - destruct (newDate (dateParse e) (field data "date")); cbn; split; auto.
    + discriminate.
    + intros [H | H]; discriminate H.
  - cbn. split; [discriminate|]. intros [H | H]; [discriminate H|].
    apply newDate_convertible in H.
    rewrite (falsy_convertible _ Hdate) in H. discriminate H.
Qed.

(** The validation, on a parsed value that is not null: it rejects the
    extraction exactly when one of the three fields is falsy; when the
    three are truthy it throws a TypeError unless the type is a string
    and the amount and the date can be converted, and builds the data
    otherwise. *)
Lemma transactionDataOf_cases e id data :
  data <> VNull -> data <> VUndefined ->
  let falsy key := ToBoolean (field data key) = false in
  (transactionDataOf e id data = Throw incompleteMessage <->
   falsy "amount" \/ falsy "type" \/ falsy "category") /\
  (~ (falsy "amount" \/ falsy "type" \/ falsy "category") ->
   ((forall t, field data "type" <> VStr t) ->
    transactionDataOf e id data = Throw (notAFunction "data.type.toUpperCase")) /\
   (forall t, field data "type" = VStr t ->
    transactionDataOf e id data =
    match promptFields e id data t with
    | Some td => Normal td
    | None => Throw cannotConvert
    end)).
Proof.
  intros Hn Hu. cbv zeta. unfold transactionDataOf, read, promptFields.
  rewrite (getProperty_field data Hn Hu "amount").
  fold (field data "type") (field data "category")
       (field data "description") (field data "date").
  destruct (ToBoolean (field data "amount")) eqn:Ha;
    destruct (ToBoolean (field data "type")) eqn:Ht;
    destruct (ToBoolean (field data "category")) eqn:Hc; cbn [negb orb].
  all: split; [split|].
  all: try (intros _; auto; fail).
  all: try (intros [H|[H|H]]; discriminate H).
  all: try (intros H; exfalso; apply H; auto; fail).
  - destruct (field data "type");
      try (intros H; injection H as H'; vm_compute in H'; discriminate H').
    destruct (NumberOf (field data "amount")); [|discriminate].
    destruct (if ToBoolean (field data "date") then _ else _); discriminate.
  - intros _. split.
    + intros Hnot. destruct (field data "type") as [ | | | |t| | ]; try reflexivity.
      elim (Hnot t). reflexivity.
    + intros t ->.
      destruct (NumberOf (field data "amount")); [|reflexivity]. cbn.
      destruct (if ToBoolean (field data "date") then _ else _); reflexivity.
Qed.

(** C7, as stated, fails: an answer with all three fields present, the
    amount being 0, is rejected as incomplete. *)
Lemma presence_counterexample :
  let text := Examples.jsonObject
                [("amount", "0"); ("type", quoted "EXPENSE");
                 ("category", quoted "food")] in
  let data := VObj [("amount", VNum zero); ("type", VStr "EXPENSE");
                    ("category", VStr "food")] in
  JSON.parse text = Some data /\
  result (createTransactionFromPrompt (Examples.answering text) "Spent 0 on lunch")
    (Examples.worldWith (Examples.dec 100 0))
  = Normal (Failure incompleteMessage) /\
  ~ presenceClaim (Examples.answering text) "acc-1" data.
Proof.
  cbv zeta. split; [vm_compute; reflexivity|]. split; [vm_compute; reflexivity|].
  intros [H _]. destruct H as [H|[H|H]]; [vm_compute; reflexivity | | |];
    vm_compute in H; discriminate H.
Qed.

(** With all three fields present, the validation passed, the flow still
    does not reach the transaction creation when the amount is an object
    that cannot be converted to a number. *)
Example present_but_unconvertible :
  let text := Examples.jsonObject
                [("amount", Examples.jsonObject [("toString", "0")]);
                 ("type", quoted "EXPENSE"); ("category", quoted "food")] in
  let p := createTransactionFromPrompt (Examples.answering text) "Spent it" in
  let w := Examples.worldWith (Examples.dec 100 0) in
  result p w = Normal (Failure cannotConvert) /\
  newEvents w (final p w)
  = promptEvents "clerk-alice" Examples.alice "Spent it".
Proof. vm_compute. split; reflexivity. Qed.

(** C7, amended. After the answer is parsed to a value other than null,
    the validation fails with the incomplete-extraction error exactly
    when one of amount, type and category is falsy (absent, null, 0, the
    empty string or false), and the call then returns that failure with
    the store untouched.  When the three are truthy, the call fails with
    a TypeError, the store untouched, if the type is not a string, or if
    the amount or the date is an object with a member named [toString]
    (or an array that holds one), which cannot be converted; in every
    other case the call goes on as the transaction creation on the data
    built. *)
Theorem incomplete_iff_falsy e prompt w o uid user id acc text data :
  auth e = Normal o -> truthyString o = Some uid ->
  dbFault e OpFindUser = None -> findUser (store w) uid = Some user ->
  dbFault e OpFindFirstAccount = None ->
  findDefaultAccount (store w) (user_id user) = Some (id, acc) ->
  generateContent e {| model := geminiModel; inlineData := None;
                       promptText := aiPrompt prompt |} = Normal (Some text) ->
  JSON.parse (trim (removeFences text)) = Some data ->
  data <> VNull ->
  let p := createTransactionFromPrompt e prompt in
  let falsy key := ToBoolean (field data key) = false in
  let convertibles :=
    convertible (field data "amount") && convertible (field data "date") in
  (transactionDataOf e id data = Throw incompleteMessage <->
   falsy "amount" \/ falsy "type" \/ falsy "category") /\
  (falsy "amount" \/ falsy "type" \/ falsy "category" ->
   result p w = Normal (Failure incompleteMessage) /\
   store (final p w) = store w) /\
  (~ (falsy "amount" \/ falsy "type" \/ falsy "category") ->
   ((forall t, field data "type" <> VStr t) ->
    result p w = Normal (Failure (notAFunction "data.type.toUpperCase")) /\
    store (final p w) = store w) /\
   (forall t, field data "type" = VStr t ->
    (convertibles = false ->
     result p w = Normal (Failure cannotConvert) /\
     store (final p w) = store w) /\
    (convertibles = true ->
     exists td w1,
       transactionDataOf e id data = Normal td /\
       promptFields e id data t = Some td /\
       store w1 = store w /\
       run p w = run (createTransaction e td) w1))).
Proof.
  intros Hauth Huid HfaultU Huser HfaultA Hacc Hgen Hparse Hnull. cbv zeta.
  pose proof (parse_defined _ _ Hparse) as Hdef.
  destruct (transactionDataOf_cases e id data Hnull Hdef) as [Hiff Hok].
  pose proof (prompt_run e prompt w o uid user id acc text data
                Hauth Huid HfaultU Huser HfaultA Hacc Hgen Hparse) as Hrun.
  cbv zeta in Hrun.
  split; [exact Hiff|]. split.
  - intros Hfalsy. apply Hiff in Hfalsy. rewrite Hfalsy in Hrun.
    unfold result, final. rewrite Hrun. split; reflexivity.
  - intros Htruthy. destruct (Hok Htruthy) as [Hother Hstring]. split.
    + intros Hnot. rewrite (Hother Hnot) in Hrun.
      unfold result, final. rewrite Hrun. split; reflexivity.
    + intros t Ht. rewrite (Hstring t Ht) in Hrun |- *. split.
      * intros Hconv. apply (proj2 (promptFields_None e id data t)) in Hconv.
        rewrite Hconv in Hrun.
        unfold result, final. rewrite Hrun. split; reflexivity.
      * intros Hconv.
        destruct (promptFields e id data t) as [td|] eqn:Hfields.
        -- exists td. eexists. split; [reflexivity|]. split; [reflexivity|].
           split; [|exact Hrun]. reflexivity.
        -- apply (proj1 (promptFields_None e id data t)) in Hfields. congruence.
Qed.

Lemma incomplete_iff_falsy_witness :
  let text := Examples.jsonObject
                [("amount", "0"); ("type", quoted "EXPENSE");
                 ("category", quoted "food")] in
  let p := createTransactionFromPrompt (Examples.answering text) "Spent 0 on lunch" in
  let w := Examples.worldWith (Examples.dec 100 0) in
  result p w = Normal (Failure incompleteMessage) /\ store (final p w) = store w.
Proof.
  intros text p w.
  refine (proj1 (proj2 (incomplete_iff_falsy (Examples.answering text)
            "Spent 0 on lunch" w (Some "clerk-alice") "clerk-alice"
            Examples.alice "acc-1" (Examples.accountWith (Examples.dec 100 0))
            text
            (VObj [("amount", VNum zero); ("type", VStr "EXPENSE");
                   ("category", VStr "food")])
            _ _ _ _ _ _ _ _ _)) _);
    try (vm_compute; reflexivity).
  - discriminate.
  - left. vm_compute. reflexivity.
Defined.

(** What the data built by the validation holds. *)
Lemma transactionDataOf_Normal e id data td :
  transactionDataOf e id data = Normal td ->
  accountId td = id /\ isRecurring td = false /\ recurringInterval td = None /\
  category td = field data "category" /\
  description td = (if ToBoolean (field data "description")
                    then field data "description" else field data "category") /\
  NumberOf (field data "amount") = Some (amount td) /\
  (if ToBoolean (field data "date")
   then newDate (dateParse e) (field data "date") = Some (date td)
   else date td = TimeClip (now e)) /\
  ToBoolean (field data "amount") = true /\
  ToBoolean (field data "category") = true /\
  exists t, field data "type" = VStr t /\
            type td = toUpperCase (upperCase e) t /\
            promptFields e id data t = Some td.
Proof.
  unfold transactionDataOf, read, promptFields, field.
  destruct (getProperty data "amount") as [amount'|]; [|discriminate].
  change (default VUndefined (Some amount')) with amount'.
  destruct (ToBoolean amount'); [|discriminate].
  destruct (ToBoolean (default VUndefined (getProperty data "type")));
    [|discriminate].
  destruct (ToBoolean (default VUndefined (getProperty data "category")));
    [|discriminate].
  cbn [negb orb].
  destruct (default VUndefined (getProperty data "type")) as [ | | | |t| | ];
    try discriminate.
  destruct (NumberOf amount') as [x|]; [|discriminate].
  destruct (ToBoolean (default VUndefined (getProperty data "date")));
    [destruct (newDate _ _) as [d|]; [|discriminate]|].
  all: intros H; injection H as <-.
  all: cbn [accountId isRecurring recurringInterval type amount category
              description date mbind option_bind].
  all: repeat (split; [reflexivity|]).
  all: exists t; repeat split; reflexivity.
Qed.

(** C8, as stated, fails: an extracted description that is present but
    empty is replaced by the category. *)
Lemma description_counterexample :
  let text := Examples.jsonObject
                [("type", quoted "expense"); ("amount", "12.5");
                 ("category", quoted "food"); ("description", quoted EmptyString)] in
  let p := createTransactionFromPrompt (Examples.answering text)
             "Spent 12.5 on lunch" in
  exists data s,
    JSON.parse text = Some data /\
    getProperty data "description" = Some (VStr EmptyString) /\
    ~ absent data "description" /\
    result p (Examples.worldWith (Examples.dec 100 0)) = Normal (Success s) /\
    tx_description (row s) = VStr "food".
Proof.
  cbv zeta. eexists _, _.
  split; [vm_compute; reflexivity|]. split; [vm_compute; reflexivity|].
  split; [vm_compute; discriminate|]. split; vm_compute; reflexivity.
Qed.

(** C8, amended. The transaction that [createTransactionFromPrompt]
    hands to the transaction creation targets a default account of the
    caller and is not recurring.  Its type is the extracted type as
    [String.prototype.toUpperCase] returns it: for a type of ASCII
    characters, the type with a-z replaced by A-Z, which a second
    upper-casing leaves as it is; for any other text, what the Unicode
    case mappings of the host give.  Its amount is [Number] of the
    extracted amount.  Its description is the extracted description when
    that is truthy and the category otherwise (absent, null, empty, 0 or
    false); its date is the extracted date, as [new Date] reads it, when
    that is truthy and the current time otherwise.  The hand-over takes
    place only when [Number] and [new Date] do not throw. *)
Theorem prompt_transaction_data e prompt w o uid user id acc text data td :
  auth e = Normal o -> truthyString o = Some uid ->
  dbFault e OpFindUser = None -> findUser (store w) uid = Some user ->
  dbFault e OpFindFirstAccount = None ->
  findDefaultAccount (store w) (user_id user) = Some (id, acc) ->
  generateContent e {| model := geminiModel; inlineData := None;
                       promptText := aiPrompt prompt |} = Normal (Some text) ->
  JSON.parse (trim (removeFences text)) = Some data ->
  transactionDataOf e id data = Normal td ->
  (exists w1, store w1 = store w /\
     run (createTransactionFromPrompt e prompt) w = run (createTransaction e td) w1) /\
  (accountId td = id /\ accounts (store w) !! id = Some acc /\
   account_userId acc = user_id user /\ isDefault acc = true) /\
  (isRecurring td = false /\ recurringInterval td = None) /\
  (exists t, field data "type" = VStr t /\
             type td = toUpperCase (upperCase e) t /\
             (asciiOnly t = true ->
              type td = upperAscii t /\
              toUpperCase (upperCase e) (type td) = type td)) /\
  (NumberOf (field data "amount") = Some (amount td) /\
   convertible (field data "amount") = true) /\
  description td = (if ToBoolean (field data "description")
                    then field data "description" else field data "category") /\
  (if ToBoolean (field data "date")
   then newDate (dateParse e) (field data "date") = Some (date td) /\
        convertible (field data "date") = true
   else date td = TimeClip (now e)).
Proof.
  intros Hauth Huid HfaultU Huser HfaultA Hacc Hgen Hparse Htd.
  pose proof (prompt_run e prompt w o uid user id acc text data
                Hauth Huid HfaultU Huser HfaultA Hacc Hgen Hparse) as Hrun.
  cbv zeta in Hrun. rewrite Htd in Hrun.
  destruct (transactionDataOf_Normal e id data td Htd)
    as (Hid & Hrec & Hint & _ & Hdesc & Hnum & Hdate & _ & _ & t & Htype & Hupper & _).
  split; [eexists; split; [|exact Hrun]; reflexivity|].
  split; [split; [exact Hid | apply findDefaultAccount_Some; exact Hacc]|].
  split; [split; assumption|].
  split.
  { exists t. split; [exact Htype|]. split; [exact Hupper|].
    intros Hascii. rewrite Hupper.
    destruct (toUpperCase_ascii (upperCase e) t Hascii) as [H1 H2]. auto. }
  split.
  { split; [exact Hnum|].
    destruct (convertible (field data "amount")) eqn:Hc; [reflexivity|].
    apply ToNumber_convertible in Hc. unfold NumberOf in Hnum. congruence. }
  split; [exact Hdesc|].
  destruct (ToBoolean (field data "date")); [|exact Hdate].
  split; [exact Hdate|].
  destruct (convertible (field data "date")) eqn:Hc; [reflexivity|].
  apply (newDate_convertible (dateParse e)) in Hc. congruence.
Qed.

(** "Spent 500 on lunch", answered with type expense, amount 500 and
    category food, becomes an expense of 500 on the default account. *)
Lemma prompt_transaction_data_witness :
  let text := Examples.jsonObject
                [("type", quoted "expense"); ("amount", "500");
                 ("category", quoted "food")] in
  let w := Examples.worldWith (Examples.dec 1000 0) in
  exists td w1,
    accountId td = "acc-1" /\ type td = "EXPENSE" /\
    description td = VStr "food" /\ date td = Some 1700000000000%Z /\
    store w1 = store w /\
    run (createTransactionFromPrompt (Examples.answering text) "Spent 500 on lunch") w
    = run (createTransaction (Examples.answering text) td) w1.
Proof.
  intros text w.
  set (data := VObj [("type", VStr "expense"); ("amount", VNum (ofZ 500));
                     ("category", VStr "food")]).
  set (td := {| accountId := "acc-1"; type := "EXPENSE"; amount := ofZ 500;
                category := VStr "food"; description := VStr "food";
                date := Some 1700000000000%Z; isRecurring := false;
                recurringInterval := None |}).
  pose proof (prompt_transaction_data (Examples.answering text)
                "Spent 500 on lunch" w
                (Some "clerk-alice") "clerk-alice" Examples.alice "acc-1"
                (Examples.accountWith (Examples.dec 1000 0)) text data td
                ltac:(reflexivity) ltac:(reflexivity) ltac:(reflexivity)
                ltac:(reflexivity) ltac:(reflexivity)
                ltac:(vm_compute; reflexivity) ltac:(reflexivity)
                ltac:(vm_compute; reflexivity) ltac:(vm_compute; reflexivity))
    as ((w1 & Hstore & Hrun) & _).
  exists td, w1. repeat (split; [reflexivity|]). split; [exact Hstore|exact Hrun].
Defined.

(** ** Receipt extraction *)

Lemma receiptOf_fields e data :
  data <> VNull -> data <> VUndefined ->
  receiptOf e data =
  match receiptFields e data with
  | Some r => Normal r
  | None => Throw cannotConvert
  end.
Proof.
  intros Hn Hu. unfold receiptOf, receiptFields, read.
  rewrite !(getProperty_field data Hn Hu).
  destruct (parseFloat (field data "amount")); [|reflexivity]. cbn.
  destruct (newDate (dateParse e) (field data "date")); reflexivity.
Qed.

(** The receipt is built exactly when both conversions succeed. *)
Lemma receiptFields_None e data :
  receiptFields e data = None <->
  convertible (field data "amount") && convertible (field data "date") = false.
Proof.
  unfold receiptFields. rewrite andb_false_iff.
  rewrite <- parseFloat_convertible, <- (newDate_convertible (dateParse e)).
  destruct (parseFloat (field data "amount")); cbn; [|split; auto].
  destruct (newDate (dateParse e) (field data "date")); cbn; split; auto.
  - discriminate.
  - intros [H | H]; discriminate H.
Qed.

Lemma receiptFields_Some e data r :
  receiptFields e data = Some r ->
  parseFloat (field data "amount") = Some (receipt_amount r) /\
  newDate (dateParse e) (field data "date") = Some (receipt_date r) /\
  receipt_description r = field data "description" /\
  receipt_category r = field data "category" /\
  receipt_merchantName r = field data "merchantName".
Proof.
  unfold receiptFields.
  destruct (parseFloat (field data "amount")); [|discriminate]. cbn.
  destruct (newDate (dateParse e) (field data "date")); [|discriminate]. cbn.
  intros [= <-]. repeat split; reflexivity.
Qed.

(** A text that starts with a letter other than I has no numeric prefix:
    [parseFloat] yields NaN. *)
Lemma parseFloat_letter c s :
  let n := nat_of_ascii c in
  ((65 <= n <= 90)%nat \/ (97 <= n <= 122)%nat) -> n <> 73%nat ->
  parseFloat (VStr (String c s)) = Some NaN.
Proof.
  cbv zeta. intros H1 H2. unfold parseFloat. cbn [ToString fmap option_fmap option_map].
  f_equal.
  destruct c as [[] [] [] [] [] [] [] []]; vm_compute in H1, H2;
    try lia; try reflexivity.
  all: destruct H1 as [[? ?]|[? ?]]; lia.
Qed.

(** Every run of [scanReceipt], case by case. *)
Lemma scanReceipt_cases e file w :
  let p := scanReceipt e file in
  store (final p w) = store w /\
  result p w =
  match arrayBuffer file with
  | Throw _ => Throw scanFailed
  | Normal buffer =>
      match generateContent e (receiptRequest file buffer) with
      | Throw _ | Normal None => Throw scanFailed
      | Normal (Some text) =>
          match JSON.parse (trim (removeFences text)) with
          | None | Some VNull => Throw scanFailed
          | Some data =>
              match receiptFields e data with
              | Some r => Normal r
              | None => Throw scanFailed
              end
          end
      end
  end.
Proof.
  cbv zeta. unfold receiptRequest.
  destruct (arrayBuffer file) as [buffer|m] eqn:Hfile.
  2: { split; to_wp; unfold scanReceipt, scanReceiptBody; exec; reflexivity. }
  destruct (generateContent e _) as [[text|]|m] eqn:Hgen.
  2,3: split; to_wp; unfold scanReceipt, scanReceiptBody; exec; reflexivity.
  destruct (JSON.parse (trim (removeFences text))) as [data|] eqn:Hparse.
  2: { assert (Hjson : parseJSON (trim (removeFences text)) = Throw syntaxError)
         by (unfold parseJSON; rewrite Hparse; reflexivity).
       split; to_wp; unfold scanReceipt, scanReceiptBody; exec; reflexivity. }
  assert (Hjson : parseJSON (trim (removeFences text)) = Normal data)
    by (unfold parseJSON; rewrite Hparse; reflexivity).
  pose proof (parse_defined _ _ Hparse) as Hdef.
  assert (data = VNull \/ data <> VNull) as [->|Hnull]
    by (destruct data; auto; right; discriminate).
  - assert (Hreceipt : receiptOf e VNull = Throw (cannotRead "null" "amount"))
      by reflexivity.
    split; to_wp; unfold scanReceipt, scanReceiptBody; exec; reflexivity.
  - pose proof (receiptOf_fields e data Hnull Hdef) as Hreceipt.
    assert (Hmatch : match data with
                     | VNull => Throw scanFailed
                     | _ => match receiptFields e data with
                            | Some r => Normal r
                            | None => Throw scanFailed
                            end
                     end = match receiptFields e data with
                           | Some r => Normal r
                           | None => Throw scanFailed
                           end)
      by (destruct data; try reflexivity; contradiction).
    rewrite Hmatch.
    destruct (receiptFields e data) as [r|].
    all: split; to_wp; unfold scanReceipt, scanReceiptBody; exec; reflexivity.
Qed.

(** C10, as stated, fails on three counts: the well-formed JSON text
    [null] makes the scan fail; the empty object is returned as a receipt
    whose fields are NaN, Invalid Date and undefined; and the amount text
    [12abc] is read as 12, not as NaN. *)
Lemma scan_counterexample :
  let file := {| arrayBuffer := Normal "image"; fileType := "image/png" |} in
  let w := Examples.worldWith (Examples.dec 100 0) in
  (JSON.parse "null" = Some VNull /\
   result (scanReceipt (Examples.answering "null") file) w = Throw scanFailed) /\
  (JSON.parse "{}" = Some (VObj []) /\
   result (scanReceipt (Examples.answering "{}") file) w
   = Normal {| receipt_amount := NaN; receipt_date := None;
               receipt_description := VUndefined;
               receipt_category := VUndefined;
               receipt_merchantName := VUndefined |}) /\
  (exists r,
     result (scanReceipt
               (Examples.answering (Examples.jsonObject [("amount", quoted "12abc")]))
               file) w = Normal r /\
     receipt_amount r = ofZ 12 /\ receipt_amount r <> NaN).
Proof.
  cbv zeta. split; [split; vm_compute; reflexivity|].
  split; [split; vm_compute; reflexivity|].
  eexists. split; [vm_compute; reflexivity|].
  split; [vm_compute; reflexivity | vm_compute; discriminate].
Qed.

(** Well-formed JSON can also make the scan fail: an amount that is an
    object with a member named [toString] cannot be converted, and
    [parseFloat] throws. *)
Example unconvertible_amount :
  let file := {| arrayBuffer := Normal "image"; fileType := "image/png" |} in
  let text := Examples.jsonObject
                [("amount", Examples.jsonObject [("toString", "0")])] in
  let w := Examples.worldWith (Examples.dec 100 0) in
  JSON.parse text = Some (VObj [("amount", VObj [("toString", VNum zero)])]) /\
  run (scanReceipt (Examples.answering text) file) w
  = (Throw scanFailed,
     {| store := store w;
        trace := [EvArrayBuffer;
                  EvGenerate (receiptRequest file "image");
                  EvLogError "Error scanning receipt:" cannotConvert] |}).
Proof. cbv zeta. split; vm_compute; reflexivity. Qed.

(** C10, amended. [scanReceipt] changes nothing in the store.  It fails,
    with the scan-failed error, exactly when reading the file fails, the
    model call fails or returns no text, the cleaned text is not JSON, it
    is the JSON literal null, or the amount or the date of the parsed
    value cannot be converted to a primitive (an object with a member
    named [toString], or an array that holds one).  For every other JSON
    value it returns the five fields as read from the value, unvalidated:
    an absent field is undefined, the date is [new Date] of its field,
    and the amount is [parseFloat] of its field, which is NaN for an
    absent field and for a text that starts with a letter other than
    I. *)
Theorem scanReceipt_outcome e file w :
  let p := scanReceipt e file in
  let convertibles data :=
    convertible (field data "amount") && convertible (field data "date") in
  store (final p w) = store w /\
  (result p w = Throw scanFailed <->
   (exists m, arrayBuffer file = Throw m) \/
   (exists buffer, arrayBuffer file = Normal buffer /\
      ((exists m, generateContent e (receiptRequest file buffer) = Throw m) \/
       generateContent e (receiptRequest file buffer) = Normal None \/
       exists text,
         generateContent e (receiptRequest file buffer) = Normal (Some text) /\
         (JSON.parse (trim (removeFences text)) = None \/
          JSON.parse (trim (removeFences text)) = Some VNull \/
          exists data,
            JSON.parse (trim (removeFences text)) = Some data /\
            convertibles data = false)))) /\
  (forall buffer text data,
      arrayBuffer file = Normal buffer ->
      generateContent e (receiptRequest file buffer) = Normal (Some text) ->
      JSON.parse (trim (removeFences text)) = Some data ->
      data <> VNull ->
      convertibles data = true ->
      exists r,
        result p w = Normal r /\
        parseFloat (field data "amount") = Some (receipt_amount r) /\
        newDate (dateParse e) (field data "date") = Some (receipt_date r) /\
        receipt_description r = field data "description" /\
        receipt_category r = field data "category" /\
        receipt_merchantName r = field data "merchantName") /\
  parseFloat VUndefined = Some NaN /\
  (forall c s,
      ((65 <= nat_of_ascii c <= 90)%nat \/ (97 <= nat_of_ascii c <= 122)%nat) ->
      nat_of_ascii c <> 73%nat ->
      parseFloat (VStr (String c s)) = Some NaN).
Proof.
  cbv zeta. destruct (scanReceipt_cases e file w) as [Hstore Hresult].
  split; [exact Hstore|]. split; [|split; [|split]].
  - rewrite Hresult. clear Hresult Hstore.
    destruct (arrayBuffer file) as [buffer|m] eqn:Hfile.
    2: { split; [intros _; left; exists m; reflexivity | reflexivity]. }
    destruct (generateContent e (receiptRequest file buffer)) as [[text|]|m] eqn:Hgen.
    2: { split; [intros _; right; exists buffer; split; [reflexivity|];
                 right; left; exact Hgen | reflexivity]. }
    2: { split; [intros _; right; exists buffer; split; [reflexivity|];
                 left; exists m; exact Hgen | reflexivity]. }
    destruct (JSON.parse (trim (removeFences text))) as [data|] eqn:Hparse.
    2: { split; [intros _; right; exists buffer; split; [reflexivity|];
                 right; right; exists text; split; [exact Hgen|];
                 left; exact Hparse | reflexivity]. }
    assert (Hcases : data = VNull \/
              (data <> VNull /\ exists r, receiptFields e data = Some r) \/
              (data <> VNull /\ receiptFields e data = None)).
    { assert (data = VNull \/ data <> VNull) as [-> | Hnull]
        by (destruct data; auto; right; discriminate); [left; reflexivity|].
      right. destruct (receiptFields e data) as [r|] eqn:Hfields;
        [left | right]; split; eauto. }
    destruct Hcases as [-> | [(Hnull & r & Hfields) | (Hnull & Hfields)]].
    + split; [|reflexivity]. intros _. right. exists buffer. split; [reflexivity|].
      right. right. exists text. split; [exact Hgen|]. right. left. exact Hparse.
    + assert (Hmatch : match data with
                       | VNull => Throw scanFailed
                       | _ => match receiptFields e data with
                              | Some r => Normal r
                              | None => Throw scanFailed
                              end
                       end = Normal r)
        by (rewrite Hfields; destruct data; try reflexivity; contradiction).
      rewrite Hmatch. split; [discriminate|].
      intros [[m [=]] | (b & [= <-] & Hcases)].
      rewrite Hgen in Hcases.
      destruct Hcases as [[m [=]] | [[=] | (t & [= <-] & Hjson)]].
      rewrite Hparse in Hjson.
      destruct Hjson as [[=] | [[= ->] | (d & [= <-] & Hconv)]];
        [contradiction|].
      apply (proj2 (receiptFields_None e data)) in Hconv. congruence.
    + assert (Hmatch : match data with
                       | VNull => Throw scanFailed
                       | _ => match receiptFields e data with
                              | Some r => Normal r
                              | None => Throw scanFailed
                              end
                       end = Throw scanFailed)
        by (rewrite Hfields; destruct data; reflexivity).
      rewrite Hmatch. split; [|reflexivity]. intros _.
      right. exists buffer. split; [reflexivity|].
      right. right. exists text. split; [exact Hgen|]. right. right.
      exists data. split; [exact Hparse|].
      apply (proj1 (receiptFields_None e data)). exact Hfields.
  - intros buffer text data Hfile Hgen Hparse Hnull Hconv.
    rewrite Hresult, Hfile, Hgen, Hparse.
    destruct (receiptFields e data) as [r|] eqn:Hfields.
    + exists r. split; [destruct data; try reflexivity; contradiction|].
      apply receiptFields_Some. exact Hfields.
    + apply (proj1 (receiptFields_None e data)) in Hfields. congruence.
  - reflexivity.
  - intros c s. apply parseFloat_letter.
Qed.

Lemma scanReceipt_outcome_witness :
  let file := {| arrayBuffer := Normal "image"; fileType := "image/png" |} in
  let e := Examples.answering (Examples.jsonObject
             [("amount", "12.5"); ("category", quoted "food")]) in
  let w := Examples.worldWith (Examples.dec 100 0) in
  (exists r, result (scanReceipt e file) w = Normal r /\
     parseFloat (VNum (ofDecimal false 125 (-1))) = Some (receipt_amount r) /\
     receipt_category r = VStr "food" /\
     receipt_merchantName r = VUndefined) /\
  parseFloat (VStr "abc") = Some NaN.
Proof.
  intros file e w.
  destruct (scanReceipt_outcome e file w) as (_ & _ & Hreturn & _ & Hnan).
  split.
  - destruct (Hreturn "image"
               (Examples.jsonObject [("amount", "12.5"); ("category", quoted "food")])
               (VObj [("amount", VNum (ofDecimal false 125 (-1)));
                      ("category", VStr "food")])
               ltac:(reflexivity) ltac:(reflexivity)
               ltac:(vm_compute; reflexivity) ltac:(discriminate)
               ltac:(reflexivity))
      as (r & Hr & Hamount & _ & _ & Hcat & Hmerchant).
    exists r. split; [exact Hr|]. split; [exact Hamount|].
    split; [exact Hcat | exact Hmerchant].
  - apply Hnan; vm_compute; [right|]; lia.
Defined.

(** ** Concurrent calls *)

Lemma resume_step {A} i (c c' : Concurrent.pool A * world) :
  Concurrent.resume i c = Some c' -> Concurrent.step c c'.
Proof.
  destruct c as [ts w]. unfold Concurrent.resume. cbn [fst snd].
  destruct (ts !! i) as [[a | X st k]|] eqn:Hi; try discriminate.
  destruct (st w) as [x w'] eqn:Hst. intros [= <-].
  eapply Concurrent.step_call; eassumption.
Qed.

(** What a schedule computes is an interleaving of the calls. *)
Lemma runSchedule_steps {A} schedule (c c' : Concurrent.pool A * world) :
  Concurrent.runSchedule schedule c = Some c' -> Concurrent.steps c c'.
Proof.
  revert c. induction schedule as [|i rest IH]; intros c; simpl.
  - intros [= <-]. constructor.
  - destruct (Concurrent.resume i c) as [c1|] eqn:Hres; [|discriminate].
    intros H. eapply Concurrent.steps_cons; [|apply IH; exact H].
    apply resume_step in Hres. exact Hres.
Qed.

(** A call run alone is one of the interleavings. *)
Lemma run_steps {A} (p : proc A) w :
  Concurrent.steps ([p], w) ([Ret (result p w)], final p w).
Proof.
  revert w. induction p as [a | X st k IH]; intros w.
  - apply Concurrent.steps_refl.
  - unfold result, final. simpl. destruct (st w) as [x w'] eqn:Hst.
    eapply Concurrent.steps_cons; [|apply IH].
    apply (Concurrent.step_call [Await st k] w 0 X st k x w'); [reflexivity|exact Hst].
Qed.

(** C5 does not hold of the code: the balance is read before the unit of
    work and written back as an absolute value.  Two admitted, authorized
    calls on the same account, an income of 10 and an income of 20 on a
    balance of 100, interleave so that both read 100; both succeed, both
    rows are stored, and the balance ends at 120, not at 100 + 10 + 20.
    Run one after the other, the same calls leave 130. *)
Theorem lost_update :
  let w := Examples.worldWith (Examples.dec 100 0) in
  let first := createTransaction Examples.quiet (Examples.dataWith "INCOME" (ofZ 10)) in
  let second := createTransaction Examples.quiet (Examples.dataWith "INCOME" (ofZ 20)) in
  exists r1 r2 w' b,
    Concurrent.steps ([first; second], w)
      ([Ret (Normal (Success r1)); Ret (Normal (Success r2))], w') /\
    map tx_amount (transactions (store w')) = [Examples.dec 1 1; Examples.dec 2 1] /\
    Examples.balanceOf w' = Some b /\
    (PrismaDecimal.toQ b == 120)%Q /\
    ~ (PrismaDecimal.toQ b ==
       PrismaDecimal.toQ (Examples.dec 100 0)
       + JSNumber.toQ (ofZ 10) + JSNumber.toQ (ofZ 20))%Q /\
    Examples.balanceOf (final second (final first w)) = Some (Examples.dec 13 1).
Proof.
  cbv zeta.
  destruct (Concurrent.runSchedule [0; 0; 0; 0; 0; 1; 1; 1; 1; 1; 0; 0; 0; 1; 1; 1]%nat
              ([createTransaction Examples.quiet (Examples.dataWith "INCOME" (ofZ 10));
                createTransaction Examples.quiet (Examples.dataWith "INCOME" (ofZ 20))],
               Examples.worldWith (Examples.dec 100 0)))
    as [[ts w']|] eqn:Hrun; [|vm_compute in Hrun; discriminate Hrun].
  pose proof (runSchedule_steps _ _ _ Hrun) as Hsteps.
  vm_compute in Hrun. injection Hrun as <- <-.
  eexists _, _, _, _. split; [exact Hsteps|].
  split; [vm_compute; reflexivity|]. split; [vm_compute; reflexivity|].
  split; [vm_compute; reflexivity|]. split; [vm_compute; discriminate|].
  vm_compute; reflexivity.
Qed.

(* ===================================================================== *)
(** * Further properties of the actions                                   *)
(* ===================================================================== *)

(** ** Every run of createTransaction *)

(** X1. A caller without an identity ([auth()] answers with a null,
    undefined or empty [userId]) is turned away first: [createTransaction]
    and [createTransactionFromPrompt] both return the failure
    [Unauthorized], and all that has happened is the call to [auth()]: no
    admission check, no look-up, no request to the model, no write. *)
Theorem unauthenticated_calls_stop e w o :
  auth e = Normal o -> truthyString o = None ->
  (forall data,
      run (createTransaction e data) w
      = (Normal (Failure "Unauthorized"), log EvAuth w)) /\
  (forall prompt,
      run (createTransactionFromPrompt e prompt) w
      = (Normal (Failure "Unauthorized"), log EvAuth w)).
Proof.
  intros Hauth Hnone. split; intros x; apply wp_run_eq.
  - unfold createTransaction, createTransactionBody. exec. reflexivity.
  - unfold createTransactionFromPrompt, createTransactionFromPromptBody. exec.
    reflexivity.
Qed.

(** A caller whose [userId] is the empty string. *)
Lemma unauthenticated_calls_stop_witness :
  let e := Examples.withAuth (Normal (Some EmptyString)) Examples.quiet in
  let w := Examples.worldWith (Examples.dec 100 0) in
  run (createTransaction e (Examples.dataWith "INCOME" (ofZ 5))) w
  = (Normal (Failure "Unauthorized"), log EvAuth w) /\
  run (createTransactionFromPrompt e "Spent 5 on tea") w
  = (Normal (Failure "Unauthorized"), log EvAuth w).
Proof.
  intros e w.
  destruct (unauthenticated_calls_stop e w (Some EmptyString)) as [H1 H2];
    [reflexivity | reflexivity |].
  split; [apply H1 | apply H2].
Defined.

Ltac use_answers Hadm Hdb :=
  destruct Hadm as ((?o & ?Hauth & ?Htruthy) & ?Hreq & (?d & ?Hprot & ?Hallow));
  pose proof (Hdb OpFindUser); pose proof (Hdb OpFindAccount);
  pose proof (Hdb OpFindFirstAccount); pose proof (Hdb OpBegin);
  pose proof (Hdb OpCreate); pose proof (Hdb OpUpdate); pose proof (Hdb OpCommit).

(** The run of a request that passes every check. *)
Lemma createTransaction_valid e data w uid user acc amt b :
  passesAdmission e uid -> storeAnswers e ->
  (forall path, revalidateFault e path = None) ->
  accepted data w uid user acc amt b ->
  let row := rowOf e (user_id user) data amt in
  run (createTransaction e data) w =
  (Normal (Success (serializeAmount row)),
   {| store := committed (store w) (accountId data) acc b row;
      trace := trace w ++ commitEvents uid user data acc row ++
               [EvRevalidate "/dashboard";
                EvRevalidate ("/account/" +:+ accountId data)] |}).
Proof.
  intros Hadm Hdb Hrev Hacc. cbv zeta.
  use_answers Hadm Hdb.
  pose proof (Hrev "/dashboard"). pose proof (Hrev ("/account/" +:+ accountId data)).
  destruct Hacc as (Huser & Haccount & Hamt & Hbal).
  destruct (findAccount_Some _ _ _ _ Haccount) as [Hlookup _].
  unfold balanceChange in Hbal.
  apply wp_run_eq. unfold createTransaction, createTransactionBody.
  unfold rowOf, nextRecurringDateOf, commitEvents, balanceChange, committed.
  destruct (String.eqb (type data) "EXPENSE") eqn:Htype.
  all: exec.
  all: cbn [tx_accountId] in *; try congruence.
  all: normalize_world; reflexivity.
Qed.

(** X2. A request that passes every check succeeds.  When the caller is
    identified and let through by the admission check, the store and the
    cache answer without a fault of their own, the caller's user record
    owns the target account, and the amount and the new balance can be
    stored, [createTransaction] returns [{ success: true, data }] with the
    serialized new row, leaves the store with that row appended and the
    balance replaced, and has made exactly these calls, in this order:
    auth, request, protect, the two look-ups, begin, create, update,
    commit, and the revalidation of [/dashboard] and of
    [/account/<accountId>].  The row carries the internal id of the
    caller's user record and the next recurring date of lines 55-58. *)
Theorem valid_request_succeeds e data w uid user acc amt b :
  passesAdmission e uid -> storeAnswers e ->
  (forall path, revalidateFault e path = None) ->
  accepted data w uid user acc amt b ->
  let row := rowOf e (user_id user) data amt in
  run (createTransaction e data) w =
  (Normal (Success (serializeAmount row)),
   {| store := committed (store w) (accountId data) acc b row;
      trace := trace w ++ commitEvents uid user data acc row ++
               [EvRevalidate "/dashboard";
                EvRevalidate ("/account/" +:+ accountId data)] |}).
Proof. apply createTransaction_valid. Qed.

(** An expense of 5 on a balance of 100. *)
Lemma valid_request_succeeds_witness :
  let w := Examples.worldWith (Examples.dec 100 0) in
  let data := Examples.dataWith "EXPENSE" (ofZ 5) in
  exists row,
    run (createTransaction Examples.quiet data) w =
    (Normal (Success (serializeAmount row)),
     {| store := committed (store w) "acc-1" (Examples.accountWith (Examples.dec 100 0))
                   (Examples.dec 95 0) row;
        trace := commitEvents "clerk-alice" Examples.alice data
                   (Examples.accountWith (Examples.dec 100 0)) row ++
                 [EvRevalidate "/dashboard"; EvRevalidate "/account/acc-1"] |}).
Proof.
  intros w data. eexists.
  apply (valid_request_succeeds Examples.quiet data w "clerk-alice" Examples.alice
           (Examples.accountWith (Examples.dec 100 0))
           (Examples.dec 5 0) (Examples.dec 95 0)).
  - split; [eexists; split; reflexivity|].
    split; [reflexivity|]. eexists; split; reflexivity.
  - intros op. reflexivity.
  - intros path. reflexivity.
  - repeat split; vm_compute; reflexivity.
Defined.

(** X3. The result [{ success: false }] does not mean that nothing was
    written.  [revalidatePath] is called inside the [try] block, after the
    unit of work has committed; when it throws, on either path, the call
    returns the failure with the thrown message while the new row and the
    new balance stay in the store. *)
Theorem failure_after_commit e data w uid user acc amt b m :
  passesAdmission e uid -> storeAnswers e ->
  accepted data w uid user acc amt b ->
  revalidateFault e "/dashboard" = Some m \/
  revalidateFault e "/dashboard" = None /\
  revalidateFault e ("/account/" +:+ accountId data) = Some m ->
  let p := createTransaction e data in
  result p w = Normal (Failure m) /\
  store (final p w)
  = committed (store w) (accountId data) acc b (rowOf e (user_id user) data amt).
Proof.
  intros Hadm Hdb Hacc Hrev. cbv zeta.
  use_answers Hadm Hdb.
  destruct Hacc as (Huser & Haccount & Hamt & Hbal).
  destruct (findAccount_Some _ _ _ _ Haccount) as [Hlookup _].
  unfold balanceChange in Hbal.
  to_wp. unfold createTransaction, createTransactionBody.
  unfold rowOf, nextRecurringDateOf, commitEvents, balanceChange, committed.
  destruct (String.eqb (type data) "EXPENSE") eqn:Htype.
  all: destruct Hrev as [Hdash | [Hdash Hacct]].
  all: exec.
  all: cbn [tx_accountId] in *; try congruence.
  all: split; [congruence | reflexivity].
Qed.

(** A cache that fails on every path: the caller is told of a failure, the
    balance went from 100 to 95 and the row is there. *)
Lemma failure_after_commit_witness :
  let e := Examples.withRevalidateFault (fun _ => Some "cache unavailable")
             Examples.quiet in
  let w := Examples.worldWith (Examples.dec 100 0) in
  let p := createTransaction e (Examples.dataWith "EXPENSE" (ofZ 5)) in
  result p w = Normal (Failure "cache unavailable") /\
  Examples.balanceOf (final p w) = Some (Examples.dec 95 0) /\
  length (transactions (store (final p w))) = 1%nat.
Proof.
  intros e w p.
  destruct (failure_after_commit e (Examples.dataWith "EXPENSE" (ofZ 5)) w
              "clerk-alice" Examples.alice
              (Examples.accountWith (Examples.dec 100 0))
              (Examples.dec 5 0) (Examples.dec 95 0) "cache unavailable")
    as [Hres Hstore].
  - split; [eexists; split; reflexivity|].
    split; [reflexivity|]. eexists; split; reflexivity.
  - intros op. reflexivity.
  - repeat split; vm_compute; reflexivity.
  - left. reflexivity.
  - split; [exact Hres|]. fold p in Hstore. rewrite Hstore.
    split; vm_compute; reflexivity.
Defined.

(** The run of a denied call. *)
Lemma createTransaction_denied e data w o uid d :
  auth e = Normal o -> truthyString o = Some uid ->
  request e = Normal tt -> protect e uid = Normal d -> isDenied d = true ->
  run (createTransaction e data) w =
  (Normal (Failure (denialMessage (reason d))),
   {| store := store w;
      trace := trace w ++ [EvAuth; EvRequest; EvProtect uid]
               ++ denialLog (reason d) |}).
Proof.
  intros Hauth Htruthy Hreq Hprot Hden.
  apply wp_run_eq. unfold createTransaction, createTransactionBody. exec.
  all: normalize_world; reflexivity.
Qed.

(** X4. What a denied call logs and returns.  A rate-limit denial logs the
    code RATE_LIMIT_EXCEEDED with the remaining quota and the reset delay,
    once, and returns the fixed message of line 34, which carries neither
    number; any other denial returns [Request blocked] and logs nothing.
    In both cases the run ends there, with the store as it was. *)
Theorem denial_is_logged e data w o uid d :
  auth e = Normal o -> truthyString o = Some uid ->
  request e = Normal tt -> protect e uid = Normal d -> isDenied d = true ->
  run (createTransaction e data) w =
  (Normal (Failure (denialMessage (reason d))),
   {| store := store w;
      trace := trace w ++ [EvAuth; EvRequest; EvProtect uid]
               ++ denialLog (reason d) |}).
Proof. apply createTransaction_denied. Qed.

(** A rate-limit denial with no quota left and a reset in 42 seconds. *)
Lemma denial_is_logged_witness :
  let e := Examples.envWith Examples.rateLimited (Throw "unavailable") in
  let w := Examples.worldWith (Examples.dec 100 0) in
  run (createTransaction e (Examples.dataWith "EXPENSE" (ofZ 5))) w =
  (Normal (Failure rateLimitMessage),
   {| store := store w;
      trace := [EvAuth; EvRequest; EvProtect "clerk-alice";
                EvLogRateLimit "RATE_LIMIT_EXCEEDED" 0 42] |}).
Proof.
  intros e w.
  apply (denial_is_logged e (Examples.dataWith "EXPENSE" (ofZ 5)) w
           (Some "clerk-alice") "clerk-alice" Examples.rateLimited);
    reflexivity.
Defined.

(** X5. The admission check fails closed: when [request()] or
    [aj.protect] itself throws, the call returns the failure with the
    thrown message, the run ends there, and the store has been neither
    read nor written. *)
Theorem admission_errors_fail_closed e data w o uid m :
  auth e = Normal o -> truthyString o = Some uid ->
  let p := createTransaction e data in
  (request e = Throw m ->
   run p w = (Normal (Failure m),
              {| store := store w; trace := trace w ++ [EvAuth; EvRequest] |})) /\
  (request e = Normal tt -> protect e uid = Throw m ->
   run p w = (Normal (Failure m),
              {| store := store w;
                 trace := trace w ++ [EvAuth; EvRequest; EvProtect uid] |})).
Proof.
  intros Hauth Htruthy. cbv zeta. split.
  - intros Hreq. apply wp_run_eq.
    unfold createTransaction, createTransactionBody. exec.
    normalize_world; reflexivity.
  - intros Hreq Hprot. apply wp_run_eq.
    unfold createTransaction, createTransactionBody. exec.
    normalize_world; reflexivity.
Qed.

(** An admission control that cannot be reached. *)
Lemma admission_errors_fail_closed_witness :
  let e := Examples.withProtect (Throw "arcjet unreachable") Examples.quiet in
  let w := Examples.worldWith (Examples.dec 100 0) in
  run (createTransaction e (Examples.dataWith "EXPENSE" (ofZ 5))) w =
  (Normal (Failure "arcjet unreachable"),
   {| store := store w; trace := [EvAuth; EvRequest; EvProtect "clerk-alice"] |}).
Proof.
  intros e w.
  apply (proj2 (admission_errors_fail_closed e (Examples.dataWith "EXPENSE" (ofZ 5)) w
                  (Some "clerk-alice") "clerk-alice" "arcjet unreachable"
                  eq_refl eq_refl));
    reflexivity.
Defined.

(** X6. In every run of [createTransaction] a path is revalidated only
    after the unit of work has committed.  If a revalidation occurs at
    all, the call passed every check, the store holds both writes (the
    row of the call, and the balance that lines 47-48 compute from the
    old one), and the trace is that of the committed call up to and
    including the commit, followed by the revalidation of [/dashboard]
    alone, or of [/dashboard] and then of [/account/<accountId>].  A
    successful run has both revalidations and returns the row it
    wrote. *)
Theorem cache_signal_only_after_commit e data w :
  let p := createTransaction e data in
  let evs := newEvents w (final p w) in
  let dashboard := EvRevalidate "/dashboard" in
  let account := EvRevalidate ("/account/" +:+ accountId data) in
  (forall path, In (EvRevalidate path) evs ->
     exists uid user acc amt b signals,
       accepted data w uid user acc amt b /\
       let row := rowOf e (user_id user) data amt in
       store (final p w) = committed (store w) (accountId data) acc b row /\
       evs = commitEvents uid user data acc row ++ signals /\
       (signals = [dashboard] \/ signals = [dashboard; account])) /\
  (forall s, result p w = Normal (Success s) ->
     exists uid user acc amt b,
       accepted data w uid user acc amt b /\
       let row := rowOf e (user_id user) data amt in
       s = serializeAmount row /\
       store (final p w) = committed (store w) (accountId data) acc b row /\
       evs = commitEvents uid user data acc row ++ [dashboard; account]).
Proof.
  cbv zeta.
  destruct (createTransaction_cases e data w)
    as [(m & Hres & Hstore & Hnone) |
        (o & uid & user & acc & amt & b & _ & _ & Huser & Hacc & Hamt & Hb
         & Hstore & evs & Hevs & Hend)].
  - split.
    + intros path Hin. rewrite forallb_forall in Hnone.
      apply Hnone in Hin. discriminate Hin.
    + intros s Hs. rewrite Hres in Hs. discriminate Hs.
  - assert (Haccepted : accepted data w uid user acc amt b)
      by (split; [exact Huser|]; split; [exact Hacc|]; split; assumption).
    split.
    + intros path _. exists uid, user, acc, amt, b, evs.
      split; [exact Haccepted|]. split; [exact Hstore|]. split; [exact Hevs|].
      destruct Hend as [[_ ->] | (m & _ & [[_ ->] | (_ & _ & ->)])]; auto.
    + intros s Hs.
      destruct Hend as [[Hres ->] | (m & Hres & _)];
        [|rewrite Hres in Hs; discriminate Hs].
      exists uid, user, acc, amt, b.
      split; [exact Haccepted|]. rewrite Hres in Hs. injection Hs as <-.
      split; [reflexivity|]. split; [exact Hstore | exact Hevs].
Qed.

(** A successful call revalidates [/dashboard], so it committed. *)
Lemma cache_signal_only_after_commit_witness :
  let w := Examples.worldWith (Examples.dec 100 0) in
  let data := Examples.dataWith "EXPENSE" (ofZ 5) in
  let p := createTransaction Examples.quiet data in
  In (EvRevalidate "/dashboard") (newEvents w (final p w)) /\
  exists uid user acc amt b signals,
    accepted data w uid user acc amt b /\
    let row := rowOf Examples.quiet (user_id user) data amt in
    store (final p w) = committed (store w) (accountId data) acc b row /\
    newEvents w (final p w) = commitEvents uid user data acc row ++ signals /\
    (signals = [EvRevalidate "/dashboard"] \/
     signals = [EvRevalidate "/dashboard";
                EvRevalidate ("/account/" +:+ accountId data)]).
Proof.
  intros w data p.
  assert (Hin : In (EvRevalidate "/dashboard") (newEvents w (final p w))).
  { vm_compute. repeat (first [left; reflexivity | right]). }
  split; [exact Hin|].
  exact (proj1 (cache_signal_only_after_commit Examples.quiet data w)
           "/dashboard" Hin).
Defined.

(** ** The store over sequences of calls *)

Lemma wp_run {A} (p : proc A) (Q : A -> world -> Prop) w r w' :
  run p w = (r, w') -> Q r w' -> wp p Q w.
Proof. unfold wp. intros ->. auto. Qed.

(** Every run of [createTransactionFromPrompt], in two cases: a failure of
    the extraction itself, which leaves the store as it was and has made
    none but the extraction's own calls, or the run of the delegated
    [createTransaction] on the extracted data. *)
Lemma prompt_cases e prompt w :
  let p := createTransactionFromPrompt e prompt in
  (exists m evs, result p w = Normal (Failure m) /\
     final p w = {| store := store w; trace := trace w ++ evs |} /\
     forallb isPromptEvent evs = true) \/
  exists o uid user id acc text data td,
    auth e = Normal o /\ truthyString o = Some uid /\
    findUser (store w) uid = Some user /\
    findDefaultAccount (store w) (user_id user) = Some (id, acc) /\
    generateContent e (promptRequest prompt) = Normal (Some text) /\
    JSON.parse (trim (removeFences text)) = Some data /\
    transactionDataOf e id data = Normal td /\
    let w1 := {| store := store w; trace := trace w ++ promptEvents uid user prompt |} in
    result p w = result (createTransaction e td) w1 /\
    final p w = final (createTransaction e td) w1.
Proof.
  cbv zeta. to_wp.
  unfold createTransactionFromPrompt, createTransactionFromPromptBody. exec.
  all: normalize_world.
  all: try (left; eexists _, _; split; [reflexivity|]; split; reflexivity).
  destruct a1 as [text|]; [|discriminate E7]. injection E7 as <-.
  unfold parsePromptJSON, parseJSON in E8.
  destruct (JSON.parse (trim (removeFences text))) as [data|] eqn:Hparse;
    [|discriminate E8]. injection E8 as <-.
  match goal with |- wp ?p _ ?w1 =>
    destruct (createTransaction_returns e a4 w1) as [r Hr];
    apply (wp_run p _ w1 (Normal r) (final p w1))
  end.
  { rewrite <- Hr. unfold result, final. apply surjective_pairing. }
  right. exists a, s, u, s0, a0, text, data, a4.
  unfold promptEvents, promptRequest.
  repeat (split; [first [reflexivity | assumption | symmetry; exact Hr]|]).
  reflexivity.
Qed.

Lemma extends_refl s : extends s s.
Proof. split; [reflexivity|]. split; [reflexivity|]. exists []. by rewrite app_nil_r. Qed.

Lemma extends_trans s1 s2 s3 : extends s1 s2 -> extends s2 s3 -> extends s1 s3.
Proof.
  intros (Hu1 & Ha1 & rows1 & Hr1) (Hu2 & Ha2 & rows2 & Hr2).
  split; [congruence|]. split.
  - intros id. rewrite Ha2. apply Ha1.
  - exists (rows1 ++ rows2). rewrite Hr2, Hr1. by rewrite app_assoc.
Qed.

Lemma extends_committed s id acc b row :
  accounts s !! id = Some acc -> extends s (committed s id acc b row).
Proof.
  intros Hacc. split; [reflexivity|]. split; [|exists [row]; reflexivity].
  intros id'. cbn [committed accounts].
  destruct (decide (id = id')) as [<-|Hne].
  - rewrite lookup_insert_eq, Hacc. reflexivity.
  - rewrite lookup_insert_ne by exact Hne. reflexivity.
Qed.

Lemma rowOwned_committed s id acc b row r :
  accounts s !! id = Some acc ->
  rowOwned (committed s id acc b row) r = rowOwned s r.
Proof.
  intros Hacc. unfold rowOwned. cbn [committed accounts].
  destruct (decide (id = tx_accountId r)) as [<-|Hne].
  - rewrite lookup_insert_eq, Hacc. reflexivity.
  - rewrite lookup_insert_ne by exact Hne. reflexivity.
Qed.

Lemma rowsOwned_committed s id acc b row :
  accounts s !! id = Some acc ->
  tx_accountId row = id -> tx_userId row = account_userId acc ->
  rowsOwned s = true -> rowsOwned (committed s id acc b row) = true.
Proof.
  intros Hacc Hid Huid Hown. unfold rowsOwned. cbn [committed transactions].
  rewrite forallb_app. apply andb_true_intro. split.
  - rewrite <- Hown. unfold rowsOwned. clear Hown.
    induction (transactions s) as [|r rows IH]; [reflexivity|].
    cbn [forallb]. rewrite IH.
    by rewrite (rowOwned_committed s id acc b row r Hacc).
  - cbn [forallb]. rewrite andb_true_r.
    rewrite (rowOwned_committed s id acc b row row Hacc).
    unfold rowOwned. rewrite Hid, Hacc, Huid. apply String.eqb_refl.
Qed.

Lemma createTransaction_keeps e data w :
  let s' := store (final (createTransaction e data) w) in
  extends (store w) s' /\ (rowsOwned (store w) = true -> rowsOwned s' = true).
Proof.
  cbv zeta.
  destruct (createTransaction_cases e data w)
    as [(m & _ & -> & _) |
        (o & uid & user & acc & amt & b & _ & _ & _ & Hacc & _ & _ & -> & _)].
  - split; [apply extends_refl | auto].
  - apply findAccount_Some in Hacc as [Hacc Howner]. split.
    + apply extends_committed. exact Hacc.
    + apply rowsOwned_committed; [exact Hacc | reflexivity |].
      cbn [rowOf tx_userId]. symmetry. exact Howner.
Qed.

Lemma after_keeps c w :
  extends (store w) (store (after c w)) /\
  (rowsOwned (store w) = true -> rowsOwned (store (after c w)) = true).
Proof.
  destruct c as [e data | e prompt | e file]; cbn [after].
  - apply createTransaction_keeps.
  - destruct (prompt_cases e prompt w)
      as [(m & evs & _ & -> & _) |
          (o & uid & user & id & acc & text & data & td & _ & _ & _ & _ & _ & _ & _
           & _ & ->)].
    + split; [apply extends_refl | auto].
    + apply (createTransaction_keeps e td
               {| store := store w; trace := trace w ++ promptEvents uid user prompt |}).
  - destruct (scanReceipt_cases e file w) as [-> _].
    split; [apply extends_refl | auto].
Qed.

(** X7. Whatever sequence of calls of the three actions is made, with
    whatever environments and arguments, the store ends as an extension of
    the store it started from: the users are the same, the accounts are
    the same with the same owners and default flags (balances alone
    change), and the rows that were there are still there, in the same
    order, followed by the new ones.  No call deletes or rewrites a row,
    adds or removes an account, or hands an account to another user. *)
Theorem stores_only_grow calls w :
  extends (store w) (store (afterAll calls w)).
Proof.
  revert w. induction calls as [|c calls IH]; intros w; cbn [afterAll foldl].
  - apply extends_refl.
  - eapply extends_trans; [apply (after_keeps c w)|]. apply IH.
Qed.

(** X8. The ownership check of lines 39-45 keeps rows with their owners:
    if every row of the store is on an existing account that belongs to
    the row's user, then so it is after any sequence of calls of the three
    actions. *)
Theorem rows_stay_owned calls w :
  rowsOwned (store w) = true -> rowsOwned (store (afterAll calls w)) = true.
Proof.
  revert w. induction calls as [|c calls IH]; intros w Hown; cbn [afterAll foldl].
  - exact Hown.
  - apply IH. apply (after_keeps c w). exact Hown.
Qed.

(** Two calls in a row on a store without rows. *)
Lemma rows_stay_owned_witness :
  let w := Examples.worldWith (Examples.dec 100 0) in
  let calls := [CallCreate Examples.quiet (Examples.dataWith "EXPENSE" (ofZ 5));
                CallCreate Examples.quiet (Examples.dataWith "INCOME" (ofZ 7))] in
  length (transactions (store (afterAll calls w))) = 2%nat /\
  rowsOwned (store (afterAll calls w)) = true.
Proof.
  intros w calls. split; [vm_compute; reflexivity|].
  apply (rows_stay_owned calls w). reflexivity.
Defined.

(** ** Every run of createTransactionFromPrompt *)

Lemma findDefaultAccount_None s uid :
  findDefaultAccount s uid = None <->
  forall id acc, accounts s !! id = Some acc -> account_userId acc = uid ->
                 isDefault acc = false.
Proof.
  unfold findDefaultAccount. split.
  - intros Hnone id acc Hacc Howner.
    apply elem_of_map_to_list in Hacc.
    apply list_elem_of_In in Hacc.
    pose proof (find_none _ _ Hnone _ Hacc) as H. cbn in H.
    rewrite Howner, String.eqb_refl in H. exact H.
  - intros Hall.
    destruct (find _ _) as [[id acc]|] eqn:Hfind; [|reflexivity].
    apply find_some in Hfind as [Hin Htest].
    apply list_elem_of_In, elem_of_map_to_list in Hin.
    apply andb_prop in Htest as [Howner Hdef].
    apply String.eqb_eq in Howner.
    rewrite (Hall id acc Hin Howner) in Hdef. discriminate.
Qed.

(** X9. Prompt extraction for a caller without a user record fails with
    [User not found], and for a caller none of whose accounts is flagged
    as default with [No default account found].  In both cases the model
    has not been asked, no admission check has been made and the store is
    as before. *)
Theorem prompt_lookup_failures e prompt w o uid :
  auth e = Normal o -> truthyString o = Some uid ->
  dbFault e OpFindUser = None ->
  let p := createTransactionFromPrompt e prompt in
  (findUser (store w) uid = None ->
   run p w = (Normal (Failure "User not found"),
              {| store := store w; trace := trace w ++ [EvAuth; EvFindUser uid] |})) /\
  (forall user,
      findUser (store w) uid = Some user ->
      dbFault e OpFindFirstAccount = None ->
      (forall id acc, accounts (store w) !! id = Some acc ->
                      account_userId acc = user_id user -> isDefault acc = false) ->
      run p w = (Normal (Failure "No default account found"),
                 {| store := store w;
                    trace := trace w ++ [EvAuth; EvFindUser uid;
                                         EvFindFirstAccount (user_id user)] |})).
Proof.
  intros Hauth Htruthy Hfault. cbv zeta. split.
  - intros Huser. apply wp_run_eq.
    unfold createTransactionFromPrompt, createTransactionFromPromptBody. exec.
    normalize_world. reflexivity.
  - intros user Huser Hfault' Hnone. apply findDefaultAccount_None in Hnone.
    apply wp_run_eq.
    unfold createTransactionFromPrompt, createTransactionFromPromptBody. exec.
    normalize_world. reflexivity.
Qed.

(** A caller whose only account is not the default one. *)
Lemma prompt_lookup_failures_witness :
  let w := {| store := Examples.storeWithoutDefault (Examples.dec 100 0); trace := [] |} in
  run (createTransactionFromPrompt Examples.quiet "Spent 500 on lunch") w
  = (Normal (Failure "No default account found"),
     {| store := store w;
        trace := [EvAuth; EvFindUser "clerk-alice"; EvFindFirstAccount "user-1"] |}).
Proof.
  intros w.
  apply (proj2 (prompt_lookup_failures Examples.quiet "Spent 500 on lunch" w
                  (Some "clerk-alice") "clerk-alice" eq_refl eq_refl eq_refl)
           Examples.alice);
    [reflexivity | reflexivity |].
  intros id acc Hacc _. cbn in Hacc.
  apply lookup_singleton_Some in Hacc as [_ <-]. reflexivity.
Defined.

(** X10. When the model fails, prompt extraction returns a failure and
    writes nothing: an error thrown by the model comes back with its own
    message, an answer without text with the message of the TypeError on
    [text.replace], and a text that, once cleaned, is not JSON with
    [Could not parse transaction details from prompt].  The run ends after
    the request to the model; no admission check is made. *)
Theorem prompt_oracle_failures e prompt w o uid user id acc :
  auth e = Normal o -> truthyString o = Some uid ->
  dbFault e OpFindUser = None -> findUser (store w) uid = Some user ->
  dbFault e OpFindFirstAccount = None ->
  findDefaultAccount (store w) (user_id user) = Some (id, acc) ->
  let p := createTransactionFromPrompt e prompt in
  let answer := generateContent e (promptRequest prompt) in
  let w1 := {| store := store w; trace := trace w ++ promptEvents uid user prompt |} in
  (forall m, answer = Throw m -> run p w = (Normal (Failure m), w1)) /\
  (answer = Normal None ->
   run p w = (Normal (Failure (cannotRead "undefined" "replace")), w1)) /\
  (forall text, answer = Normal (Some text) ->
                JSON.parse (trim (removeFences text)) = None ->
   run p w = (Normal (Failure "Could not parse transaction details from prompt"), w1)).
Proof.
  intros Hauth Htruthy HfaultU Huser HfaultA Hdefault. cbv zeta.
  unfold promptRequest, promptEvents.
  split; [|split].
  - intros m Hgen. apply wp_run_eq.
    unfold createTransactionFromPrompt, createTransactionFromPromptBody. exec.
    normalize_world. reflexivity.
  - intros Hgen. apply wp_run_eq.
    unfold createTransactionFromPrompt, createTransactionFromPromptBody. exec.
    normalize_world. reflexivity.
  - intros text Hgen Hparse.
    assert (Hjson : parsePromptJSON (trim (removeFences text))
                    = Throw "Could not parse transaction details from prompt")
      by (unfold parsePromptJSON, parseJSON; rewrite Hparse; reflexivity).
    apply wp_run_eq.
    unfold createTransactionFromPrompt, createTransactionFromPromptBody. exec.
    normalize_world. reflexivity.
Qed.

(** The model answers in prose. *)
Lemma prompt_oracle_failures_witness :
  let w := Examples.worldWith (Examples.dec 100 0) in
  let e := Examples.answering "Sorry, I cannot help with that." in
  run (createTransactionFromPrompt e "Spent 500 on lunch") w
  = (Normal (Failure "Could not parse transaction details from prompt"),
     {| store := store w;
        trace := promptEvents "clerk-alice" Examples.alice "Spent 500 on lunch" |}).
Proof.
  intros w e.
  apply (proj2 (proj2 (prompt_oracle_failures e "Spent 500 on lunch" w
                         (Some "clerk-alice") "clerk-alice" Examples.alice "acc-1"
                         (Examples.accountWith (Examples.dec 100 0))
                         eq_refl eq_refl eq_refl eq_refl eq_refl
                         ltac:(vm_compute; reflexivity)))
           "Sorry, I cannot help with that.");
    [reflexivity | vm_compute; reflexivity].
Defined.

(** X11. In [createTransactionFromPrompt] the admission check comes last:
    it is made inside the delegated [createTransaction], after the user
    and default-account look-ups and after the request to the model.  A
    caller whom the admission control denies has by then read the store
    and used a call to the model; the run ends with the denial as in X4
    and writes nothing. *)
Theorem prompt_denied_after_oracle e prompt w o uid user id acc text data td d :
  auth e = Normal o -> truthyString o = Some uid ->
  dbFault e OpFindUser = None -> findUser (store w) uid = Some user ->
  dbFault e OpFindFirstAccount = None ->
  findDefaultAccount (store w) (user_id user) = Some (id, acc) ->
  generateContent e (promptRequest prompt) = Normal (Some text) ->
  JSON.parse (trim (removeFences text)) = Some data ->
  transactionDataOf e id data = Normal td ->
  request e = Normal tt -> protect e uid = Normal d -> isDenied d = true ->
  let evs := promptEvents uid user prompt ++ [EvAuth; EvRequest; EvProtect uid]
             ++ denialLog (reason d) in
  run (createTransactionFromPrompt e prompt) w
  = (Normal (Failure (denialMessage (reason d))),
     {| store := store w; trace := trace w ++ evs |}) /\
  admissionFirst false evs = false.
Proof.
  intros Hauth Htruthy HfaultU Huser HfaultA Hdefault Hgen Hparse Htd Hreq Hprot Hden.
  cbv zeta. split; [|reflexivity].
  rewrite (prompt_run e prompt w o uid user id acc text data
             Hauth Htruthy HfaultU Huser HfaultA Hdefault Hgen Hparse).
  rewrite Htd.
  rewrite (createTransaction_denied e td _ o uid d Hauth Htruthy Hreq Hprot Hden).
  cbn [store trace]. unfold promptEvents, promptRequest.
  rewrite <- !app_assoc. reflexivity.
Qed.

(** A rate-limited caller: the model has been asked before the denial. *)
Lemma prompt_denied_after_oracle_witness :
  let e := Examples.envWith Examples.rateLimited (Normal (Some Examples.lunchText)) in
  let w := Examples.worldWith (Examples.dec 1000 0) in
  run (createTransactionFromPrompt e "Spent 500 on lunch") w
  = (Normal (Failure rateLimitMessage),
     {| store := store w;
        trace := promptEvents "clerk-alice" Examples.alice "Spent 500 on lunch" ++
                 [EvAuth; EvRequest; EvProtect "clerk-alice";
                  EvLogRateLimit "RATE_LIMIT_EXCEEDED" 0 42] |}).
Proof.
  intros e w.
  exact (proj1 (prompt_denied_after_oracle e "Spent 500 on lunch" w
                  (Some "clerk-alice") "clerk-alice" Examples.alice "acc-1"
                  (Examples.accountWith (Examples.dec 1000 0)) Examples.lunchText
                  Examples.lunchData Examples.lunch Examples.rateLimited
                  eq_refl eq_refl eq_refl eq_refl eq_refl
                  ltac:(vm_compute; reflexivity) eq_refl
                  ltac:(vm_compute; reflexivity) ltac:(vm_compute; reflexivity)
                  eq_refl eq_refl eq_refl)).
Defined.

Lemma findAccount_default s uid id acc :
  findDefaultAccount s uid = Some (id, acc) -> findAccount s id uid = Some acc.
Proof.
  intros H. apply findDefaultAccount_Some in H as (Hacc & Howner & _).
  unfold findAccount. rewrite Hacc, Howner, String.eqb_refl. reflexivity.
Qed.

(** Every run of [createTransactionFromPrompt] returns a result, in two
    cases: a failure that leaves the store as it was, or a run in which
    the extraction built the data [td] and the delegated call passed
    every check and committed the row for [td] and the balance computed
    from the old one, on the account that line 146 looked up. *)
Lemma prompt_outcomes e prompt w :
  let p := createTransactionFromPrompt e prompt in
  (exists m, result p w = Normal (Failure m) /\ store (final p w) = store w) \/
  exists uid user id acc td amt b,
    extracted e prompt w uid user id acc td /\
    accepted td w uid user acc amt b /\
    let row := rowOf e (user_id user) td amt in
    store (final p w) = committed (store w) id acc b row /\
    (result p w = Normal (Success (serializeAmount row)) \/
     exists m, result p w = Normal (Failure m)).
Proof.
  cbv zeta.
  destruct (prompt_cases e prompt w)
    as [(m & evs & Hres & -> & _) |
        (o & uid & user & id & acc & text & data & td & Hauth & Htruthy & Huser
         & Hdefault & Hgen & Hparse & Htd & Hres & Hfinal)];
    [left; exists m; split; [exact Hres | reflexivity]|].
  rewrite Hres, Hfinal.
  destruct (transactionDataOf_Normal _ _ _ _ Htd) as (Hid & _).
  match goal with |- context [final _ ?w1] =>
    destruct (createTransaction_cases e td w1)
      as [(m & Hres' & -> & _) |
          (o' & uid' & user' & acc' & amt & b & Hauth' & Htruthy' & Huser' & Hacc'
           & Hamt & Hb & Hstore & evs & _ & Hend)]
  end; [left; exists m; split; [exact Hres' | reflexivity]|].
  right. cbn [store] in *.
  rewrite Hauth in Hauth'. injection Hauth' as <-.
  rewrite Htruthy in Htruthy'. injection Htruthy' as <-.
  rewrite Huser in Huser'. injection Huser' as <-.
  pose proof (findAccount_default _ _ _ _ Hdefault) as Hacc.
  rewrite Hid, Hacc in Hacc'. injection Hacc' as <-.
  exists uid, user, id, acc, td, amt, b.
  split.
  { split; [exists o; split; assumption|]. split; [exact Huser|].
    split; [exact Hdefault|]. exists text, data. repeat split; assumption. }
  split.
  { split; [exact Huser|]. split; [rewrite Hid; exact Hacc|]. split; assumption. }
  split; [rewrite Hstore, Hid; reflexivity|].
  destruct Hend as [[-> _] | (m & -> & _)]; [left; reflexivity | right; eauto].
Qed.

(** X12. In every run, [createTransactionFromPrompt] leaves the store as
    it was or with both writes on the account that the look-up of line
    146 returned for the caller, which is flagged as default and belongs
    to the caller's user record.  In the second case the extraction built
    the data [td] from the model's answer, and the two writes are those
    of [createTransaction] on [td]: the row of [td], and the balance that
    lines 47-48 compute from the account's old balance and the amount of
    [td].  The row is on that account, belongs to the caller's user
    record, is not recurring and has no next recurring date. *)
Theorem prompt_writes_default_account e prompt w :
  let p := createTransactionFromPrompt e prompt in
  store (final p w) = store w \/
  exists uid user id acc td amt b,
    extracted e prompt w uid user id acc td /\
    accepted td w uid user acc amt b /\
    let row := rowOf e (user_id user) td amt in
    store (final p w) = committed (store w) id acc b row /\
    isDefault acc = true /\ account_userId acc = user_id user /\
    tx_accountId row = id /\ tx_userId row = user_id user /\
    tx_isRecurring row = false /\ tx_nextRecurringDate row = None.
Proof.
  cbv zeta.
  destruct (prompt_outcomes e prompt w)
    as [(m & _ & Hsame) |
        (uid & user & id & acc & td & amt & b & Hext & Hacc & Hstore & _)];
    [left; exact Hsame|].
  right. exists uid, user, id, acc, td, amt, b.
  split; [exact Hext|]. split; [exact Hacc|]. split; [exact Hstore|].
  destruct Hext as (_ & _ & Hdefault & text & data & _ & _ & Htd).
  apply findDefaultAccount_Some in Hdefault as (_ & Howner & Hdef).
  destruct (transactionDataOf_Normal _ _ _ _ Htd) as (Hid & Hrec & _).
  unfold rowOf, nextRecurringDateOf.
  cbn [tx_accountId tx_userId tx_isRecurring tx_nextRecurringDate].
  rewrite Hrec. repeat (split; [first [reflexivity | assumption]|]). reflexivity.
Qed.

(** X13. End to end.  When the model's answer, once cleaned, parses to a
    value from which lines 185-197 build the transaction data [td]
    without an error, and the delegated call passes every check, prompt
    extraction returns success, the store holds the row for [td] on the
    default account and the new balance of that account, and the trace is
    the extraction's four calls followed by those of the delegated call,
    which identifies the caller a second time.  The row is not recurring.
    Its type is what [toUpperCase] makes of the extracted type, and its
    amount the number to which [Number] converts the extracted amount:
    the amount is subtracted exactly when that upper case is EXPENSE, and
    added otherwise.  For an extracted type in plain ASCII the upper case
    is the letter-by-letter one. *)
Theorem valid_prompt_succeeds e prompt w uid user id acc text data td amt b :
  passesAdmission e uid -> storeAnswers e ->
  (forall path, revalidateFault e path = None) ->
  findUser (store w) uid = Some user ->
  findDefaultAccount (store w) (user_id user) = Some (id, acc) ->
  generateContent e (promptRequest prompt) = Normal (Some text) ->
  JSON.parse (trim (removeFences text)) = Some data ->
  transactionDataOf e id data = Normal td ->
  ofNumber (amount td) = Some amt ->
  ofNumber (add (toNumber (balance acc)) (balanceChange td)) = Some b ->
  let row := rowOf e (user_id user) td amt in
  run (createTransactionFromPrompt e prompt) w =
  (Normal (Success (serializeAmount row)),
   {| store := committed (store w) id acc b row;
      trace := trace w ++ promptEvents uid user prompt ++
               commitEvents uid user td acc row ++
               [EvRevalidate "/dashboard"; EvRevalidate ("/account/" +:+ id)] |}) /\
  tx_accountId row = id /\ tx_isRecurring row = false /\
  tx_nextRecurringDate row = None /\
  exists t x,
    field data "type" = VStr t /\ NumberOf (field data "amount") = Some x /\
    tx_type row = toUpperCase (upperCase e) t /\
    (asciiOnly t = true -> tx_type row = upperAscii t) /\
    balanceChange td =
    if String.eqb (toUpperCase (upperCase e) t) "EXPENSE" then neg x else x.
Proof.
  intros Hadm Hdb Hrev Huser Hdefault Hgen Hparse Htd Hamt Hbal. cbv zeta.
  destruct (transactionDataOf_Normal _ _ _ _ Htd)
    as (Hid & Hrec & Hint & _ & _ & Hnum & _ & _ & _ & t & Htype & Hupper & _).
  split; [|split; [exact Hid|]; split; [exact Hrec|]; split].
  - destruct Hadm as ((o & Hauth & Htruthy) & Hreq & Hprot) eqn:Hadm'.
    rewrite (prompt_run e prompt w o uid user id acc text data
               Hauth Htruthy (Hdb OpFindUser) Huser (Hdb OpFindFirstAccount)
               Hdefault Hgen Hparse).
    rewrite Htd. clear Hadm'.
    rewrite (createTransaction_valid e td _ uid user acc amt b
               (conj (ex_intro _ o (conj Hauth Htruthy)) (conj Hreq Hprot)) Hdb Hrev).
    + cbn [store trace]. rewrite Hid. unfold promptEvents, promptRequest.
      rewrite <- !app_assoc. reflexivity.
    + split; [exact Huser|]. split; [|split; assumption].
      cbn [store]. rewrite Hid. apply findAccount_default. exact Hdefault.
  - unfold rowOf, nextRecurringDateOf. cbn [tx_nextRecurringDate]. rewrite Hrec.
    reflexivity.
  - exists t, (amount td). split; [exact Htype|]. split; [exact Hnum|].
    split; [exact Hupper|]. split.
    + intros Hascii. cbn [rowOf tx_type]. rewrite Hupper.
      apply toUpperCase_ascii. exact Hascii.
    + unfold balanceChange. rewrite Hupper. reflexivity.
Qed.

(** [Spent 500 on lunch], answered with the type in lower case: the balance
    goes from 1000 to 500 and the row is an EXPENSE. *)
Lemma valid_prompt_succeeds_witness :
  let e := Examples.answering Examples.lunchText in
  let w := Examples.worldWith (Examples.dec 1000 0) in
  let p := createTransactionFromPrompt e "Spent 500 on lunch" in
  Examples.balanceOf (final p w) = Some (Examples.dec 5 2) /\
  map tx_type (transactions (store (final p w))) = ["EXPENSE"].
Proof.
  intros e w p.
  destruct (valid_prompt_succeeds e "Spent 500 on lunch" w "clerk-alice"
              Examples.alice "acc-1" (Examples.accountWith (Examples.dec 1000 0))
              Examples.lunchText Examples.lunchData Examples.lunch
              (Examples.dec 5 2) (Examples.dec 5 2)) as (Hrun & _).
  - split; [eexists; split; reflexivity|].
    split; [reflexivity|]. eexists; split; reflexivity.
  - intros op. reflexivity.
  - intros path. reflexivity.
  - reflexivity.
  - vm_compute. reflexivity.
  - reflexivity.
  - vm_compute. reflexivity.
  - vm_compute. reflexivity.
  - vm_compute. reflexivity.
  - vm_compute. reflexivity.
  - unfold p, final. rewrite Hrun. split; vm_compute; reflexivity.
Defined.

(** ** What scanReceipt touches *)

(** X14. [scanReceipt] reads the file, asks the model at most once and
    logs errors; it never identifies the caller, never asks the admission
    control and never accesses the store.  Every run has one of three
    traces.  When reading the file fails, the model is not asked: the
    run reads the file, logs the error and throws.  When the file is
    read, the run sends exactly one request, which holds the base64 text
    of the file's bytes and the file's media type, and then either
    returns, or logs one error and throws.  Whenever it throws, the last
    thing it did was to log the error under the label
    [Error scanning receipt:], and the error thrown is
    [Failed to scan receipt]. *)
Theorem scanReceipt_events e file w :
  let p := scanReceipt e file in
  let evs := newEvents w (final p w) in
  store (final p w) = store w /\
  forallb isScanEvent evs = true /\
  match arrayBuffer file with
  | Throw m =>
      result p w = Throw "Failed to scan receipt" /\
      evs = [EvArrayBuffer; EvLogError "Error scanning receipt:" m]
  | Normal buffer =>
      let asked := EvGenerate (receiptRequest file buffer) in
      (exists r, result p w = Normal r /\ evs = [EvArrayBuffer; asked]) \/
      (exists cause,
         result p w = Throw "Failed to scan receipt" /\
         evs = [EvArrayBuffer; asked; EvLogError "Error scanning receipt:" cause])
  end.
Proof.
  cbv zeta. to_wp. unfold scanReceipt, scanReceiptBody. exec.
  all: normalize_world; rewrite newEvents_app.
  all: split; [reflexivity|]; split; [reflexivity|].
  all: try match goal with
       | H : arrayBuffer _ = _ |- _ => rewrite H
       end.
  all: cbv zeta.
  all: first [ split; reflexivity
             | left; eexists; split; reflexivity
             | right; eexists; split; reflexivity ].
Qed.

(** A file that cannot be read. *)
Lemma scanReceipt_events_witness :
  let file := {| arrayBuffer := Throw "file too large"; fileType := "image/png" |} in
  let w := Examples.worldWith (Examples.dec 100 0) in
  newEvents w (final (scanReceipt Examples.quiet file) w)
  = [EvArrayBuffer; EvLogError "Error scanning receipt:" "file too large"].
Proof.
  intros file w.
  exact (proj2 (proj2 (proj2 (scanReceipt_events Examples.quiet file w)))).
Defined.

(** ** Code fences in the model's answer *)

Lemma fenceMatch_other c s :
  Ascii.eqb c backtick = false -> fenceMatch (String c s) = None.
Proof.
  intros H. unfold fenceMatch, fence. cbn.
  destruct (ascii_dec (chr 96) c) as [Heq|Hne]; [|reflexivity].
  subst c. discriminate H.
Qed.

Lemma removeFences_app body rest :
  backtickFree body = true ->
  removeFencesFrom 0 (body +:+ rest) = body +:+ removeFencesFrom 0 rest.
Proof.
  induction body as [|c body IH]; intros H; [reflexivity|].
  cbn [backtickFree] in H. apply andb_prop in H as [Hc Hbody].
  apply negb_true_iff in Hc.
  change (String c body +:+ rest) with (String c (body +:+ rest)).
  cbn [removeFencesFrom]. rewrite (fenceMatch_other c _ Hc).
  rewrite (IH Hbody). reflexivity.
Qed.

Lemma append_empty s : s +:+ EmptyString = s.
Proof.
  induction s as [|c s IH]; [reflexivity|].
  change (String c (s +:+ EmptyString) = String c s). by rewrite IH.
Qed.

Lemma removeFences_opener rest :
  removeFencesFrom 0 (fence +:+ "json" +:+ newline +:+ rest) = removeFencesFrom 0 rest /\
  removeFencesFrom 0 (fence +:+ newline +:+ rest) = removeFencesFrom 0 rest.
Proof. destruct rest; split; reflexivity. Qed.

(** X15. The cleaning of lines 121 and 177 unwraps a fenced answer.  For
    a body without backticks, behind an opening fence with or without the
    [json] tag and followed by a line feed, and before a closing fence
    with or without a line feed (or with no fence on either side), the
    cleaned text is the trimmed body. *)
Theorem fenced_answer_unwrapped body opener closer :
  backtickFree body = true ->
  In opener [fence +:+ "json" +:+ newline; fence +:+ newline; EmptyString] ->
  In closer [fence; fence +:+ newline; EmptyString] ->
  cleanText (Some (opener +:+ body +:+ closer)) = Normal (trim body).
Proof.
  intros Hbody Hopener Hcloser. unfold cleanText, removeFences. do 2 f_equal.
  assert (Hrest : removeFencesFrom 0 (body +:+ closer) = body).
  { rewrite (removeFences_app body closer Hbody).
    cbn in Hcloser. destruct Hcloser as [<- | [<- | [<- | []]]].
    all: change (removeFencesFrom 0 _) with EmptyString; apply append_empty. }
  cbn in Hopener. destruct Hopener as [<- | [<- | [<- | []]]].
  - rewrite <- Hrest at 2. apply (proj1 (removeFences_opener (body +:+ closer))).
  - rewrite <- Hrest at 2. apply (proj2 (removeFences_opener (body +:+ closer))).
  - exact Hrest.
Qed.

(** The usual form of an answer: the object on a line of its own between
    the fences. *)
Lemma fenced_answer_unwrapped_witness :
  let body := "{" +:+ quoted "amount" +:+ ": 500}" +:+ newline in
  cleanText (Some (fence +:+ "json" +:+ newline +:+ body +:+ fence))
  = Normal ("{" +:+ quoted "amount" +:+ ": 500}").
Proof.
  intros body.
  pose proof (fenced_answer_unwrapped body (fence +:+ "json" +:+ newline) fence
                ltac:(vm_compute; reflexivity) ltac:(left; reflexivity)
                ltac:(left; reflexivity)) as H.
  vm_compute in H. vm_compute. exact H.
Defined.

Lemma prefix_empty s : String.prefix EmptyString s = true.
Proof. destruct s; reflexivity. Qed.

Lemma prefix_cons a p c s :
  String.prefix (String a p) (String c s) = Ascii.eqb c a && String.prefix p s.
Proof.
  cbn [String.prefix]. destruct (ascii_dec a c) as [<- | Hne].
  - rewrite Ascii.eqb_refl. reflexivity.
  - destruct (Ascii.eqb_spec c a) as [-> | _]; [contradiction | reflexivity].
Qed.

Lemma prefix_fence c s :
  String.prefix fence (String c s)
  = Ascii.eqb c backtick && String.prefix twoBackticks s.
Proof. apply prefix_cons. Qed.

Lemma fenceMatch_None s : String.prefix fence s = false -> fenceMatch s = None.
Proof. unfold fenceMatch. intros ->. reflexivity. Qed.

Lemma fenceMatch_Some s n : fenceMatch s = Some n -> exists k, n = S k.
Proof.
  unfold fenceMatch. destruct (String.prefix fence s); [|discriminate].
  intros [= <-]. eexists. reflexivity.
Qed.

Lemma removeFences_emit c s :
  String.prefix fence (String c s) = false ->
  removeFencesFrom 0 (String c s) = String c (removeFencesFrom 0 s).
Proof. intros H. cbn [removeFencesFrom]. rewrite (fenceMatch_None _ H). reflexivity. Qed.

Lemma removeFencesFrom_drop k : forall s,
  removeFencesFrom k s = removeFencesFrom 0 (drop k s).
Proof.
  induction k as [|k IH]; intros s.
  - destruct s; reflexivity.
  - destruct s as [|c s]; [reflexivity|]. cbn [removeFencesFrom drop]. apply IH.
Qed.

Lemma drop_length k : forall s, (String.length (drop k s) <= String.length s)%nat.
Proof.
  induction k as [|k IH]; intros s.
  - destruct s; cbn; lia.
  - destruct s as [|c s]; cbn [drop String.length]; [lia|].
    specialize (IH s). lia.
Qed.

Lemma no_pair_kept s :
  String.prefix twoBackticks s = false ->
  String.prefix twoBackticks (removeFencesFrom 0 s) = false.
Proof.
  unfold twoBackticks.
  destruct s as [|c1 s1]; [reflexivity|].
  rewrite prefix_cons.
  destruct (Ascii.eqb c1 backtick) eqn:Hc1.
  - cbn [andb]. intros Hs1.
    rewrite removeFences_emit.
    2: { rewrite prefix_fence, Hc1. cbn [andb]. unfold twoBackticks.
         destruct s1 as [|c2 s2]; [reflexivity|].
         rewrite prefix_cons in Hs1 |- *. rewrite prefix_empty, andb_true_r in Hs1.
         rewrite Hs1. reflexivity. }
    rewrite prefix_cons, Hc1. cbn [andb].
    destruct s1 as [|c2 s2]; [reflexivity|].
    rewrite prefix_cons, prefix_empty, andb_true_r in Hs1.
    rewrite removeFences_emit.
    + rewrite prefix_cons, Hs1. reflexivity.
    + rewrite prefix_fence, Hs1. reflexivity.
  - intros _. rewrite removeFences_emit.
    + rewrite prefix_cons, Hc1. reflexivity.
    + rewrite prefix_fence, Hc1. reflexivity.
Qed.

Lemma removeFences_none n : forall s,
  (String.length s <= n)%nat -> hasFence (removeFencesFrom 0 s) = false.
Proof.
  induction n as [|n IH]; intros s Hlen.
  - destruct s; [reflexivity | cbn in Hlen; lia].
  - destruct s as [|c s]; [reflexivity|]. cbn [String.length] in Hlen.
    destruct (fenceMatch (String c s)) as [m|] eqn:Hmatch.
    + destruct (fenceMatch_Some _ _ Hmatch) as [k ->].
      cbn [removeFencesFrom]. rewrite Hmatch, removeFencesFrom_drop. apply IH.
      pose proof (drop_length k s). lia.
    + assert (Hfence : String.prefix fence (String c s) = false).
      { unfold fenceMatch in Hmatch.
        destruct (String.prefix fence (String c s)); [discriminate | reflexivity]. }
      rewrite (removeFences_emit c s Hfence). cbn [hasFence].
      rewrite (IH s) by lia. rewrite orb_false_r.
      rewrite prefix_fence in Hfence |- *.
      destruct (Ascii.eqb c backtick); [|reflexivity].
      cbn [andb] in *. apply no_pair_kept. exact Hfence.
Qed.

Lemma removeFences_fixed s :
  hasFence s = false -> removeFencesFrom 0 s = s.
Proof.
  induction s as [|c s IH]; [reflexivity|].
  cbn [hasFence]. intros H. apply orb_false_elim in H as [Hfence Hrest].
  rewrite (removeFences_emit c s Hfence), (IH Hrest). reflexivity.
Qed.

(** X16. The replacement of lines 121 and 177 removes every fence:
    whatever the text, what is left of it holds no three backticks in a
    row, and replacing once more changes nothing. *)
Theorem cleaning_removes_every_fence text :
  hasFence (removeFences text) = false /\
  removeFences (removeFences text) = removeFences text.
Proof.
  assert (H : hasFence (removeFences text) = false)
    by (apply (removeFences_none (String.length text)); lia).
  split; [exact H|]. apply removeFences_fixed. exact H.
Qed.

(** A text with runs of four and of five backticks. *)
Lemma cleaning_removes_every_fence_witness :
  let text := "`" +:+ fence +:+ "json" +:+ newline +:+ "``" +:+ fence +:+ "{}" in
  removeFences text = "`json" +:+ newline +:+ "``{}" /\
  hasFence (removeFences text) = false.
Proof.
  intros text. split; [vm_compute; reflexivity|].
  apply (proj1 (cleaning_removes_every_fence text)).
Defined.

(** ** Repeated recurrence steps *)

Section Recurrence.

Local Open Scope Z_scope.

(** On a host whose offset from UTC is constant, local time and UTC are
    translations of each other. *)
Lemma UTC_shift tza c t k :
  constantOffset tza c -> UTC tza (LocalTime tza t + k) = t + k.
Proof. intros Hc. unfold UTC, LocalTime. rewrite !Hc. lia. Qed.

Lemma LocalTime_UTC tza c x :
  constantOffset tza c -> LocalTime tza (UTC tza x) = x.
Proof. intros Hc. unfold UTC, LocalTime. rewrite !Hc. lia. Qed.

Lemma next_days tza c t :
  constantOffset tza c ->
  calculateNextRecurringDate tza (Some t) "DAILY" = TimeClip (t + 1 * msPerDay) /\
  calculateNextRecurringDate tza (Some t) "WEEKLY" = TimeClip (t + 7 * msPerDay).
Proof.
  intros Hc.
  split; (etransitivity; [apply setDate_shift|]); rewrite (UTC_shift tza c) by exact Hc;
    reflexivity.
Qed.

Lemma next_invalid tza interval :
  calculateNextRecurringDate tza None interval = None.
Proof.
  unfold calculateNextRecurringDate.
  repeat match goal with |- context [String.eqb ?a ?b] => destruct (String.eqb a b) end;
    reflexivity.
Qed.

Lemma nextAfter_succ tza interval n d :
  nextAfter tza interval (S n) d
  = calculateNextRecurringDate tza (nextAfter tza interval n d) interval.
Proof. reflexivity. Qed.

Lemma nextAfter_invalid tza interval n : nextAfter tza interval n None = None.
Proof.
  induction n as [|n IH]; [reflexivity|].
  rewrite nextAfter_succ, IH. apply next_invalid.
Qed.

Lemma nextAfter_days tza interval k t n :
  0 <= k ->
  (forall t', calculateNextRecurringDate tza (Some t') interval
              = TimeClip (t' + k * msPerDay)) ->
  Z.abs t <= maxTime ->
  nextAfter tza interval n (Some t) = TimeClip (t + Z.of_nat n * k * msPerDay).
Proof.
  intros Hk Hstep Ht. induction n as [|n IH].
  - change (nextAfter tza interval 0 (Some t)) with (Some t).
    replace (t + Z.of_nat 0 * k * msPerDay) with t by lia.
    unfold TimeClip. destruct (Z.ltb_spec maxTime (Z.abs t)); [lia | reflexivity].
  - rewrite nextAfter_succ, IH.
    unfold TimeClip at 1.
    destruct (Z.ltb_spec maxTime (Z.abs (t + Z.of_nat n * k * msPerDay))) as [Hout|Hin].
    + rewrite next_invalid. unfold TimeClip, msPerDay, maxTime in *.
      destruct (Z.ltb_spec 8640000000000000
                  (Z.abs (t + Z.of_nat (S n) * k * 86400000))); [reflexivity | nia].
    + rewrite Hstep. f_equal. lia.
Qed.

(** X17. On a host whose offset from UTC is constant (one that has no
    daylight saving time), and on a Date object (a time value within the
    range of TimeClip, or NaN), [7 n] DAILY steps give the same date as
    [n] WEEKLY steps, Invalid Date included. *)
Theorem weekly_is_seven_daily tza c d n :
  constantOffset tza c ->
  validDate d = true ->
  nextAfter tza "DAILY" (7 * n) d = nextAfter tza "WEEKLY" n d.
Proof.
  intros Hc. destruct d as [t|]; intros Hvalid.
  - cbn in Hvalid. apply Z.leb_le in Hvalid.
    rewrite (nextAfter_days tza "DAILY" 1 t (7 * n) ltac:(lia)
               (fun t' => proj1 (next_days tza c t' Hc)) Hvalid).
    rewrite (nextAfter_days tza "WEEKLY" 7 t n ltac:(lia)
               (fun t' => proj2 (next_days tza c t' Hc)) Hvalid).
    f_equal. lia.
  - rewrite !nextAfter_invalid. reflexivity.
Qed.

(** Fourteen days and two weeks after 2024-01-31, on a host in UTC. *)
Lemma weekly_is_seven_daily_witness :
  nextAfter (fun _ _ => 0) "DAILY" 14 (Some 1706659200000)
  = nextAfter (fun _ _ => 0) "WEEKLY" 2 (Some 1706659200000).
Proof.
  apply (weekly_is_seven_daily (fun _ _ => 0) 0 (Some 1706659200000) 2).
  - intros t isUTC. reflexivity.
  - reflexivity.
Defined.

(** Where the clocks are put forward the two differ.  In New York, seven
    daily steps from 02:30 on 9 March 2024 pass through the hour that 10
    March skips, and end one hour later in the day than one weekly
    step. *)
Example weekly_and_daily_differ :
  nextAfter Examples.newYork "DAILY" 7 (Some 1709969400000)
  = Some (1709969400000 + 7 * msPerDay) /\
  nextAfter Examples.newYork "WEEKLY" 1 (Some 1709969400000)
  = Some (1709969400000 + 7 * msPerDay - 3600000).
Proof. split; vm_compute; reflexivity. Qed.

Ltac months mn H :=
  assert (mn = 0 \/ mn = 1 \/ mn = 2 \/ mn = 3 \/ mn = 4 \/ mn = 5 \/ mn = 6
          \/ mn = 7 \/ mn = 8 \/ mn = 9 \/ mn = 10 \/ mn = 11) as H by lia;
  repeat destruct H as [H | H]; subst mn.

Lemma MakeDay_next_month y mn dt :
  0 <= mn <= 11 -> MakeDay y (mn + 1) dt = MakeDay y mn dt + DaysInMonth y mn.
Proof.
  intros Hmn. destruct (Z.eq_dec mn 11) as [-> | Hne].
  - change (11 + 1) with 12. rewrite MakeDay_carry.
    rewrite !MakeDay_month by lia. rewrite DayFromYear_succ.
    unfold DaysInMonth, leapDays. cbn [Z.eqb monthStart Pos.eqb]. lia.
  - rewrite !MakeDay_month by lia. unfold DaysInMonth.
    destruct (Z.eqb_spec mn 11); [contradiction | lia].
Qed.

Lemma MakeDay_next_year y mn dt :
  0 <= mn <= 11 ->
  MakeDay (y + 1) mn dt
  = MakeDay y mn dt + (365 + leapDays (if mn <? 2 then y else y + 1)).
Proof.
  intros Hmn. rewrite !MakeDay_month by lia. rewrite DayFromYear_succ.
  unfold leapDays at 3.
  months mn H; cbn [monthStart Z.ltb Z.compare Pos.compare Pos.compare_cont];
    unfold leapDays; lia.
Qed.

Lemma MakeDate_shift t k :
  MakeDate (Day t + k) (TimeWithinDay t) = t + k * msPerDay.
Proof.
  pose proof (MakeDate_Day t) as H. unfold MakeDate, msPerDay in *. lia.
Qed.

Lemma next_month tza t :
  let lt := LocalTime tza t in
  calculateNextRecurringDate tza (Some t) "MONTHLY"
  = TimeClip (UTC tza (lt + DaysInMonth (YearFromTime lt) (MonthFromTime lt)
                            * msPerDay)).
Proof.
  cbv zeta. unfold calculateNextRecurringDate. cbn [String.eqb Ascii.eqb Bool.eqb].
  cbn [getMonth setMonth mbind option_bind fmap option_fmap option_map].
  rewrite (Z.add_comm 1), MakeDay_next_month by apply MonthFromTime_range.
  rewrite MakeDay_civil, MakeDate_shift. reflexivity.
Qed.

Lemma next_year tza t :
  let lt := LocalTime tza t in
  let y := YearFromTime lt in
  let m := MonthFromTime lt in
  calculateNextRecurringDate tza (Some t) "YEARLY"
  = TimeClip (UTC tza (lt + (365 + leapDays (if m <? 2 then y else y + 1))
                            * msPerDay)).
Proof.
  cbv zeta. unfold calculateNextRecurringDate. cbn [String.eqb Ascii.eqb Bool.eqb].
  cbn [getFullYear setFullYear mbind option_bind fmap option_fmap option_map].
  rewrite (Z.add_comm 1), MakeDay_next_year by apply MonthFromTime_range.
  rewrite MakeDay_civil, MakeDate_shift. reflexivity.
Qed.

Lemma TimeClip_Some x t : TimeClip x = Some t -> x = t.
Proof. unfold TimeClip. destruct (maxTime <? Z.abs x); congruence. Qed.

(** X18. The length of a step.  In the local time of the host, a MONTHLY
    step adds the number of days of the start's calendar month, and a
    YEARLY step adds 365 days plus the leap day of the start's year for a
    start in January or February, and of the year after it for a later
    start; the result is the time that the host reads from that local
    time.  On a host whose offset from UTC is constant (one that has no
    daylight saving time) the time value itself advances by these
    amounts, and whenever one of the four intervals yields a valid date,
    that date is at least one day and at most 366 days after the
    start. *)
Theorem recurring_step_lengths tza t :
  let lt := LocalTime tza t in
  let y := YearFromTime lt in
  let m := MonthFromTime lt in
  let month := DaysInMonth y m * msPerDay in
  let year := (365 + leapDays (if m <? 2 then y else y + 1)) * msPerDay in
  calculateNextRecurringDate tza (Some t) "MONTHLY"
  = TimeClip (UTC tza (lt + month)) /\
  calculateNextRecurringDate tza (Some t) "YEARLY"
  = TimeClip (UTC tza (lt + year)) /\
  forall c, constantOffset tza c ->
    calculateNextRecurringDate tza (Some t) "MONTHLY" = TimeClip (t + month) /\
    calculateNextRecurringDate tza (Some t) "YEARLY" = TimeClip (t + year) /\
    (forall interval t',
        In interval ["DAILY"; "WEEKLY"; "MONTHLY"; "YEARLY"]%string ->
        calculateNextRecurringDate tza (Some t) interval = Some t' ->
        t + msPerDay <= t' <= t + 366 * msPerDay).
Proof.
  cbv zeta. split; [apply next_month|]. split; [apply next_year|].
  intros c Hc.
  assert (Hmonth : calculateNextRecurringDate tza (Some t) "MONTHLY"
                   = TimeClip (t + DaysInMonth (YearFromTime (LocalTime tza t))
                                     (MonthFromTime (LocalTime tza t)) * msPerDay)).
  { rewrite next_month. rewrite (UTC_shift tza c) by exact Hc. reflexivity. }
  assert (Hyear : calculateNextRecurringDate tza (Some t) "YEARLY"
                  = TimeClip (t + (365 + leapDays
                                     (if MonthFromTime (LocalTime tza t) <? 2
                                      then YearFromTime (LocalTime tza t)
                                      else YearFromTime (LocalTime tza t) + 1))
                                  * msPerDay)).
  { rewrite next_year. rewrite (UTC_shift tza c) by exact Hc. reflexivity. }
  split; [exact Hmonth|]. split; [exact Hyear|].
  intros interval t' Hin Hnext.
  pose proof (DaysInMonth_range (YearFromTime (LocalTime tza t))
                (MonthFromTime (LocalTime tza t)) (MonthFromTime_range _)) as Hdim.
  cbn in Hin. destruct Hin as [<- | [<- | [<- | [<- | []]]]].
  - rewrite (proj1 (next_days tza c t Hc)) in Hnext. apply TimeClip_Some in Hnext.
    unfold msPerDay in *. lia.
  - rewrite (proj2 (next_days tza c t Hc)) in Hnext. apply TimeClip_Some in Hnext.
    unfold msPerDay in *. lia.
  - rewrite Hmonth in Hnext. apply TimeClip_Some in Hnext.
    unfold msPerDay in *. lia.
  - rewrite Hyear in Hnext. apply TimeClip_Some in Hnext.
    match type of Hnext with context [leapDays ?x] =>
      destruct (leapDays_cases x) as [Hl | Hl]; rewrite Hl in Hnext
    end; unfold msPerDay in *; lia.
Qed.

(** On a host in UTC, one month after 2024-01-31 is 31 days later. *)
Lemma recurring_step_lengths_witness :
  calculateNextRecurringDate (fun _ _ => 0) (Some 1706659200000) "MONTHLY"
  = Some (1706659200000 + 31 * msPerDay) /\
  1706659200000 + msPerDay <= 1706659200000 + 31 * msPerDay
  <= 1706659200000 + 366 * msPerDay.
Proof.
  destruct (recurring_step_lengths (fun _ _ => 0) 1706659200000) as (_ & _ & H).
  destruct (H 0 (fun _ _ => eq_refl)) as (Hmonth & _ & Hrange).
  split.
  - rewrite Hmonth. vm_compute. reflexivity.
  - apply (Hrange "MONTHLY"%string).
    + right. right. left. reflexivity.
    + rewrite Hmonth. vm_compute. reflexivity.
Defined.

Lemma setMonth_next tza t :
  let lt := LocalTime tza t in
  calculateNextRecurringDate tza (Some t) "MONTHLY"
  = TimeClip (UTC tza (MakeDate (MakeDay (YearFromTime lt) (1 + MonthFromTime lt)
                                   (DateFromTime lt)) (TimeWithinDay lt))).
Proof.
  cbv zeta. unfold calculateNextRecurringDate. cbn [String.eqb Ascii.eqb Bool.eqb].
  cbn [getMonth setMonth mbind option_bind fmap option_fmap option_map].
  reflexivity.
Qed.

Lemma MakeDay_following y mn dt :
  0 <= mn <= 11 ->
  exists y' mn',
    0 <= mn' <= 11 /\ 12 * y' + mn' = 12 * y + mn + 1 /\
    MakeDay y (1 + mn) dt = MakeDay y' mn' dt.
Proof.
  intros Hmn. destruct (Z.eq_dec mn 11) as [-> | Hne].
  - exists (y + 1), 0. split; [lia|]. split; [lia|].
    change (1 + 11) with 12. apply MakeDay_carry.
  - exists y, (1 + mn). split; [lia|]. split; [lia|]. reflexivity.
Qed.

Lemma triple_eq {A B C} (a a' : A) (b b' : B) (c c' : C) :
  (a, b, c) = (a', b', c') -> a = a' /\ b = b' /\ c = c'.
Proof. intros [= -> -> ->]. auto. Qed.

Lemma monthly_step tza c t t' :
  constantOffset tza c ->
  DateFromTime (LocalTime tza t) <= 28 ->
  calculateNextRecurringDate tza (Some t) "MONTHLY" = Some t' ->
  let lt := LocalTime tza t in
  let lt' := LocalTime tza t' in
  DateFromTime lt' = DateFromTime lt /\
  TimeWithinDay lt' = TimeWithinDay lt /\
  12 * YearFromTime lt' + MonthFromTime lt'
  = 12 * YearFromTime lt + MonthFromTime lt + 1.
Proof.
  intros Hc Hday Hnext. cbv zeta.
  rewrite setMonth_next in Hnext. apply TimeClip_Some in Hnext.
  pose proof (MonthFromTime_range (LocalTime tza t)) as Hm.
  pose proof (DateFromTime_range (LocalTime tza t)) as Hd.
  pose proof (TimeWithinDay_range (LocalTime tza t)) as Htime.
  destruct (MakeDay_following (YearFromTime (LocalTime tza t))
              (MonthFromTime (LocalTime tza t))
              (DateFromTime (LocalTime tza t)) Hm) as (y' & m' & Hm' & Hsum & Hday').
  rewrite Hday' in Hnext.
  assert (Hlt' : LocalTime tza t'
                 = MakeDate (MakeDay y' m' (DateFromTime (LocalTime tza t)))
                     (TimeWithinDay (LocalTime tza t))).
  { rewrite <- Hnext. apply (LocalTime_UTC tza c). exact Hc. }
  rewrite Hlt'.
  pose proof (DaysInMonth_range y' m' Hm') as Hdim.
  assert (Hrange : 1 <= DateFromTime (LocalTime tza t) <= DaysInMonth y' m') by lia.
  pose proof (civil_MakeDay y' m' (DateFromTime (LocalTime tza t))
                (TimeWithinDay (LocalTime tza t)) Hm' Hrange Htime) as Hcivil.
  apply triple_eq in Hcivil as (Hy & Hmn & Hdt).
  rewrite Hy, Hmn, Hdt.
  split; [reflexivity|]. split; [|exact Hsum].
  exact (proj2 (Day_MakeDate _ _ Htime)).
Qed.

(** X19. On a host whose offset from UTC is constant (one that has no
    daylight saving time), a monthly recurrence that starts on one of the
    days 1 to 28 stays on that day: after [n] MONTHLY steps that yield a
    valid date, the local date is the same day of the month, [n] months
    later, at the same time of day. *)
Theorem monthly_keeps_day tza c n t t' :
  constantOffset tza c ->
  DateFromTime (LocalTime tza t) <= 28 ->
  nextAfter tza "MONTHLY" n (Some t) = Some t' ->
  let lt := LocalTime tza t in
  let lt' := LocalTime tza t' in
  DateFromTime lt' = DateFromTime lt /\
  TimeWithinDay lt' = TimeWithinDay lt /\
  12 * YearFromTime lt' + MonthFromTime lt'
  = 12 * YearFromTime lt + MonthFromTime lt + Z.of_nat n.
Proof.
  intros Hc Hday. cbv zeta. revert t'. induction n as [|n IH]; intros t' Hnext.
  - injection Hnext as <-. split; [reflexivity|]. split; [reflexivity|]. lia.
  - rewrite nextAfter_succ in Hnext.
    destruct (nextAfter tza "MONTHLY" n (Some t)) as [tn|];
      [|rewrite next_invalid in Hnext; discriminate Hnext].
    destruct (IH tn eq_refl) as (Hd & Htime & Hmonths).
    destruct (monthly_step tza c tn t' Hc ltac:(lia) Hnext) as (Hd' & Htime' & Hmonths').
    split; [congruence|]. split; [congruence|]. lia.
Qed.

(** On a host in UTC, fourteen months after 2024-01-15T10:00 is
    2025-03-15T10:00. *)
Lemma monthly_keeps_day_witness :
  nextAfter (fun _ _ => 0) "MONTHLY" 14 (Some 1705312800000) = Some 1742032800000 /\
  civil 1705312800000 = (2024, 0, 15) /\
  DateFromTime (1742032800000 + 0) = 15 /\
  12 * YearFromTime (1742032800000 + 0) + MonthFromTime (1742032800000 + 0)
  = 12 * 2024 + 0 + 14.
Proof.
  assert (Hrun : nextAfter (fun _ _ => 0) "MONTHLY" 14 (Some 1705312800000)
                 = Some 1742032800000)
    by (vm_compute; reflexivity).
  destruct (monthly_keeps_day (fun _ _ => 0) 0 14 1705312800000 1742032800000
              (fun _ _ => eq_refl) ltac:(vm_compute; discriminate) Hrun)
    as (Hd & _ & Hm).
  split; [exact Hrun|]. split; [vm_compute; reflexivity|].
  split; [exact Hd | exact Hm].
Defined.

Lemma setFullYear_next tza t :
  let lt := LocalTime tza t in
  calculateNextRecurringDate tza (Some t) "YEARLY"
  = TimeClip (UTC tza (MakeDate (MakeDay (1 + YearFromTime lt) (MonthFromTime lt)
                                   (DateFromTime lt)) (TimeWithinDay lt))).
Proof.
  cbv zeta. unfold calculateNextRecurringDate. cbn [String.eqb Ascii.eqb Bool.eqb].
  cbn [getFullYear setFullYear mbind option_bind fmap option_fmap option_map].
  reflexivity.
Qed.

Lemma DaysInMonth_other y y' mn :
  0 <= mn <= 11 -> mn <> 1 -> DaysInMonth y' mn = DaysInMonth y mn.
Proof.
  intros Hmn Hne. unfold DaysInMonth.
  generalize (leapDays y) (leapDays y'). intros l l'.
  months mn H; try contradiction.
  all: repeat match goal with
         | |- context [?k =? 11] =>
             let v := eval vm_compute in (k =? 11) in change (k =? 11) with v
         | |- context [monthStart (?k + 1) _] =>
             let v := eval vm_compute in (k + 1) in change (k + 1) with v
         end.
  all: cbv iota; unfold monthStart; lia.
Qed.

Lemma yearly_step tza c t t' :
  constantOffset tza c ->
  let lt := LocalTime tza t in
  let lt' := LocalTime tza t' in
  (MonthFromTime lt = 1 -> DateFromTime lt <= 28) ->
  calculateNextRecurringDate tza (Some t) "YEARLY" = Some t' ->
  YearFromTime lt' = YearFromTime lt + 1 /\
  MonthFromTime lt' = MonthFromTime lt /\
  DateFromTime lt' = DateFromTime lt /\
  TimeWithinDay lt' = TimeWithinDay lt.
Proof.
  intros Hc. cbv zeta. intros Hfeb Hnext.
  rewrite setFullYear_next in Hnext. apply TimeClip_Some in Hnext.
  pose proof (MonthFromTime_range (LocalTime tza t)) as Hm.
  pose proof (DateFromTime_range (LocalTime tza t)) as Hd.
  pose proof (TimeWithinDay_range (LocalTime tza t)) as Htime.
  assert (Hlt' : LocalTime tza t'
                 = MakeDate (MakeDay (1 + YearFromTime (LocalTime tza t))
                               (MonthFromTime (LocalTime tza t))
                               (DateFromTime (LocalTime tza t)))
                     (TimeWithinDay (LocalTime tza t))).
  { rewrite <- Hnext. apply (LocalTime_UTC tza c). exact Hc. }
  rewrite Hlt'.
  assert (Hrange : 1 <= DateFromTime (LocalTime tza t)
                   <= DaysInMonth (1 + YearFromTime (LocalTime tza t))
                        (MonthFromTime (LocalTime tza t))).
  { destruct (Z.eq_dec (MonthFromTime (LocalTime tza t)) 1) as [Heq | Hne].
    - pose proof (DaysInMonth_range (1 + YearFromTime (LocalTime tza t))
                    (MonthFromTime (LocalTime tza t)) Hm).
      specialize (Hfeb Heq). lia.
    - rewrite (DaysInMonth_other (YearFromTime (LocalTime tza t)) _ _ Hm Hne). exact Hd. }
  pose proof (civil_MakeDay _ _ _ _ Hm Hrange Htime) as Hcivil.
  apply triple_eq in Hcivil as (Hy & Hmn & Hdt).
  rewrite Hy, Hmn, Hdt.
  split; [lia|]. split; [reflexivity|]. split; [reflexivity|].
  exact (proj2 (Day_MakeDate _ _ Htime)).
Qed.

(** X20. On a host whose offset from UTC is constant (one that has no
    daylight saving time), a yearly recurrence that does not start on 29
    February stays on its date: after [n] YEARLY steps that yield a valid
    date, the local date is the same day of the same month, [n] years
    later, at the same time of day. *)
Theorem yearly_keeps_date tza c n t t' :
  constantOffset tza c ->
  let lt := LocalTime tza t in
  let lt' := LocalTime tza t' in
  (MonthFromTime lt = 1 -> DateFromTime lt <= 28) ->
  nextAfter tza "YEARLY" n (Some t) = Some t' ->
  YearFromTime lt' = YearFromTime lt + Z.of_nat n /\
  MonthFromTime lt' = MonthFromTime lt /\
  DateFromTime lt' = DateFromTime lt /\
  TimeWithinDay lt' = TimeWithinDay lt.
Proof.
  intros Hc. cbv zeta. intros Hfeb. revert t'.
  induction n as [|n IH]; intros t' Hnext.
  - injection Hnext as <-. split; [lia|]. repeat split; reflexivity.
  - rewrite nextAfter_succ in Hnext.
    destruct (nextAfter tza "YEARLY" n (Some t)) as [tn|];
      [|rewrite next_invalid in Hnext; discriminate Hnext].
    destruct (IH tn eq_refl) as (Hy & Hm & Hd & Htime).
    destruct (yearly_step tza c tn t' Hc) as (Hy' & Hm' & Hd' & Htime');
      [rewrite Hm, Hd; exact Hfeb | exact Hnext |].
    split; [lia|]. split; [congruence|]. split; congruence.
Qed.

(** On a host in UTC, four years after 2024-03-01 is 2028-03-01. *)
Lemma yearly_keeps_date_witness :
  nextAfter (fun _ _ => 0) "YEARLY" 4 (Some 1709251200000) = Some 1835481600000 /\
  civil 1709251200000 = (2024, 2, 1) /\
  civil 1835481600000 = (2028, 2, 1).
Proof.
  assert (Hrun : nextAfter (fun _ _ => 0) "YEARLY" 4 (Some 1709251200000)
                 = Some 1835481600000)
    by (vm_compute; reflexivity).
  destruct (yearly_keeps_date (fun _ _ => 0) 0 4 1709251200000 1835481600000
              (fun _ _ => eq_refl) ltac:(vm_compute; discriminate) Hrun)
    as (Hy & Hm & Hd & _).
  split; [exact Hrun|]. split; [vm_compute; reflexivity|].
  unfold civil. unfold LocalTime in Hy, Hm, Hd.
  rewrite !Z.add_0_r in Hy, Hm, Hd. rewrite Hy, Hm, Hd. vm_compute. reflexivity.
Defined.

End Recurrence.

(** ** The prompt input component *)

Lemma leading_space c s :
  isSpace c = true -> leading whitespace (String c s) = Some 1%nat.
Proof.
  destruct c as [[] [] [] [] [] [] [] []]; intros H; vm_compute in H;
    try discriminate H; destruct s; vm_compute; reflexivity.
Qed.

Lemma strip_blank s : forall fuel,
  (String.length s <= fuel)%nat -> blank s = true ->
  strip fuel whitespace s = EmptyString.
Proof.
  induction s as [|c s IH]; intros fuel Hfuel Hblank.
  - destruct fuel; reflexivity.
  - cbn [blank] in Hblank. apply andb_prop in Hblank as [Hc Hs].
    destruct fuel as [|fuel]; [cbn in Hfuel; lia|].
    cbn [strip]. rewrite (leading_space c s Hc). cbn [drop].
    apply IH; [cbn in Hfuel; lia | exact Hs].
Qed.

(** A text of ASCII white space trims to the empty string. *)
Lemma trim_blank s : blank s = true -> trim s = EmptyString.
Proof.
  intros H. unfold trim, trimStart. rewrite (strip_blank s _ (le_n _) H).
  reflexivity.
Qed.

(** X21. [handleSubmit] does not call [submitPrompt] for a text made of
    white space only (tabs, line feeds, vertical tabs, form feeds,
    carriage returns, spaces).  When it does call it, the argument is the
    text as typed, untrimmed, and that text is not blank. *)
Theorem blank_prompt_not_submitted c :
  (blank (PromptInput.value c) = true -> PromptInput.handleSubmit c = None) /\
  (forall prompt, PromptInput.handleSubmit c = Some prompt ->
     prompt = PromptInput.value c /\ trim prompt <> EmptyString /\
     blank prompt = false).
Proof.
  split.
  - intros H. unfold PromptInput.handleSubmit. rewrite (trim_blank _ H).
    reflexivity.
  - intros prompt. unfold PromptInput.handleSubmit.
    destruct (String.eqb_spec (trim (PromptInput.value c)) EmptyString) as [Heq|Hne];
      [discriminate|].
    intros [= <-]. split; [reflexivity|]. split; [exact Hne|].
    destruct (blank (PromptInput.value c)) eqn:Hblank; [|reflexivity].
    elim Hne. apply trim_blank. exact Hblank.
Qed.

(** Two spaces and a line feed. *)
Lemma blank_prompt_not_submitted_witness :
  PromptInput.handleSubmit
    {| PromptInput.value := "  " +:+ newline; PromptInput.toasts := [];
       PromptInput.onSuccessCalls := 0 |} = None.
Proof.
  apply (proj1 (blank_prompt_not_submitted
                  {| PromptInput.value := "  " +:+ newline;
                     PromptInput.toasts := [];
                     PromptInput.onSuccessCalls := 0 |})).
  reflexivity.
Defined.

(** X22. What the callback of the component shows follows what the action
    did.  The action hands the callback a result and never throws into it.
    [Transaction added!] is shown, the input emptied and [onSuccess]
    called (when the parent gave one) only if the action returned the row
    it wrote: the extraction built the data [td] from the model's answer,
    the delegated call passed every check, and the store now holds the
    row of [td] and the balance computed from the old one, on the account
    that the look-up of line 146 returned, which is flagged as default.
    Otherwise exactly one error is shown, whose text is never empty (the
    action's message, or [Failed to add transaction] when that message is
    empty), the input keeps its text and [onSuccess] is not called. *)
Theorem toast_follows_result e prompt w c onSuccess :
  let p := createTransactionFromPrompt e prompt in
  exists res, result p w = Normal res /\
    let c' := PromptInput.onResponse onSuccess res c in
    ((PromptInput.toasts c'
      = PromptInput.toasts c ++ [PromptInput.ToastSuccess "Transaction added!"] /\
      PromptInput.value c' = EmptyString /\
      PromptInput.onSuccessCalls c'
      = (if onSuccess then S (PromptInput.onSuccessCalls c)
         else PromptInput.onSuccessCalls c) /\
      exists uid user id acc td amt b,
        extracted e prompt w uid user id acc td /\
        accepted td w uid user acc amt b /\
        let row := rowOf e (user_id user) td amt in
        res = Success (serializeAmount row) /\
        store (final p w) = committed (store w) id acc b row /\
        isDefault acc = true /\ tx_accountId row = id) \/
     (exists m,
        PromptInput.toasts c' = PromptInput.toasts c ++ [PromptInput.ToastError m] /\
        m <> EmptyString /\
        (forall error, res = Failure error -> error <> EmptyString -> m = error) /\
        PromptInput.value c' = PromptInput.value c /\
        PromptInput.onSuccessCalls c' = PromptInput.onSuccessCalls c)).
Proof.
  cbv zeta.
  assert (Hfail : forall m,
    exists m',
      PromptInput.toasts (PromptInput.onResponse onSuccess (Failure m) c)
      = PromptInput.toasts c ++ [PromptInput.ToastError m'] /\
      m' <> EmptyString /\
      (forall error, Failure m = Failure error -> error <> EmptyString -> m' = error) /\
      PromptInput.value (PromptInput.onResponse onSuccess (Failure m) c)
      = PromptInput.value c /\
      PromptInput.onSuccessCalls (PromptInput.onResponse onSuccess (Failure m) c)
      = PromptInput.onSuccessCalls c).
  { intros m.
    cbn [PromptInput.onResponse PromptInput.toasts PromptInput.value
         PromptInput.onSuccessCalls].
    eexists. split; [reflexivity|].
    split; [|split; [|split; reflexivity]].
    + destruct (String.eqb_spec m EmptyString); [discriminate | assumption].
    + intros error [= <-] Hne.
      destruct (String.eqb_spec m EmptyString); [contradiction | reflexivity]. }
  destruct (prompt_outcomes e prompt w)
    as [(m & Hres & _) |
        (uid & user & id & acc & td & amt & b & Hext & Hacc & Hstore
         & [Hres | (m & Hres)])].
  - exists (Failure m). split; [exact Hres|]. right. apply Hfail.
  - eexists. split; [exact Hres|]. left.
    cbn [PromptInput.onResponse PromptInput.toasts PromptInput.value
         PromptInput.onSuccessCalls].
    repeat (split; [reflexivity|]).
    exists uid, user, id, acc, td, amt, b.
    split; [exact Hext|]. split; [exact Hacc|]. split; [reflexivity|].
    split; [exact Hstore|].
    destruct Hext as (_ & _ & Hdefault & text & data & _ & _ & Htd).
    apply findDefaultAccount_Some in Hdefault as (_ & _ & Hdef).
    split; [exact Hdef|].
    exact (proj1 (transactionDataOf_Normal _ _ _ _ Htd)).
  - exists (Failure m). split; [exact Hres|]. right. apply Hfail.
Qed.

(** A caller without a default account is shown the action's message,
    and the text stays in the input. *)
Lemma toast_follows_result_witness :
  let w := {| store := Examples.storeWithoutDefault (Examples.dec 100 0); trace := [] |} in
  let c := {| PromptInput.value := "Spent 500 on lunch"; PromptInput.toasts := [];
              PromptInput.onSuccessCalls := 0 |} in
  exists res,
    result (createTransactionFromPrompt Examples.quiet "Spent 500 on lunch") w
    = Normal res /\
    PromptInput.onResponse true res c
    = {| PromptInput.value := "Spent 500 on lunch";
         PromptInput.toasts := [PromptInput.ToastError "No default account found"];
         PromptInput.onSuccessCalls := 0 |}.
Proof.
  intros w c.
  destruct (toast_follows_result Examples.quiet "Spent 500 on lunch" w c true)
    as (res & Hres & _).
  exists res. split; [exact Hres|].
  vm_compute in Hres. injection Hres as <-. reflexivity.
Defined.
